(** * primeqa-common: rate limiter, idempotency guard, cache sweep and
    resilient HTTP client

    A shallow embedding of
      - src/errors/AppError.ts, src/types/api.ts
      - src/middlewares/rateLimit.middleware.ts
      - src/middlewares/idempotency.middleware.ts
      - src/utils/cacheCleanup.ts
      - src/http/client.ts
    together with the properties the specification states about them.

    Conventions of the embedding.
      - JavaScript numbers that hold counters, HTTP statuses and millisecond
        timestamps are integers of [Z]; the fractional and non-finite values
        of IEEE doubles are outside the model.
      - A [Map<string, V>] is a [gmap string V].  Iteration order of a Map is
        insertion order; the only iteration in the sources (the sweeps) is
        shown below to be independent of the order.
      - Module-level mutable state (the two caches) is threaded explicitly:
        every operation takes the store and returns the new one.
      - Code that can throw returns a [Completion]: a normal value or the
        thrown value.
      - Strings are sequences of code units below 256. *)

From Stdlib Require Import ZArith Lia Ascii String DecimalString.
From stdpp Require Import gmap strings list fin_maps.

Set Warnings "-register-all".

Local Open Scope string_scope.
Local Open Scope Z_scope.

(* ===================================================================== *)
(** ** JavaScript values and strings                                      *)
(* ===================================================================== *)

Module Js.

(** The values that travel as request bodies, response bodies and error
    details ([unknown] in the sources). *)
Inductive Value :=
| VUndefined
| VNull
| VBool (b : bool)
| VNum (n : Z)
| VStr (s : string)
| VArr (items : list Value)
| VObj (fields : list (string * Value)).

(** White space and line terminators removed by [String.prototype.trim],
    restricted to code units below 256: TAB, LF, VT, FF, CR, SP, NBSP. *)
Definition isWhiteSpace (c : ascii) : bool :=
  match N_of_ascii c with
  | 9%N | 10%N | 11%N | 12%N | 13%N | 32%N | 160%N => true
  | _ => false
  end.

Fixpoint trimStart (s : string) : string :=
  match s with
  | EmptyString => EmptyString
  | String c rest => if isWhiteSpace c then trimStart rest else s
  end.

Fixpoint trimEnd (s : string) : string :=
  match s with
  | EmptyString => EmptyString
  | String c rest =>
      match trimEnd rest with
      | EmptyString => if isWhiteSpace c then EmptyString else String c EmptyString
      | rest' => String c rest'
      end
  end.

Definition trim (s : string) : string := trimEnd (trimStart s).

(** [toUpperCase] / [toLowerCase] on the ASCII letters.  Method names and
    header names are ASCII tokens. *)
Definition upperChar (c : ascii) : ascii :=
  let n := N_of_ascii c in
  if ((97 <=? n) && (n <=? 122))%N then ascii_of_N (n - 32) else c.

Definition lowerChar (c : ascii) : ascii :=
  let n := N_of_ascii c in
  if ((65 <=? n) && (n <=? 90))%N then ascii_of_N (n + 32) else c.

Fixpoint mapChars (f : ascii -> ascii) (s : string) : string :=
  match s with
  | EmptyString => EmptyString
  | String c rest => String (f c) (mapChars f rest)
  end.

Definition toUpperCase : string -> string := mapChars upperChar.
Definition toLowerCase : string -> string := mapChars lowerChar.

(** Decimal rendering of an integer, as a template literal does. *)
Definition numberToString (n : Z) : string :=
  NilZero.string_of_int (Z.to_int n).

(** Truthiness of an optional string: [undefined] and [""] are falsy. *)
Definition truthy (o : option string) : option string :=
  match o with
  | Some EmptyString => None
  | other => other
  end.

(** [o ?? fallback] *)
Definition nullish {A} (o : option A) (fallback : A) : A :=
  match o with
  | Some a => a
  | None => fallback
  end.

(** [a || b] on optional strings. *)
Definition orElse (a b : option string) : option string :=
  match truthy a with
  | Some s => Some s
  | None => b
  end.

End Js.

(* ===================================================================== *)
(** ** Errors (src/types/api.ts, src/errors/AppError.ts)                  *)
(* ===================================================================== *)

Module Errors.

Inductive ErrorCode :=
| VALIDATION_ERROR
| UNAUTHORIZED
| FORBIDDEN
| NOT_FOUND
| CONFLICT
| INTERNAL_ERROR.

Record AppError := mkAppError {
  code : ErrorCode;
  message : string;
  status : Z;
  details : option Js.Value;
}.

(** Any other thrown object, seen through the properties the sources
    inspect.  A field is [None] when the property is missing or does not
    have the JavaScript type the source tests for ([code], [name] and
    [message] strings, [status] a number). *)
Record ErrorObject := mkErrorObject {
  e_name : option string;
  e_message : option string;
  e_code : option string;
  e_status : option Z;
  e_data : option Js.Value;
}.

(** [new Error(msg)] *)
Definition newError (msg : string) : ErrorObject :=
  {| e_name := Some "Error"; e_message := Some msg; e_code := None;
     e_status := None; e_data := None |}.

(** A thrown value: [instanceof AppError] or not. *)
Inductive Thrown :=
| ThrownAppError (e : AppError)
| ThrownObject (e : ErrorObject).

(** The result of running code that may throw. *)
Inductive Completion (A : Type) :=
| Normal (a : A)
| Throw (e : Thrown).
Arguments Normal {A} a.
Arguments Throw {A} e.

End Errors.

(* ===================================================================== *)
(** ** Requests and clocks                                                *)
(* ===================================================================== *)

Module Http.

(** A header value of [req.headers]: a string, or an array of strings. *)
Inductive HeaderValue :=
| HStr (s : string)
| HArr (items : list string).

(** [Array.prototype.toString]: the items joined with commas. *)
Fixpoint join (sep : string) (items : list string) : string :=
  match items with
  | [] => ""
  | [s] => s
  | s :: rest => (s ++ sep ++ join sep rest)%string
  end.

Definition headerToString (v : HeaderValue) : string :=
  match v with
  | HStr s => s
  | HArr items => join "," items
  end.

(** The part of an Express request the middlewares read: [req.method],
    [req.ip], the object [req.headers] (lower-cased names) and the accessor
    [req.header(name)], typed [string | undefined]. *)
Record Request := mkRequest {
  method : string;
  ip : option string;
  headers : gmap string HeaderValue;
  header : string -> option string;
}.

(** What the two clocks of the process read at the instant of a call:
    [Date.now()] in milliseconds since the epoch, and
    [process.hrtime.bigint()] in nanoseconds of the monotonic clock. *)
Record Clock := mkClock {
  Date_now : Z;
  hrtime_bigint : Z;
}.

(** What a middleware does with control: [next()], [next(err)], answer the
    request itself, or throw. *)
Inductive Control :=
| Next
| NextError (e : Errors.AppError)
| Responded
| Thrown (e : Errors.Thrown).

End Http.

(* ===================================================================== *)
(** ** Rate limiter (src/middlewares/rateLimit.middleware.ts)             *)
(* ===================================================================== *)

(** The store is one module-level Map, shared by every limiter the process
    creates; each operation below takes it and returns it. *)

Module RateLimit.
Import Errors Http.

Record RateLimitOptions := mkRateLimitOptions {
  windowMs : option Z;
  max : option Z;
  keyGenerator : option (Request -> Completion string);
  message : option string;
}.

Record Entry := mkEntry {
  count : Z;
  expiresAt : Z;
}.

Definition cleanupIfExpired (key : string) (now : Z)
    (store : gmap string Entry) : gmap string Entry :=
  match store !! key with
  | Some entry => if expiresAt entry <=? now then delete key store else store
  | None => store
  end.

(** [store.keys()] *)
Definition keys (store : gmap string Entry) : list string :=
  (map_to_list store).*1.

(** The body of the [for ... of] loop run over a list of keys. *)
Definition cleanupKeys (now : Z) (ks : list string)
    (store : gmap string Entry) : gmap string Entry :=
  foldl (fun st key => cleanupIfExpired key now st) store ks.

Definition _cleanupRateLimitCache (now : Z)
    (store : gmap string Entry) : gmap string Entry :=
  cleanupKeys now (keys store) store.

(** [req.ip || req.headers["x-forwarded-for"]?.toString() || "unknown"] *)
Definition defaultKeyGenerator (req : Request) : Completion string :=
  match Js.orElse (ip req)
          (Js.truthy (headerToString <$> headers req !! "x-forwarded-for")) with
  | Some key => Normal key
  | None => Normal "unknown"
  end.

(** The middleware returned by [rateLimit(options)], run on one request
    with the clock readings of that instant. *)
Definition rateLimit (options : RateLimitOptions) (clk : Clock) (req : Request)
    (store : gmap string Entry) : Control * gmap string Entry :=
  let windowMs := Js.nullish (windowMs options) 60000 in
  let max := Js.nullish (max options) 10 in
  let keyGenerator := Js.nullish (keyGenerator options) defaultKeyGenerator in
  let message := Js.nullish (message options) "Too many requests" in
  let now := Date_now clk in
  match keyGenerator req with
  | Throw e => (Thrown e, store)
  | Normal key =>
      let store := cleanupIfExpired key now store in
      match store !! key with
      | None =>
          (Next, <[key := {| count := 1; expiresAt := now + windowMs |}]> store)
      | Some entry =>
          if max <=? count entry then
            (NextError (mkAppError FORBIDDEN message 429 None), store)
          else
            (Next, <[key := {| count := count entry + 1;
                               expiresAt := expiresAt entry |}]> store)
      end
  end.

Definition loginRateLimiter :=
  rateLimit {| windowMs := Some 60000; max := Some 10;
               keyGenerator := None; message := None |}.

(** A sequence of checks, each with its own clock reading and request; the
    decisions in order, and the final store. *)
Fixpoint runChecks (options : RateLimitOptions) (calls : list (Clock * Request))
    (store : gmap string Entry) : list Control * gmap string Entry :=
  match calls with
  | [] => ([], store)
  | (clk, req) :: rest =>
      let '(c, store') := rateLimit options clk req store in
      let '(cs, store'') := runChecks options rest store' in
      (c :: cs, store'')
  end.

End RateLimit.

(* ===================================================================== *)
(** ** Idempotency guard (src/middlewares/idempotency.middleware.ts,
       kept in this tree after permission.middleware.ts)                  *)
(* ===================================================================== *)

Module Idempotency.
Import Errors Http.

Record CachedResponse := mkCachedResponse {
  status : Z;
  headers : gmap string string;
  body : Js.Value;
  expiresAt : Z;
}.

Record IdempotencyOptions := mkIdempotencyOptions {
  ttlMs : option Z;
}.

(** A value of [res.getHeader(name)]: [number | string | string[]]. *)
Inductive ResHeaderValue :=
| RString (s : string)
| RNumber (n : Z)
| RArray (items : list string).

Inductive EmitKind := ViaSend | ViaJson.

(** One call of the framework's own [send] or [json]: what goes to the
    client, with the status and headers the response has at that moment. *)
Record Emission := mkEmission {
  via : EmitKind;
  em_status : Z;
  em_headers : gmap string ResHeaderValue;
  em_body : Js.Value;
}.

(** The variables closed over by [captureAndStore] and by the two methods
    the middleware installs on [res]. *)
Record Wrapper := mkWrapper {
  w_key : string;
  w_now : Z;
  w_ttlMs : Z;
  stored : bool;
}.

(** The response object of one request: its status code, its headers
    (lower-cased names), what the framework has emitted so far, and the
    wrapper installed on [send] and [json], if any. *)
Record Response := mkResponse {
  statusCode : Z;
  resHeaders : gmap string ResHeaderValue;
  emitted : list Emission;
  wrapper : option Wrapper;
}.

Definition freshResponse : Response :=
  {| statusCode := 200; resHeaders := ∅; emitted := []; wrapper := None |}.

Definition getHeader (name : string) (res : Response) : option ResHeaderValue :=
  resHeaders res !! Js.toLowerCase name.

Definition setHeader (name : string) (v : ResHeaderValue) (res : Response) : Response :=
  {| statusCode := statusCode res;
     resHeaders := <[Js.toLowerCase name := v]> (resHeaders res);
     emitted := emitted res;
     wrapper := wrapper res |}.

(** [res.status(code)] *)
Definition res_status (code : Z) (res : Response) : Response :=
  {| statusCode := code;
     resHeaders := resHeaders res;
     emitted := emitted res;
     wrapper := wrapper res |}.

(** [res.set(obj)]: every field of the object becomes a header. *)
Definition res_set (obj : gmap string string) (res : Response) : Response :=
  foldr (fun '(name, v) r => setHeader name (RString v) r) res (map_to_list obj).

(** The framework's [send] and [json], the ones saved as [originalSend] and
    [originalJson]. *)
Definition original (kind : EmitKind) (body : Js.Value) (res : Response) : Response :=
  {| statusCode := statusCode res;
     resHeaders := resHeaders res;
     emitted := emitted res ++
       [ {| via := kind; em_status := statusCode res;
            em_headers := resHeaders res; em_body := body |} ];
     wrapper := wrapper res |}.

Definition cleanIfExpired (key : string) (now : Z)
    (cache : gmap string CachedResponse) : gmap string CachedResponse :=
  match cache !! key with
  | Some cached => if expiresAt cached <=? now then delete key cache else cache
  | None => cache
  end.

(** [cache.keys()] *)
Definition keys (cache : gmap string CachedResponse) : list string :=
  (map_to_list cache).*1.

Definition cleanKeys (now : Z) (ks : list string)
    (cache : gmap string CachedResponse) : gmap string CachedResponse :=
  foldl (fun c key => cleanIfExpired key now c) cache ks.

Definition _cleanupIdempotencyCache (now : Z)
    (cache : gmap string CachedResponse) : gmap string CachedResponse :=
  cleanKeys now (keys cache) cache.

Definition captureAndStore (w : Wrapper) (body : Js.Value) (res : Response)
    (cache : gmap string CachedResponse) : gmap string CachedResponse :=
  let headers : gmap string string :=
    match getHeader "Content-Type" res with
    | Some (RString contentType) => {[ "Content-Type" := contentType ]}
    | _ => ∅
    end in
  <[w_key w := {| status := statusCode res; headers := headers; body := body;
                  expiresAt := w_now w + w_ttlMs w |}]> cache.

Definition markStored (res : Response) (w : Wrapper) : Response :=
  {| statusCode := statusCode res;
     resHeaders := resHeaders res;
     emitted := emitted res;
     wrapper := Some {| w_key := w_key w; w_now := w_now w;
                        w_ttlMs := w_ttlMs w; stored := true |} |}.

(** A call of [res.send(body)] or [res.json(body)]: the installed method if
    the middleware replaced it, the framework's own otherwise. *)
Definition emit (kind : EmitKind) (body : Js.Value) (res : Response)
    (cache : gmap string CachedResponse) : Response * gmap string CachedResponse :=
  match wrapper res with
  | None => (original kind body res, cache)
  | Some w =>
      if stored w then (original kind body res, cache)
      else (original kind body (markStored res w), captureAndStore w body res cache)
  end.

Definition install (key : string) (now ttlMs : Z) (res : Response) : Response :=
  {| statusCode := statusCode res;
     resHeaders := resHeaders res;
     emitted := emitted res;
     wrapper := Some {| w_key := key; w_now := now; w_ttlMs := ttlMs;
                        stored := false |} |}.

(** The middleware returned by [idempotencyMiddleware(options)]. *)
Definition idempotencyMiddleware (options : IdempotencyOptions) (clk : Clock)
    (req : Request) (res : Response) (cache : gmap string CachedResponse)
    : Control * Response * gmap string CachedResponse :=
  let ttlMs := Js.nullish (ttlMs options) (5 * 60 * 1000) in
  if negb (String.eqb (method req) "POST") then (Next, res, cache)
  else
    match Js.truthy (Js.trim <$> header req "Idempotency-Key") with
    | None => (Next, res, cache)
    | Some key =>
        let now := Date_now clk in
        let cache := cleanIfExpired key now cache in
        match cache !! key with
        | Some cached =>
            let '(res, cache) :=
              emit ViaSend (body cached)
                (res_set (headers cached) (res_status (status cached) res)) cache in
            (Responded, res, cache)
        | None => (Next, install key now ttlMs res, cache)
        end
    end.

Definition requireIdempotencyKey (req : Request) : Control :=
  match Js.truthy (header req "Idempotency-Key") with
  | None => NextError (mkAppError VALIDATION_ERROR
                         "Idempotency-Key header required" 400 None)
  | Some _ => Next
  end.

(** What the business logic behind the middleware does with the response. *)
Inductive Action :=
| SetStatus (code : Z)
| SetHeader (name : string) (v : ResHeaderValue)
| Send (body : Js.Value)
| Json (body : Js.Value).

Definition step (a : Action) (res : Response) (cache : gmap string CachedResponse)
    : Response * gmap string CachedResponse :=
  match a with
  | SetStatus code => (res_status code res, cache)
  | SetHeader name v => (setHeader name v res, cache)
  | Send body => emit ViaSend body res cache
  | Json body => emit ViaJson body res cache
  end.

Fixpoint runActions (acts : list Action) (res : Response)
    (cache : gmap string CachedResponse) : Response * gmap string CachedResponse :=
  match acts with
  | [] => (res, cache)
  | a :: rest => let '(res', cache') := step a res cache in runActions rest res' cache'
  end.

Definition isEmission (a : Action) : bool :=
  match a with
  | Send _ | Json _ => true
  | _ => false
  end.

Record Served := mkServed {
  handlerRan : bool;
  response : Response;
  cacheAfter : gmap string CachedResponse;
}.

(** One request through the middleware and then, if the middleware calls
    [next()], through the handler behind it. *)
Definition serve (options : IdempotencyOptions) (clk : Clock) (req : Request)
    (handler : Request -> list Action) (cache : gmap string CachedResponse) : Served :=
  match idempotencyMiddleware options clk req freshResponse cache with
  | (Next, res, cache') =>
      let '(res', cache'') := runActions (handler req) res cache' in
      {| handlerRan := true; response := res'; cacheAfter := cache'' |}
  | (_, res, cache') =>
      {| handlerRan := false; response := res; cacheAfter := cache' |}
  end.

End Idempotency.

(* ===================================================================== *)
(** ** Periodic sweep (src/utils/cacheCleanup.ts)                         *)
(* ===================================================================== *)

Module CacheCleanup.
Import Http.

(** The two module-level caches of the process. *)
Record Caches := mkCaches {
  rateLimitStore : gmap string RateLimit.Entry;
  idempotencyCache : gmap string Idempotency.CachedResponse;
}.

(** [Number(process.hrtime.bigint() / 1000000n)]; bigint division truncates. *)
Definition sweepTimestamp (clk : Clock) : Z :=
  Z.quot (hrtime_bigint clk) 1000000.

Definition cleanupExpiredEntries (clk : Clock) (c : Caches) : Caches :=
  let now := sweepTimestamp clk in
  {| rateLimitStore := RateLimit._cleanupRateLimitCache now (rateLimitStore c);
     idempotencyCache :=
       Idempotency._cleanupIdempotencyCache now (idempotencyCache c) |}.

End CacheCleanup.

(* ===================================================================== *)
(** ** Resilient HTTP client (src/http/client.ts)                         *)
(* ===================================================================== *)

(** The network layer is a parameter: [net n] is what the n-th [fetch] of a
    call answers, a rejection (network failure, or the [AbortError] caused by
    the timeout timer) or a response.  The headers sent (lines 59-76 of the
    source) and the serialised body are arguments of [fetch] and do not
    appear; the body is taken to be serialisable, so that every attempt
    reaches [fetch]. *)

Module HttpClient.
Import Errors.

Record HttpClientOptions := mkHttpClientOptions {
  timeout : option Z;
  retries : option Z;
  retryDelay : option Z;
  body : option Js.Value;
}.

Record HttpClientResponse := mkHttpClientResponse {
  data : Js.Value;
  status : Z;
  headers : gmap string string;
}.

Definition DEFAULT_TIMEOUT : Z := 10000.
Definition DEFAULT_RETRIES : Z := 2.
Definition DEFAULT_RETRY_DELAY : Z := 1000.

(** What [fetch] resolves to: the response line, the headers (lower-cased
    names), and what reading the body as JSON or as text gives. *)
Record FetchResponse := mkFetchResponse {
  ok : bool;
  r_status : Z;
  statusText : string;
  r_headers : gmap string string;
  r_json : Completion Js.Value;
  r_text : Completion string;
}.

(** The answer of the network layer to one call of [fetch]: the promise is
    rejected (network failure, or the abort fired by the timeout timer), or
    it resolves to a response. *)
Inductive FetchOutcome :=
| Rejected (e : Thrown)
| Resolved (r : FetchResponse).

(** What a call does to the outside world, in order. *)
Inductive Event :=
| Fetch (attempt : Z)
| Sleep (ms : Z).

(** The property reads [err.code], [err.name], [err.message], [err.status]
    on a caught value.  An [AppError] is an [Error] whose [code] is the
    name of its error code. *)
Definition errorCodeName (c : ErrorCode) : string :=
  match c with
  | VALIDATION_ERROR => "VALIDATION_ERROR"
  | UNAUTHORIZED => "UNAUTHORIZED"
  | FORBIDDEN => "FORBIDDEN"
  | NOT_FOUND => "NOT_FOUND"
  | CONFLICT => "CONFLICT"
  | INTERNAL_ERROR => "INTERNAL_ERROR"
  end.

Definition codeOf (error : Thrown) : option string :=
  match error with
  | ThrownAppError e => Some (errorCodeName (code e))
  | ThrownObject e => e_code e
  end.

Definition nameOf (error : Thrown) : option string :=
  match error with
  | ThrownAppError _ => Some "Error"
  | ThrownObject e => e_name e
  end.

Definition messageOf (error : Thrown) : option string :=
  match error with
  | ThrownAppError e => Some (message e)
  | ThrownObject e => e_message e
  end.

Definition statusOf (error : Thrown) : option Z :=
  match error with
  | ThrownAppError e => Some (Errors.status e)
  | ThrownObject e => e_status e
  end.

(** [x === "literal"] for a property that may be missing. *)
Definition strictEq (o : option string) (literal : string) : bool :=
  match o with
  | Some s => String.eqb s literal
  | None => false
  end.

Definition isRetryableMethod (method : string) : bool :=
  existsb (String.eqb (Js.toUpperCase method)) ["GET"; "HEAD"; "OPTIONS"].

Definition isRetryableError (error : Thrown) : bool :=
  strictEq (codeOf error) "ECONNREFUSED" ||
  strictEq (codeOf error) "ENOTFOUND" ||
  strictEq (codeOf error) "ETIMEDOUT" ||
  strictEq (nameOf error) "AbortError" ||
  match statusOf error with
  | Some s => (500 <=? s) && negb (s =? 501)
  | None => false
  end.

(** [haystack.includes(needle)] *)
Fixpoint includes (needle haystack : string) : bool :=
  String.prefix needle haystack ||
  match haystack with
  | EmptyString => false
  | String _ rest => includes needle rest
  end.

(** How one turn of the [for] loop ends. *)
Inductive Turn :=
| Return (r : HttpClientResponse)
| Continue (lastError : Thrown) (ms : Z)
| Raise (e : Thrown).

Section Call.

(** The network's answer to the n-th call of [fetch] made by this call. *)
Variable net : Z -> FetchOutcome.
Variable url : string.
Variable shouldRetry : bool.
Variable maxAttempts : Z.
Variable retryDelay : Z.

(** The [catch] block. *)
Definition catchBlock (attempt : Z) (error : Thrown) : Turn :=
  match error with
  | ThrownAppError _ => Raise error
  | ThrownObject _ =>
      if shouldRetry && (attempt <? maxAttempts) && isRetryableError error then
        Continue error (retryDelay * attempt)
      else if strictEq (codeOf error) "ECONNREFUSED" ||
              strictEq (codeOf error) "ENOTFOUND" ||
              strictEq (nameOf error) "AbortError" then
        let errorMessage := Js.nullish (messageOf error) "Unknown error" in
        Raise (ThrownAppError
                 (mkAppError INTERNAL_ERROR "Service unavailable or timed out" 503
                    (Some (Js.VObj [("url", Js.VStr url);
                                    ("originalError", Js.VStr errorMessage)]))))
      else Raise error
  end.

(** The error built for a response that is not [ok]. *)
Definition httpError (response : FetchResponse) (data : Js.Value) : ErrorObject :=
  {| e_name := Some "Error";
     e_message := Some ("HTTP " ++ Js.numberToString (r_status response) ++ ": "
                        ++ statusText response)%string;
     e_code := None;
     e_status := Some (r_status response);
     e_data := Some data |}.

Definition readBody (response : FetchResponse) : Completion Js.Value :=
  match r_headers response !! "content-type" with
  | Some contentType =>
      if includes "application/json" contentType then r_json response
      else match r_text response with
           | Normal s => Normal (Js.VStr s)
           | Throw e => Throw e
           end
  | None =>
      match r_text response with
      | Normal s => Normal (Js.VStr s)
      | Throw e => Throw e
      end
  end.

(** The [try] block of one attempt, given the network's answer; what it
    throws goes through the [catch] block. *)
Definition tryBlock (attempt : Z) (answer : FetchOutcome) : Turn :=
  match answer with
  | Rejected e => catchBlock attempt e
  | Resolved response =>
      match readBody response with
      | Throw e => catchBlock attempt e
      | Normal data =>
          if negb (ok response) then
            let error := httpError response data in
            if shouldRetry && (attempt <? maxAttempts)
               && isRetryableError (ThrownObject error) then
              Continue (ThrownObject error) (retryDelay * attempt)
            else if 500 <=? r_status response then
              catchBlock attempt
                (ThrownAppError
                   (mkAppError INTERNAL_ERROR
                      ("Dependency service failed: " ++ statusText response)%string
                      503
                      (Some (Js.VObj [("url", Js.VStr url);
                                      ("status", Js.VNum (r_status response))]))))
            else catchBlock attempt (ThrownObject error)
          else
            Return {| data := data; status := r_status response;
                      headers := r_headers response |}
      end
  end.

(** The statement after the loop. *)
Definition exhausted (lastError : option Thrown) : Thrown :=
  let errorMsg :=
    match lastError with
    | Some e => Js.nullish (messageOf e) "Unknown error"
    | None => "Unknown error"
    end in
  ThrownAppError
    (mkAppError INTERNAL_ERROR
       ("Request failed after " ++ Js.numberToString maxAttempts ++ " attempts")%string
       503
       (Some (Js.VObj [("url", Js.VStr url); ("originalError", Js.VStr errorMsg)]))).

(** [for (let attempt = ...; attempt <= maxAttempts; attempt++)], from the
    given value of [attempt] on.  [fuel] bounds the number of turns; [None]
    means the bound was too small. *)
Fixpoint attempts (fuel : nat) (attempt : Z) (lastError : option Thrown)
    : option (Completion HttpClientResponse * list Event) :=
  if attempt <=? maxAttempts then
    match fuel with
    | O => None
    | S fuel' =>
        match tryBlock attempt (net attempt) with
        | Return r => Some (Normal r, [Fetch attempt])
        | Raise e => Some (Throw e, [Fetch attempt])
        | Continue e ms =>
            match attempts fuel' (attempt + 1) (Some e) with
            | Some (result, events) =>
                Some (result, Fetch attempt :: Sleep ms :: events)
            | None => None
            end
        end
    end
  else Some (Throw (exhausted lastError), []).

End Call.

(** [httpRequest(method, url, options)] against a network that answers the
    n-th [fetch] of the call with [net n]: the result of the call and what
    it did, in order. *)
Definition httpRequest (net : Z -> FetchOutcome) (method url : string)
    (options : HttpClientOptions)
    : option (Completion HttpClientResponse * list Event) :=
  let retries := Js.nullish (retries options) DEFAULT_RETRIES in
  let retryDelay := Js.nullish (retryDelay options) DEFAULT_RETRY_DELAY in
  let shouldRetry := isRetryableMethod method in
  let maxAttempts := if shouldRetry then retries + 1 else 1 in
  attempts net url shouldRetry maxAttempts retryDelay
    (Z.to_nat maxAttempts) 1 None.

(** The calls of the network layer among the events of a call. *)
Fixpoint invocations (events : list Event) : Z :=
  match events with
  | [] => 0
  | Fetch _ :: rest => 1 + invocations rest
  | Sleep _ :: rest => invocations rest
  end.

End HttpClient.

(* ===================================================================== *)
(** ** Vocabulary of the statements                                       *)
(* ===================================================================== *)

Module ExpiringStore.

(** Both caches are maps to records with an expiry, cleaned by the same
    code; the shape they share, to reason about them once. *)
Section Generic.
Context {A : Type} (expiry : A -> Z).

(** An entry as a reader at time [now] is meant to see it: absent once
    [expiry <= now]. *)
Definition unexpired (now : Z) (o : option A) : option A :=
  match o with
  | Some e => if expiry e <=? now then None else Some e
  | None => None
  end.

Definition dropIfExpired (key : string) (now : Z) (m : gmap string A) : gmap string A :=
  match m !! key with
  | Some e => if expiry e <=? now then delete key m else m
  | None => m
  end.

Definition dropKeys (now : Z) (ks : list string) (m : gmap string A) : gmap string A :=
  foldl (fun st key => dropIfExpired key now st) m ks.

Definition sweep (now : Z) (m : gmap string A) : gmap string A :=
  dropKeys now (map_to_list m).*1 m.

End Generic.

End ExpiringStore.

Module RateLimitSpec.
Import Errors Http RateLimit.

(** The configuration a limiter runs with, defaults applied. *)
Definition windowOf (options : RateLimitOptions) : Z :=
  Js.nullish (windowMs options) 60000.
Definition maxOf (options : RateLimitOptions) : Z :=
  Js.nullish (max options) 10.
Definition messageOf (options : RateLimitOptions) : string :=
  Js.nullish (message options) "Too many requests".
Definition generatedKey (options : RateLimitOptions) (req : Request) : Completion string :=
  Js.nullish (keyGenerator options) defaultKeyGenerator req.

(** The denial: [next(new AppError(FORBIDDEN, message, 429))]. *)
Definition denial (options : RateLimitOptions) : Control :=
  NextError (mkAppError FORBIDDEN (messageOf options) 429 None).

(** [n] checks of which the first [allowed] pass and the others are
    denied. *)
Definition decisions (options : RateLimitOptions) (allowed n : nat) : list Control :=
  replicate (n `min` allowed) Next ++ replicate (n - allowed) (denial options).

(** All calls are for [key], at instants before [limit]. *)
Definition callsWithin (options : RateLimitOptions) (key : string) (limit : Z)
    (calls : list (Clock * Request)) : Prop :=
  Forall (fun call => generatedKey options call.2 = Normal key
                      /\ Date_now call.1 < limit) calls.

End RateLimitSpec.

Module IdempotencySpec.
Import Errors Http Idempotency.

Definition ttlOf (options : IdempotencyOptions) : Z :=
  Js.nullish (ttlMs options) (5 * 60 * 1000).

(** The key under which the guard handles a request: the trimmed
    [Idempotency-Key] header of a POST, when it is not empty. *)
Definition requestKey (req : Request) : option string :=
  if String.eqb (method req) "POST"
  then Js.truthy (Js.trim <$> header req "Idempotency-Key")
  else None.

(** The headers [captureAndStore] keeps: the content type, when it is a
    string. *)
Definition capturedHeaders (res : Response) : gmap string string :=
  match getHeader "Content-Type" res with
  | Some (RString contentType) => {[ "Content-Type" := contentType ]}
  | _ => ∅
  end.

(** The record [captureAndStore] writes for an emission of [body] on [res],
    for a request that arrived at [now]. *)
Definition recordOf (now ttl : Z) (res : Response) (body : Js.Value) : CachedResponse :=
  {| status := statusCode res; headers := capturedHeaders res; body := body;
     expiresAt := now + ttl |}.

(** The response object on which the handler of a first request works. *)
Definition wrapped (key : string) (now ttl : Z) : Response :=
  install key now ttl freshResponse.

(** A record as a response: its status, its headers as header values under
    lower-cased names, its body. *)
Definition recordedHeaders (c : CachedResponse) : gmap string ResHeaderValue :=
  list_to_map ((fun nv => (Js.toLowerCase nv.1, RString nv.2)) <$> map_to_list (headers c)).

Definition replayOf (c : CachedResponse) : Emission :=
  {| via := ViaSend; em_status := status c; em_headers := recordedHeaders c;
     em_body := body c |}.

Definition emissionOf (a : Action) : option Js.Value :=
  match a with
  | Send body | Json body => Some body
  | _ => None
  end.

(** No call of [send] or [json] among the actions. *)
Definition silent (acts : list Action) : Prop :=
  Forall (fun a => emissionOf a = None) acts.

(** The wrapper on a response no longer captures (or there is none). *)
Definition sealed (res : Response) : Prop :=
  match wrapper res with
  | Some w => stored w = true
  | None => True
  end.

End IdempotencySpec.

Module HttpClientSpec.
Import Errors HttpClient.

Definition retriesOf (options : HttpClientOptions) : Z :=
  Js.nullish (retries options) DEFAULT_RETRIES.
Definition retryDelayOf (options : HttpClientOptions) : Z :=
  Js.nullish (retryDelay options) DEFAULT_RETRY_DELAY.
Definition maxAttemptsOf (method : string) (options : HttpClientOptions) : Z :=
  if isRetryableMethod method then retriesOf options + 1 else 1.

(** What a call does when it makes [again] re-attempts from [attempt] on:
    a fetch, then before each re-attempt a sleep of [retryDelay] times the
    number of the attempt that failed. *)
Fixpoint backoff (retryDelay : Z) (attempt : Z) (again : nat) : list Event :=
  match again with
  | O => [Fetch attempt]
  | S again' =>
      Fetch attempt :: Sleep (retryDelay * attempt)
        :: backoff retryDelay (attempt + 1) again'
  end.

(** The dependency-failure error for a network exception. *)
Definition serviceUnavailable (url : string) (originalError : string) : Thrown :=
  ThrownAppError
    (mkAppError INTERNAL_ERROR "Service unavailable or timed out" 503
       (Some (Js.VObj [("url", Js.VStr url);
                       ("originalError", Js.VStr originalError)]))).

End HttpClientSpec.

Module Samples.
Import Errors Http.

(** Concrete inputs on which the statements below are exercised. *)
Definition at_ (ms : Z) : Clock := {| Date_now := ms; hrtime_bigint := 0 |}.

Definition client (address : string) : Request :=
  {| method := "GET"; ip := Some address; headers := ∅;
     header := fun _ => None |}.

Definition limiter (max window : Z) : RateLimit.RateLimitOptions :=
  {| RateLimit.windowMs := Some window; RateLimit.max := Some max;
     RateLimit.keyGenerator := None; RateLimit.message := None |}.

Definition failingGenerator : RateLimit.RateLimitOptions :=
  {| RateLimit.windowMs := None; RateLimit.max := Some 5;
     RateLimit.keyGenerator :=
       Some (fun _ => Throw (ThrownObject (newError "Key generation failed")));
     RateLimit.message := None |}.

Definition post (idempotencyKey : string) : Request :=
  {| method := "POST"; ip := None; headers := ∅;
     header := fun name =>
       if String.eqb name "Idempotency-Key" then Some idempotencyKey else None |}.

Definition defaultGuard : Idempotency.IdempotencyOptions :=
  {| Idempotency.ttlMs := None |}.

(** A handler that answers 201 with a JSON body, then emits once more. *)
Definition createHandler (_ : Request) : list Idempotency.Action :=
  [ Idempotency.SetStatus 201;
    Idempotency.SetHeader "Content-Type" (Idempotency.RString "application/json");
    Idempotency.Json (Js.VObj [("id", Js.VNum 1)]);
    Idempotency.SetStatus 500;
    Idempotency.Send (Js.VStr "again") ].

Definition otherHandler (_ : Request) : list Idempotency.Action :=
  [ Idempotency.Send (Js.VStr "executed twice") ].

(** A process five seconds after its start, long after the epoch. *)
Definition fiveSecondsUp : Clock :=
  {| Date_now := 1700000000000; hrtime_bigint := 5000000000 |}.

(** Both caches hold an entry whose expiry, an epoch time, has passed. *)
Definition staleCaches : CacheCleanup.Caches :=
  {| CacheCleanup.rateLimitStore :=
       {[ "10.0.0.1" := {| RateLimit.count := 3;
                           RateLimit.expiresAt := 1600000000000 |} ]};
     CacheCleanup.idempotencyCache :=
       {[ "abc" := {| Idempotency.status := 201;
                      Idempotency.headers := ∅;
                      Idempotency.body := Js.VNull;
                      Idempotency.expiresAt := 1600000000000 |} ]} |}.

Definition jsonResponse (ok : bool) (status : Z) (statusText : string)
    (payload : Js.Value) : HttpClient.FetchResponse :=
  {| HttpClient.ok := ok; HttpClient.r_status := status;
     HttpClient.statusText := statusText;
     HttpClient.r_headers := {[ "content-type" := "application/json" ]};
     HttpClient.r_json := Normal payload;
     HttpClient.r_text := Normal "" |}.

Definition unavailable : HttpClient.FetchResponse :=
  jsonResponse false 503 "Service Unavailable" (Js.VObj []).

Definition success : HttpClient.FetchResponse :=
  jsonResponse true 200 "OK" (Js.VObj [("success", Js.VBool true)]).

Definition notFound : HttpClient.FetchResponse :=
  jsonResponse false 404 "Not Found" (Js.VObj [("error", Js.VStr "Not found")]).

(** A dependency that answers 503 twice and then 200. *)
Definition flaky (n : Z) : HttpClient.FetchOutcome :=
  if n <=? 2 then HttpClient.Resolved unavailable else HttpClient.Resolved success.

Definition always (answer : HttpClient.FetchOutcome) (_ : Z) : HttpClient.FetchOutcome :=
  answer.

(** [Object.assign(new Error(msg), { code })] *)
Definition systemError (msg code : string) : ErrorObject :=
  {| e_name := Some "Error"; e_message := Some msg; e_code := Some code;
     e_status := None; e_data := None |}.

Definition twoRetries (delay : Z) : HttpClient.HttpClientOptions :=
  {| HttpClient.timeout := None; HttpClient.retries := Some 2;
     HttpClient.retryDelay := Some delay; HttpClient.body := None |}.

End Samples.

(* ===================================================================== *)
(** ** Further vocabulary: order of calls                                 *)
(* ===================================================================== *)

Module Timeline.
Import Http.

(** The calls come at instants that do not decrease, none before [from]. *)
Fixpoint inOrder (from : Z) (calls : list (Clock * Request)) : Prop :=
  match calls with
  | [] => True
  | call :: rest => from <= Date_now call.1 /\ inOrder (Date_now call.1) rest
  end.

End Timeline.

(* ===================================================================== *)
(** ** Users and the augmented request (types/user.ts, types/express.d.ts) *)
(* ===================================================================== *)

Module Types.

Record UserClaims := mkUserClaims {
  userId : string;
  tenantId : string;
  role : option string;
  roleId : option string;
  permissions : option (list string);
  email : option string;
}.

End Types.

Module Express.

(** An Express request with the properties [express.d.ts] declares on it. *)
Record Request := mkRequest {
  base : Http.Request;
  user : option Types.UserClaims;
  tenantId : option string;
  correlationId : option string;
}.

(** How a middleware hands over: [next()] or [next(err)]. *)
Inductive NextCall :=
| CallNext
| CallNextWith (err : Errors.Thrown).

End Express.

(* ===================================================================== *)
(** ** Permission checks (src/middlewares/permission.middleware.ts)       *)
(* ===================================================================== *)

(** Each middleware runs its checks in a [try] and passes what they throw
    to [next(err)]; what the handlers behind [next()] do is not part of
    it. *)

Module Permission.
Import Errors Express.

Definition ensureUser (req : Request) : Completion Types.UserClaims :=
  match user req with
  | None => Throw (ThrownAppError (mkAppError UNAUTHORIZED "Unauthorized" 401 None))
  | Some user => Normal user
  end.

(** [perms.includes(permission)] *)
Definition includes (perms : list string) (permission : string) : bool :=
  existsb (String.eqb permission) perms.

Definition requirePermission (permission : string) (req : Request) : NextCall :=
  match ensureUser req with
  | Throw err => CallNextWith err
  | Normal user =>
      let perms := Js.nullish (Types.permissions user) [] in
      if negb (includes perms permission) then
        CallNextWith (ThrownAppError (mkAppError FORBIDDEN "Forbidden" 403 None))
      else CallNext
  end.

Definition requireAnyPermission (permissions : list string) (req : Request) : NextCall :=
  if (length permissions =? 0)%nat then
    CallNextWith (ThrownAppError (mkAppError FORBIDDEN "Forbidden" 403 None))
  else
    match ensureUser req with
    | Throw err => CallNextWith err
    | Normal user =>
        let perms : gset string :=
          list_to_set (Js.nullish (Types.permissions user) []) in
        let hasPermission :=
          existsb (fun perm => bool_decide (perm ∈ perms)) permissions in
        if negb hasPermission then
          CallNextWith (ThrownAppError (mkAppError FORBIDDEN "Forbidden" 403 None))
        else CallNext
    end.

End Permission.

(* ===================================================================== *)
(** ** Error handler (src/middlewares/error.middleware.ts)                *)
(* ===================================================================== *)

(** The handler Express calls with what a middleware passed to
    [next(err)].  It answers on the response of the request, through
    [res.status(..).json(..)]; the line it writes to the console is left
    out. *)

Module ErrorHandler.
Import Errors Express.

(** [value] when it is defined, in an object literal. *)
Definition orUndefined (o : option Js.Value) : Js.Value :=
  match o with
  | Some v => v
  | None => Js.VUndefined
  end.

Definition errorHandler (err : Thrown) (req : Request)
    (res : Idempotency.Response)
    (cache : gmap string Idempotency.CachedResponse)
    : Idempotency.Response * gmap string Idempotency.CachedResponse :=
  let status :=
    match err with
    | ThrownAppError e => Errors.status e
    | ThrownObject e => Js.nullish (e_status e) 500
    end in
  let code :=
    match err with
    | ThrownAppError e => Errors.code e
    | ThrownObject _ => INTERNAL_ERROR
    end in
  let message :=
    match err with
    | ThrownAppError e =>
        match Js.truthy (Some (Errors.message e)) with
        | Some m => m
        | None =>
            if 500 <=? status then "Internal Server Error"
            else Js.nullish (Js.truthy (Some (Errors.message e))) "Bad Request"
        end
    | ThrownObject e =>
        if 500 <=? status then "Internal Server Error"
        else Js.nullish (Js.truthy (e_message e)) "Bad Request"
    end in
  let traceId := correlationId req in
  let details :=
    match err with
    | ThrownAppError e => Errors.details e
    | ThrownObject _ => None
    end in
  Idempotency.emit Idempotency.ViaJson
    (Js.VObj [("success", Js.VBool false);
              ("code", Js.VStr (HttpClient.errorCodeName code));
              ("message", Js.VStr message);
              ("traceId", orUndefined (Js.VStr <$> traceId));
              ("details", orUndefined details)])
    (Idempotency.res_status status res) cache.

End ErrorHandler.

(* ===================================================================== *)
(** ** The sweep timer (src/utils/cacheCleanup.ts)                        *)
(* ===================================================================== *)

(** [setInterval] and [clearInterval] act on the table of the intervals of
    the process: a handle is a number no interval had before.  The table
    says of each interval how often it fires and whether what it calls is
    [cleanupExpiredEntries]. *)

Module CleanupTimer.

Record Interval := mkInterval {
  every : Z;
  callsCleanup : bool;
}.

Inductive Level := Log | Warn.

Record Host := mkHost {
  cleanupIntervalHandle : option Z;
  intervals : gmap Z Interval;
  nextHandle : Z;
  console : list (Level * string);
}.

Definition startCacheCleanup (intervalMs : option Z) (h : Host) : Host :=
  let intervalMs := Js.nullish intervalMs (5 * 60 * 1000) in
  match cleanupIntervalHandle h with
  | Some _ =>
      {| cleanupIntervalHandle := cleanupIntervalHandle h;
         intervals := intervals h;
         nextHandle := nextHandle h;
         console := console h ++ [(Warn, "[CacheCleanup] Already running, skipping")] |}
  | None =>
      {| cleanupIntervalHandle := Some (nextHandle h);
         intervals := <[nextHandle h := {| every := intervalMs; callsCleanup := true |}]>
                        (intervals h);
         nextHandle := nextHandle h + 1;
         console := console h ++
           [(Log, ("[CacheCleanup] Started with interval "
                   ++ Js.numberToString intervalMs ++ "ms")%string)] |}
  end.

Definition stopCacheCleanup (h : Host) : Host :=
  match cleanupIntervalHandle h with
  | Some handle =>
      {| cleanupIntervalHandle := None;
         intervals := delete handle (intervals h);
         nextHandle := nextHandle h;
         console := console h ++ [(Log, "[CacheCleanup] Stopped")] |}
  | None => h
  end.

(** What the hosting code does with the timer. *)
Inductive Command :=
| Start (intervalMs : option Z)
| Stop.

Definition run (c : Command) (h : Host) : Host :=
  match c with
  | Start intervalMs => startCacheCleanup intervalMs h
  | Stop => stopCacheCleanup h
  end.

Definition runAll (cs : list Command) (h : Host) : Host :=
  foldl (fun h c => run c h) h cs.

(** The interval under [handle] calls the sweep. *)
Definition sweeps (h : Host) (handle : Z) : Prop :=
  exists interval, intervals h !! handle = Some interval
                   /\ callsCleanup interval = true.

(** A host in which this module has not started its timer, and whose next
    handle is above every handle in use. *)
Definition idle (h : Host) : Prop :=
  cleanupIntervalHandle h = None
  /\ (forall handle, ~ sweeps h handle)
  /\ (forall handle, is_Some (intervals h !! handle) -> handle < nextHandle h).

(** What every sequence of starts and stops keeps true. *)
Definition coherent (h0 h : Host) : Prop :=
  (forall handle, is_Some (intervals h !! handle) -> handle < nextHandle h)
  /\ (forall handle, sweeps h handle <-> cleanupIntervalHandle h = Some handle)
  /\ (forall handle interval,
        callsCleanup interval = false ->
        (intervals h !! handle = Some interval
         <-> intervals h0 !! handle = Some interval)).

End CleanupTimer.

(* ===================================================================== *)
(** ** The client API and the outbound headers (src/http/client.ts)       *)
(* ===================================================================== *)

Module HttpClientApi.
Import Errors HttpClient.

(** A property of an options object: missing, or there with a value that
    may be [undefined].  An object spread copies the properties that are
    there, [undefined] ones included. *)
Inductive Field (A : Type) :=
| Absent
| Given (v : option A).
Arguments Absent {A}.
Arguments Given {A} v.

Record OptionsObject := mkOptionsObject {
  o_timeout : Field Z;
  o_retries : Field Z;
  o_retryDelay : Field Z;
}.

Definition noOptions : OptionsObject :=
  {| o_timeout := Absent; o_retries := Absent; o_retryDelay := Absent |}.

(** Reading a property: [undefined] when it is missing. *)
Definition read {A} (f : Field A) : option A :=
  match f with
  | Absent => None
  | Given v => v
  end.

(** One property of [{ ...first, ...second }]. *)
Definition over {A} (first second : Field A) : Field A :=
  match second with
  | Absent => first
  | Given _ => second
  end.

(** [{ ...first, ...second }]; an [undefined] operand spreads nothing. *)
Definition spread (first : OptionsObject) (second : option OptionsObject) : OptionsObject :=
  match second with
  | None => first
  | Some second =>
      {| o_timeout := over (o_timeout first) (o_timeout second);
         o_retries := over (o_retries first) (o_retries second);
         o_retryDelay := over (o_retryDelay first) (o_retryDelay second) |}
  end.

(** The options [httpRequest] destructures, with the body it is given. *)
Definition withBody (o : OptionsObject) (body : option Js.Value) : HttpClientOptions :=
  {| timeout := read (o_timeout o); retries := read (o_retries o);
     retryDelay := read (o_retryDelay o); HttpClient.body := body |}.

Section Network.
Variable net : Z -> FetchOutcome.

(** [httpClient] *)
Definition get (url : string) (options : option OptionsObject) :=
  httpRequest net "GET" url (withBody (spread noOptions options) None).

Definition post (url : string) (body : option Js.Value) (options : option OptionsObject) :=
  httpRequest net "POST" url (withBody (spread noOptions options) body).

Definition put (url : string) (body : option Js.Value) (options : option OptionsObject) :=
  httpRequest net "PUT" url (withBody (spread noOptions options) body).

Definition patch (url : string) (body : option Js.Value) (options : option OptionsObject) :=
  httpRequest net "PATCH" url (withBody (spread noOptions options) body).

Definition delete (url : string) (options : option OptionsObject) :=
  httpRequest net "DELETE" url (withBody (spread noOptions options) None).

(** [createHttpClient(defaults)]: [baseUrl] and the other defaults. *)
Record Defaults := mkDefaults {
  baseUrl : option string;
  defaultOptions : OptionsObject;
}.

(** [baseUrl ? `${baseUrl}${path}` : path] *)
Definition urlOf (defaults : Defaults) (path : string) : string :=
  match Js.truthy (baseUrl defaults) with
  | Some baseUrl => (baseUrl ++ path)%string
  | None => path
  end.

Definition client_get (defaults : Defaults) (path : string)
    (options : option OptionsObject) :=
  httpRequest net "GET" (urlOf defaults path)
    (withBody (spread (defaultOptions defaults) options) None).

Definition client_post (defaults : Defaults) (path : string) (body : option Js.Value)
    (options : option OptionsObject) :=
  httpRequest net "POST" (urlOf defaults path)
    (withBody (spread (defaultOptions defaults) options) body).

Definition client_put (defaults : Defaults) (path : string) (body : option Js.Value)
    (options : option OptionsObject) :=
  httpRequest net "PUT" (urlOf defaults path)
    (withBody (spread (defaultOptions defaults) options) body).

Definition client_patch (defaults : Defaults) (path : string) (body : option Js.Value)
    (options : option OptionsObject) :=
  httpRequest net "PATCH" (urlOf defaults path)
    (withBody (spread (defaultOptions defaults) options) body).

Definition client_delete (defaults : Defaults) (path : string)
    (options : option OptionsObject) :=
  httpRequest net "DELETE" (urlOf defaults path)
    (withBody (spread (defaultOptions defaults) options) None).

End Network.

(** The time a call spends sleeping between attempts. *)
Fixpoint totalSleep (events : list Event) : Z :=
  match events with
  | [] => 0
  | Sleep ms :: rest => ms + totalSleep rest
  | Fetch _ :: rest => totalSleep rest
  end.

(** The dependency failure raised for a response of status 500 or more
    that is not retried. *)
Definition dependencyFailed (url : string) (response : FetchResponse) : Thrown :=
  ThrownAppError
    (mkAppError INTERNAL_ERROR
       ("Dependency service failed: " ++ statusText response)%string 503
       (Some (Js.VObj [("url", Js.VStr url);
                       ("status", Js.VNum (r_status response))]))).

(** What the client throws for an exception of the network layer that it
    does not retry. *)
Definition classified (url : string) (e : ErrorObject) : Thrown :=
  if strictEq (e_code e) "ECONNREFUSED" || strictEq (e_code e) "ENOTFOUND"
     || strictEq (e_name e) "AbortError"
  then HttpClientSpec.serviceUnavailable url (Js.nullish (e_message e) "Unknown error")
  else ThrownObject e.

(** A response the client takes as a failure of the server that is worth
    another attempt. *)
Definition retryableFailure (response : FetchResponse) : Prop :=
  ok response = false
  /\ (exists payload, readBody response = Normal payload)
  /\ 500 <= r_status response /\ r_status response <> 501.

End HttpClientApi.

Module OutboundHeaders.
Import Http.

(** A property of the headers object handed to [fetch]: a string, an array
    (when an inbound header was one), or [undefined] (the first element of
    an empty array). *)
Inductive Slot :=
| SlotStr (s : string)
| SlotArr (items : list string)
| SlotUndefined.

Definition slotOf (v : HeaderValue) : Slot :=
  match v with
  | HStr s => SlotStr s
  | HArr items => SlotArr items
  end.

(** Truthiness of a header value: the empty string is falsy, every array is
    truthy. *)
Definition truthyHeader (o : option HeaderValue) : option HeaderValue :=
  match o with
  | Some (HStr EmptyString) => None
  | other => other
  end.

(** Lines 59-76 of [httpRequest]: the headers of the outbound request. *)
Definition finalHeaders (headers : option (gmap string string))
    (req : option Express.Request)
    (propagateAuth propagateCorrelationId : option bool) : gmap string Slot :=
  let headers := Js.nullish headers ∅ in
  let propagateAuth := Js.nullish propagateAuth true in
  let propagateCorrelationId := Js.nullish propagateCorrelationId true in
  let finalHeaders : gmap string Slot :=
    (SlotStr <$> headers) ∪ {[ "Content-Type" := SlotStr "application/json" ]} in
  let finalHeaders :=
    match req with
    | Some req =>
        if propagateAuth then
          match truthyHeader (Http.headers (Express.base req) !! "authorization") with
          | Some authHeader => <["Authorization" := slotOf authHeader]> finalHeaders
          | None => finalHeaders
          end
        else finalHeaders
    | None => finalHeaders
    end in
  match req with
  | Some req =>
      if propagateCorrelationId then
        let correlationId :=
          match Js.truthy (Express.correlationId req) with
          | Some id => Some (HStr id)
          | None => Http.headers (Express.base req) !! "x-correlation-id"
          end in
        match truthyHeader correlationId with
        | Some (HArr items) =>
            <["X-Correlation-Id" := match items with
                                    | first :: _ => SlotStr first
                                    | [] => SlotUndefined
                                    end]> finalHeaders
        | Some (HStr id) => <["X-Correlation-Id" := SlotStr id]> finalHeaders
        | None => finalHeaders
        end
      else finalHeaders
  | None => finalHeaders
  end.

(** The two steps of [finalHeaders] after the object literal, to speak of
    them one at a time. *)
Definition withCredential (req : option Express.Request) (propagateAuth : bool)
    (start : gmap string Slot) : gmap string Slot :=
  match req with
  | Some req =>
      if propagateAuth then
        match truthyHeader (Http.headers (Express.base req) !! "authorization") with
        | Some authHeader => <["Authorization" := slotOf authHeader]> start
        | None => start
        end
      else start
  | None => start
  end.

Definition withCorrelation (req : option Express.Request) (propagateCorrelationId : bool)
    (start : gmap string Slot) : gmap string Slot :=
  match req with
  | Some req =>
      if propagateCorrelationId then
        match truthyHeader
                match Js.truthy (Express.correlationId req) with
                | Some id => Some (HStr id)
                | None => Http.headers (Express.base req) !! "x-correlation-id"
                end with
        | Some (HArr items) =>
            <["X-Correlation-Id" := match items with
                                    | first :: _ => SlotStr first
                                    | [] => SlotUndefined
                                    end]> start
        | Some (HStr id) => <["X-Correlation-Id" := SlotStr id]> start
        | None => start
        end
      else start
  | None => start
  end.

End OutboundHeaders.

Module MoreSamples.

Definition anonymous : Express.Request :=
  {| Express.base := Samples.client "10.0.0.1"; Express.user := None;
     Express.tenantId := None; Express.correlationId := Some "trace-1" |}.

Definition editor : Express.Request :=
  {| Express.base := Samples.client "10.0.0.1";
     Express.user :=
       Some {| Types.userId := "u1"; Types.tenantId := "t1";
               Types.role := None; Types.roleId := None;
               Types.permissions := Some ["posts:read"; "posts:write"];
               Types.email := None |};
     Express.tenantId := None; Express.correlationId := Some "trace-1" |}.

(** A process with two intervals of its own and no sweep timer. *)
Definition busyHost : CleanupTimer.Host :=
  {| CleanupTimer.cleanupIntervalHandle := None;
     CleanupTimer.intervals :=
       {[ 1 := {| CleanupTimer.every := 1000; CleanupTimer.callsCleanup := false |};
          2 := {| CleanupTimer.every := 250; CleanupTimer.callsCleanup := false |} ]};
     CleanupTimer.nextHandle := 3;
     CleanupTimer.console := [] |}.

(** An inbound request with a bearer credential and a correlation
    identifier of its own, besides the header. *)
Definition inbound : Express.Request :=
  {| Express.base :=
       {| Http.method := "GET"; Http.ip := None;
          Http.headers := {[ "authorization" := Http.HStr "Bearer inbound";
                             "x-correlation-id" := Http.HStr "from-header" ]};
          Http.header := fun _ => None |};
     Express.user := None; Express.tenantId := None;
     Express.correlationId := Some "from-context" |}.

(** What [response.json()] throws on a body that is not JSON. *)
Definition syntaxError : Errors.ErrorObject :=
  {| Errors.e_name := Some "SyntaxError";
     Errors.e_message := Some "Unexpected token < in JSON at position 0";
     Errors.e_code := None; Errors.e_status := None; Errors.e_data := None |}.

(** A 404 that announces JSON and carries a body that is not. *)
Definition garbledNotFound : HttpClient.FetchResponse :=
  {| HttpClient.ok := false; HttpClient.r_status := 404;
     HttpClient.statusText := "Not Found";
     HttpClient.r_headers := {[ "content-type" := "application/json" ]};
     HttpClient.r_json := Errors.Throw (Errors.ThrownObject syntaxError);
     HttpClient.r_text := Errors.Normal "<html>Not Found</html>" |}.

End MoreSamples.

(* ===================================================================== *)
(** ** The string helpers on concrete inputs                              *)
(* ===================================================================== *)

Module JsFacts.

Example trim_padded : Js.trim "  abc  " = "abc".
Proof. reflexivity. Qed.

Example trim_inner_space : Js.trim " a b " = "a b".
Proof. reflexivity. Qed.

Example trim_blank : Js.trim "   " = "".
Proof. reflexivity. Qed.

Example toUpperCase_get : Js.toUpperCase "get" = "GET".
Proof. reflexivity. Qed.

Example numberToString_404 : Js.numberToString 404 = "404".
Proof. reflexivity. Qed.

Example includes_json :
  HttpClient.includes "application/json" "application/json; charset=utf-8" = true.
Proof. reflexivity. Qed.

Example retryable_methods :
  map HttpClient.isRetryableMethod ["GET"; "head"; "OPTIONS"; "POST"; "DELETE"]
  = [true; true; true; false; false].
Proof. reflexivity. Qed.

Lemma trimStart_no_leading_space s c rest :
  Js.trimStart s = String c rest -> Js.isWhiteSpace c = false.
Proof.
  induction s as [|d s IH]; cbn [Js.trimStart]; [done|].
  destruct (Js.isWhiteSpace d) eqn:W; [exact IH|]. by intros [= <- _].
Qed.

End JsFacts.

(* ===================================================================== *)
(** ** Facts about the expiring stores                                    *)
(* ===================================================================== *)

Module ExpiringStoreFacts.
Import ExpiringStore.

Section Generic.
Context {A : Type} (expiry : A -> Z).

Lemma unexpired_idem now (o : option A) :
  unexpired expiry now (unexpired expiry now o) = unexpired expiry now o.
Proof.
  destruct o as [e|]; simpl; [|done].
  destruct (expiry e <=? now) eqn:E; simpl; [done|]. by rewrite E.
Qed.

Lemma dropIfExpired_lookup key now (m : gmap string A) k :
  dropIfExpired expiry key now m !! k
  = if decide (k = key) then unexpired expiry now (m !! k) else m !! k.
Proof.
  unfold dropIfExpired. case_decide as Hk.
  - subst k. destruct (m !! key) as [e|] eqn:E; simpl.
    + destruct (expiry e <=? now); [by rewrite lookup_delete_eq | done].
    + done.
  - destruct (m !! key) as [e|]; [|done].
    destruct (expiry e <=? now); [by rewrite lookup_delete_ne | done].
Qed.

Lemma dropKeys_cons now a ks (m : gmap string A) :
  dropKeys expiry now (a :: ks) m
  = dropKeys expiry now ks (dropIfExpired expiry a now m).
Proof. reflexivity. Qed.

(** Running the loop body over any list of keys, in any order and with any
    repetitions, removes the expired entries among those keys and nothing
    else. *)
Lemma dropKeys_lookup now ks (m : gmap string A) k :
  dropKeys expiry now ks m !! k
  = if decide (k ∈ ks) then unexpired expiry now (m !! k) else m !! k.
Proof.
  revert m. induction ks as [|a ks IH]; intros m.
  - done.
  - rewrite dropKeys_cons, IH, dropIfExpired_lookup.
    destruct (decide (k ∈ a :: ks)) as [Hin|Hnin];
      destruct (decide (k ∈ ks)) as [Hin'|Hnin'];
      destruct (decide (k = a)) as [->|Hne];
      rewrite ?unexpired_idem; try done.
    + exfalso. apply elem_of_cons in Hin. by destruct Hin.
    + exfalso. apply Hnin, elem_of_cons. by left.
    + exfalso. apply Hnin, elem_of_cons. by right.
    + exfalso. apply Hnin, elem_of_cons. by left.
Qed.

Lemma sweep_lookup now (m : gmap string A) k :
  sweep expiry now m !! k = unexpired expiry now (m !! k).
Proof.
  unfold sweep. rewrite dropKeys_lookup. case_decide as Hin; [done|].
  destruct (m !! k) as [e|] eqn:E; [|done].
  exfalso. apply Hin. apply list_elem_of_fmap. exists (k, e). split; [done|].
  by apply elem_of_map_to_list.
Qed.

Lemma sweep_idem now (m : gmap string A) :
  sweep expiry now (sweep expiry now m) = sweep expiry now m.
Proof.
  apply map_eq. intros k. by rewrite !sweep_lookup, unexpired_idem.
Qed.

Lemma sweep_unchanged now (m : gmap string A) :
  (forall k e, m !! k = Some e -> now < expiry e) -> sweep expiry now m = m.
Proof.
  intros H. apply map_eq. intros k. rewrite sweep_lookup.
  destruct (m !! k) as [e|] eqn:E; simpl; [|done].
  specialize (H k e E). destruct (Z.leb_spec (expiry e) now); [lia | done].
Qed.

End Generic.

End ExpiringStoreFacts.

(* ===================================================================== *)
(** ** Facts about the rate limiter                                       *)
(* ===================================================================== *)

Module RateLimitFacts.
Import Errors Http RateLimit RateLimitSpec ExpiringStore ExpiringStoreFacts.

Lemma cleanupIfExpired_eq key now (store : gmap string Entry) :
  cleanupIfExpired key now store = dropIfExpired expiresAt key now store.
Proof. reflexivity. Qed.

Lemma rateLimit_cleanup_eq_sweep now (store : gmap string Entry) :
  _cleanupRateLimitCache now store = sweep expiresAt now store.
Proof. reflexivity. Qed.

(** The middleware, by cases on what a reader at [Date.now()] sees under the
    generated key. *)
Lemma rateLimit_cases options clk req store key :
  generatedKey options req = Normal key ->
  rateLimit options clk req store =
  match unexpired expiresAt (Date_now clk) (store !! key) with
  | None =>
      (Next, <[key := {| count := 1;
                         expiresAt := Date_now clk + windowOf options |}]>
               (cleanupIfExpired key (Date_now clk) store))
  | Some entry =>
      if maxOf options <=? count entry then (denial options, store)
      else (Next, <[key := {| count := count entry + 1;
                              expiresAt := expiresAt entry |}]> store)
  end.
Proof.
  intros Hkey. unfold rateLimit. unfold generatedKey in Hkey. rewrite Hkey.
  cbv zeta. unfold cleanupIfExpired.
  destruct (store !! key) as [entry|] eqn:E; simpl.
  - destruct (expiresAt entry <=? Date_now clk) eqn:X.
    + by rewrite lookup_delete_eq.
    + by rewrite E.
  - by rewrite E.
Qed.

Lemma decisions_deny options n :
  decisions options 0 (S n) = denial options :: decisions options 0 n.
Proof. unfold decisions. by rewrite !Nat.min_0_r, !Nat.sub_0_r. Qed.

Lemma decisions_allow options a n :
  decisions options (S a) (S n) = Next :: decisions options a n.
Proof. reflexivity. Qed.

(** Inside an open window: an entry with count [c] that expires at [x], and
    calls that all come before [x].  The next [max - c] calls pass, the
    others are denied, and only the count of the entry moves. *)
Lemma open_window options key x calls : forall c store,
  store !! key = Some {| count := c; expiresAt := x |} ->
  callsWithin options key x calls ->
  runChecks options calls store =
  (decisions options (Z.to_nat (maxOf options - c)) (length calls),
   <[key := {| count := c + Z.of_nat (length calls `min` Z.to_nat (maxOf options - c));
               expiresAt := x |}]> store).
Proof.
  induction calls as [|[clk req] rest IH]; intros c store Hs Hw.
  - simpl. rewrite Z.add_0_r. by rewrite insert_id.
  - apply Forall_cons in Hw as [[Hkey Hnow] Hrest]. simpl in Hkey, Hnow.
    cbn [runChecks]. rewrite (rateLimit_cases _ _ _ _ _ Hkey), Hs.
    cbn [unexpired expiresAt count].
    rewrite (proj2 (Z.leb_gt x (Date_now clk))) by lia.
    cbn [count expiresAt length].
    destruct (Z.leb_spec (maxOf options) c) as [Hfull|Hroom].
    + rewrite (IH c store Hs Hrest).
      replace (Z.to_nat (maxOf options - c)) with 0%nat by lia.
      rewrite decisions_deny. by rewrite !Nat.min_0_r.
    + rewrite (IH (c + 1) (<[key := {| count := c + 1; expiresAt := x |}]> store));
        [|by rewrite lookup_insert_eq|done].
      replace (Z.to_nat (maxOf options - c))
        with (S (Z.to_nat (maxOf options - (c + 1)))) by lia.
      rewrite decisions_allow, insert_insert_eq. do 3 f_equal.
      rewrite <- Nat.succ_min_distr. lia.
Qed.

(** A window from its first check on: the key has no unexpired entry when
    the first check comes, and the other checks come before the window
    ends. *)
Lemma fresh_window options key clk0 req0 rest store :
  generatedKey options req0 = Normal key ->
  unexpired expiresAt (Date_now clk0) (store !! key) = None ->
  callsWithin options key (Date_now clk0 + windowOf options) rest ->
  runChecks options ((clk0, req0) :: rest) store =
  (decisions options (Z.to_nat (Z.max 1 (maxOf options))) (S (length rest)),
   <[key := {| count := 1 + Z.of_nat (length rest `min` Z.to_nat (maxOf options - 1));
               expiresAt := Date_now clk0 + windowOf options |}]>
     (cleanupIfExpired key (Date_now clk0) store)).
Proof.
  intros Hkey Hfresh Hw. cbn [runChecks].
  rewrite (rateLimit_cases _ _ _ _ _ Hkey), Hfresh.
  rewrite (open_window options key _ rest 1 _ (lookup_insert_eq _ _ _) Hw).
  rewrite insert_insert_eq.
  replace (Z.to_nat (Z.max 1 (maxOf options)))
    with (S (Z.to_nat (maxOf options - 1))) by lia.
  by rewrite decisions_allow.
Qed.

(** Once the window is over, the next check finds no entry and passes. *)
Lemma after_window options key clk req store entry :
  generatedKey options req = Normal key ->
  store !! key = Some entry ->
  expiresAt entry <= Date_now clk ->
  rateLimit options clk req store =
  (Next, <[key := {| count := 1;
                     expiresAt := Date_now clk + windowOf options |}]> store).
Proof.
  intros Hkey Hs Hx. rewrite (rateLimit_cases _ _ _ _ _ Hkey), Hs.
  cbn [unexpired]. rewrite (proj2 (Z.leb_le _ _) Hx).
  rewrite cleanupIfExpired_eq. unfold dropIfExpired.
  rewrite Hs, (proj2 (Z.leb_le _ _) Hx).
  by rewrite insert_delete_eq.
Qed.

(** X2.  A check for one key leaves the entries of all other keys alone, and its
    decision depends on the entry of its own key only ([rateLimit_cases]). *)
Lemma check_frames_other_keys options clk req (store : gmap string Entry) key other :
  generatedKey options req = Normal key ->
  other <> key ->
  (rateLimit options clk req store).2 !! other = store !! other.
Proof.
  intros Hkey Hne. rewrite (rateLimit_cases _ _ _ _ _ Hkey).
  destruct (unexpired expiresAt (Date_now clk) (store !! key)) as [entry|].
  - destruct (maxOf options <=? count entry); cbn [snd]; [done|].
    by rewrite lookup_insert_ne.
  - cbn [snd]. rewrite lookup_insert_ne by done.
    rewrite cleanupIfExpired_eq, dropIfExpired_lookup. by rewrite decide_False.
Qed.

(** C4.  With [max = N >= 1] and [windowMs = W > 0], for every key: of the
    checks of one window (the first finds no unexpired entry for the key, the
    others come before [W] has elapsed since the first) exactly the first [N]
    are allowed and every later one, check [N+1] in particular, is denied with
    the FORBIDDEN error of status 429 that carries the configured message; a
    check made once [W] has elapsed since the first is allowed again and
    opens a new window. *)
Theorem fixed_window_first_N_allowed
    options N W key clk0 req0 rest (store : gmap string Entry) :
  maxOf options = N -> 1 <= N ->
  windowOf options = W -> 0 < W ->
  generatedKey options req0 = Normal key ->
  unexpired expiresAt (Date_now clk0) (store !! key) = None ->
  callsWithin options key (Date_now clk0 + W) rest ->
  (runChecks options ((clk0, req0) :: rest) store).1
  = (replicate (S (length rest) `min` Z.to_nat N) Next
     ++ replicate (S (length rest) - Z.to_nat N)
          (NextError (mkAppError FORBIDDEN (messageOf options) 429 None)))%list
  /\ forall clk req,
       generatedKey options req = Normal key ->
       Date_now clk0 + W <= Date_now clk ->
       let after := rateLimit options clk req
                      (runChecks options ((clk0, req0) :: rest) store).2 in
       after.1 = Next
       /\ after.2 !! key
          = Some {| count := 1; expiresAt := Date_now clk + W |}.
Proof.
  intros HN HN1 HW HW0 Hkey Hfresh Hw. subst W.
  rewrite (fresh_window _ _ _ _ _ _ Hkey Hfresh Hw). cbn [fst snd]. split.
  - rewrite HN. by replace (Z.max 1 N) with N by lia.
  - intros clk req Hkey' Hlate. cbv zeta.
    erewrite after_window; [| exact Hkey' | apply lookup_insert_eq | simpl; lia].
    cbn [fst snd]. split; [done | by rewrite lookup_insert_eq].
Qed.

Lemma fixed_window_first_N_allowed_witness :
  (runChecks (Samples.limiter 2 100)
     [(Samples.at_ 1000, Samples.client "10.0.0.1");
      (Samples.at_ 1010, Samples.client "10.0.0.1");
      (Samples.at_ 1099, Samples.client "10.0.0.1")] ∅).1
  = [Next; Next; NextError (mkAppError FORBIDDEN "Too many requests" 429 None)].
Proof.
  apply (fixed_window_first_N_allowed (Samples.limiter 2 100) 2 100 "10.0.0.1"
           (Samples.at_ 1000) (Samples.client "10.0.0.1")
           [(Samples.at_ 1010, Samples.client "10.0.0.1");
            (Samples.at_ 1099, Samples.client "10.0.0.1")] ∅).
  - reflexivity.
  - lia.
  - reflexivity.
  - lia.
  - reflexivity.
  - reflexivity.
  - repeat constructor; simpl; lia.
Defined.

(** C10.  A check that finds an unexpired entry for its key whose count has
    reached [max] is denied and leaves the store as it was: the count is not
    incremented and the expiry is not moved. *)
Theorem denied_check_leaves_store_unchanged
    options clk req (store : gmap string Entry) key entry :
  generatedKey options req = Normal key ->
  store !! key = Some entry ->
  Date_now clk < expiresAt entry ->
  maxOf options <= count entry ->
  rateLimit options clk req store
  = (NextError (mkAppError FORBIDDEN (messageOf options) 429 None), store).
Proof.
  intros Hkey Hs Hlive Hfull. rewrite (rateLimit_cases _ _ _ _ _ Hkey), Hs.
  cbn [unexpired]. rewrite (proj2 (Z.leb_gt _ _)) by lia.
  by rewrite (proj2 (Z.leb_le _ _) Hfull).
Qed.

Lemma denied_check_leaves_store_unchanged_witness :
  rateLimit (Samples.limiter 3 60000) (Samples.at_ 2000) (Samples.client "10.0.0.1")
    {[ "10.0.0.1" := {| count := 3; expiresAt := 61000 |} ]}
  = (NextError (mkAppError FORBIDDEN "Too many requests" 429 None),
     {[ "10.0.0.1" := {| count := 3; expiresAt := 61000 |} ]}).
Proof.
  apply (denied_check_leaves_store_unchanged (Samples.limiter 3 60000)
           (Samples.at_ 2000) (Samples.client "10.0.0.1")
           {[ "10.0.0.1" := {| count := 3; expiresAt := 61000 |} ]}
           "10.0.0.1" {| count := 3; expiresAt := 61000 |}).
  - reflexivity.
  - reflexivity.
  - vm_compute; reflexivity.
  - vm_compute; discriminate.
Defined.

(** Conversely, whenever the limiter denies, the store is the one it was
    given. *)
Lemma denial_never_writes options clk req (store : gmap string Entry) e store' :
  rateLimit options clk req store = (NextError e, store') -> store' = store.
Proof.
  destruct (generatedKey options req) as [key|thrown] eqn:Hkey.
  - rewrite (rateLimit_cases _ _ _ _ _ Hkey).
    destruct (unexpired expiresAt (Date_now clk) (store !! key)) as [entry|].
    + destruct (maxOf options <=? count entry); congruence.
    + congruence.
  - unfold rateLimit. unfold generatedKey in Hkey. rewrite Hkey. congruence.
Qed.

(** C8.  When the key generator throws, the middleware throws the same value
    (it reaches neither [next()] nor [next(err)]) and the store is the one it
    was given. *)
Theorem keyGenerator_exception_propagates
    options clk req (store : gmap string Entry) e :
  generatedKey options req = Throw e ->
  rateLimit options clk req store = (Thrown e, store).
Proof.
  intros Hkey. unfold rateLimit. unfold generatedKey in Hkey. by rewrite Hkey.
Qed.

Lemma keyGenerator_exception_propagates_witness :
  rateLimit Samples.failingGenerator (Samples.at_ 1000) (Samples.client "10.0.0.1")
    {[ "10.0.0.1" := {| count := 1; expiresAt := 61000 |} ]}
  = (Thrown (ThrownObject (newError "Key generation failed")),
     {[ "10.0.0.1" := {| count := 1; expiresAt := 61000 |} ]}).
Proof.
  apply (keyGenerator_exception_propagates Samples.failingGenerator).
  reflexivity.
Defined.

(** C1, as the specification states it, fails: with [max = 0] the first
    check of a key is allowed. *)
Lemma first_check_with_max_zero_is_allowed :
  maxOf (Samples.limiter 0 60000) <= 0
  /\ rateLimit (Samples.limiter 0 60000) (Samples.at_ 1000)
       (Samples.client "10.0.0.1") ∅
     = (Next, {[ "10.0.0.1" := {| count := 1; expiresAt := 61000 |} ]})
  /\ forall e, (rateLimit (Samples.limiter 0 60000) (Samples.at_ 1000)
                  (Samples.client "10.0.0.1") ∅).1 <> NextError e.
Proof.
  split; [by vm_compute|]. split; [reflexivity|]. intros e. by vm_compute.
Qed.

(** C1, amended.  With [max <= 0], of the checks of one window the first is
    allowed (it creates the entry with count 1) and every later one is
    denied: one request passes per window and key. *)
Theorem nonpositive_max_allows_first_check_only
    options key clk0 req0 rest (store : gmap string Entry) :
  maxOf options <= 0 ->
  generatedKey options req0 = Normal key ->
  unexpired expiresAt (Date_now clk0) (store !! key) = None ->
  callsWithin options key (Date_now clk0 + windowOf options) rest ->
  runChecks options ((clk0, req0) :: rest) store
  = (Next :: replicate (length rest)
               (NextError (mkAppError FORBIDDEN (messageOf options) 429 None)),
     <[key := {| count := 1; expiresAt := Date_now clk0 + windowOf options |}]>
       (cleanupIfExpired key (Date_now clk0) store)).
Proof.
  intros Hmax Hkey Hfresh Hw.
  rewrite (fresh_window _ _ _ _ _ _ Hkey Hfresh Hw).
  replace (Z.to_nat (Z.max 1 (maxOf options))) with 1%nat by lia.
  replace (Z.to_nat (maxOf options - 1)) with 0%nat by lia.
  rewrite decisions_allow. unfold decisions.
  by rewrite !Nat.min_0_r, Nat.sub_0_r, Z.add_0_r.
Qed.

Lemma nonpositive_max_allows_first_check_only_witness :
  runChecks (Samples.limiter 0 60000)
    [(Samples.at_ 1000, Samples.client "10.0.0.1");
     (Samples.at_ 1001, Samples.client "10.0.0.1")] ∅
  = ([Next; NextError (mkAppError FORBIDDEN "Too many requests" 429 None)],
     {[ "10.0.0.1" := {| count := 1; expiresAt := 61000 |} ]}).
Proof.
  assert (Hmax : maxOf (Samples.limiter 0 60000) <= 0)
    by (vm_compute; discriminate).
  assert (Hw : callsWithin (Samples.limiter 0 60000) "10.0.0.1"
                 (Date_now (Samples.at_ 1000) + windowOf (Samples.limiter 0 60000))
                 [(Samples.at_ 1001, Samples.client "10.0.0.1")])
    by (repeat constructor; vm_compute; reflexivity).
  exact (nonpositive_max_allows_first_check_only (Samples.limiter 0 60000)
           "10.0.0.1" (Samples.at_ 1000) (Samples.client "10.0.0.1")
           [(Samples.at_ 1001, Samples.client "10.0.0.1")] ∅
           Hmax eq_refl eq_refl Hw).
Defined.

End RateLimitFacts.

(* ===================================================================== *)
(** ** Facts about the idempotency guard                                  *)
(* ===================================================================== *)

Module IdempotencyFacts.
Import Errors Http Idempotency IdempotencySpec ExpiringStore ExpiringStoreFacts.

Lemma cleanIfExpired_eq key now (cache : gmap string CachedResponse) :
  cleanIfExpired key now cache = dropIfExpired expiresAt key now cache.
Proof. reflexivity. Qed.

Lemma idempotency_cleanup_eq_sweep now (cache : gmap string CachedResponse) :
  _cleanupIdempotencyCache now cache = sweep expiresAt now cache.
Proof. reflexivity. Qed.

Lemma runActions_app pre post res (cache : gmap string CachedResponse) :
  runActions (pre ++ post) res cache
  = runActions post (runActions pre res cache).1 (runActions pre res cache).2.
Proof.
  revert res cache. induction pre as [|a pre IH]; intros res cache; [done|].
  cbn [app runActions]. destruct (step a res cache) as [res' cache']. apply IH.
Qed.

(** Setting the status or a header touches neither the wrapper nor the
    cache. *)
Lemma step_silent a res (cache : gmap string CachedResponse) :
  emissionOf a = None ->
  wrapper (step a res cache).1 = wrapper res /\ (step a res cache).2 = cache.
Proof. destruct a; simpl; intros H; by try discriminate H. Qed.

Lemma runActions_silent acts : forall res (cache : gmap string CachedResponse),
  silent acts ->
  wrapper (runActions acts res cache).1 = wrapper res
  /\ (runActions acts res cache).2 = cache.
Proof.
  induction acts as [|a acts IH]; intros res cache Hs; [done|].
  apply Forall_cons in Hs as [Ha Hs]. cbn [runActions].
  destruct (step_silent a res cache Ha) as [Hw Hc].
  destruct (step a res cache) as [res' cache']. simpl in Hw, Hc. subst cache'.
  destruct (IH res' cache Hs) as [Hw' Hc']. by rewrite Hw', Hw.
Qed.

(** Capture-once: a response whose wrapper has stored (or that has no
    wrapper) never writes to the cache again. *)
Lemma step_sealed a res (cache : gmap string CachedResponse) :
  sealed res -> sealed (step a res cache).1 /\ (step a res cache).2 = cache.
Proof.
  unfold sealed. intros Hs.
  destruct a as [code|name v|body|body]; cbn [step]; [done|done| |].
  all: unfold emit; destruct (wrapper res) as [w|] eqn:W.
  all: try rewrite Hs.
  all: cbn [fst snd original wrapper]; by rewrite ?W.
Qed.

Lemma runActions_sealed acts : forall res (cache : gmap string CachedResponse),
  sealed res ->
  sealed (runActions acts res cache).1 /\ (runActions acts res cache).2 = cache.
Proof.
  induction acts as [|a acts IH]; intros res cache Hs; [done|].
  cbn [runActions]. destruct (step_sealed a res cache Hs) as [Hs' Hc].
  destruct (step a res cache) as [res' cache']. simpl in Hs', Hc. subst cache'.
  by apply IH.
Qed.

(** The first emission on a wrapped response captures: it writes the record
    of that moment under the key of the request, and seals the wrapper. *)
Lemma step_captures a body res (cache : gmap string CachedResponse) w :
  emissionOf a = Some body ->
  wrapper res = Some w -> stored w = false ->
  sealed (step a res cache).1
  /\ (step a res cache).2
     = <[w_key w := recordOf (w_now w) (w_ttlMs w) res body]> cache.
Proof.
  intros Ha W S. destruct a; simplify_eq/=; unfold emit; rewrite W, S; done.
Qed.

(** [res.set(obj)] on a response: the headers of the object, under
    lower-cased names, on top of the ones the response has. *)
Lemma res_set_fold (l : list (string * string)) res :
  let res' := foldr (fun '(name, v) r => setHeader name (RString v) r) res l in
  statusCode res' = statusCode res
  /\ emitted res' = emitted res
  /\ wrapper res' = wrapper res
  /\ resHeaders res'
     = foldr (fun nv m => <[Js.toLowerCase nv.1 := RString nv.2]> m)
         (resHeaders res) l.
Proof.
  induction l as [|[name v] l IH]; [done|]. cbn [foldr].
  destruct IH as (H1 & H2 & H3 & H4). cbn. by rewrite H4.
Qed.

Lemma replay_on_fresh (c : CachedResponse) :
  original ViaSend (body c) (res_set (headers c) (res_status (status c) freshResponse))
  = {| statusCode := status c; resHeaders := recordedHeaders c;
       emitted := [replayOf c]; wrapper := None |}.
Proof.
  unfold res_set.
  destruct (res_set_fold (map_to_list (headers c)) (res_status (status c) freshResponse))
    as (H1 & H2 & H3 & H4).
  unfold original. rewrite H1, H2, H3, H4. cbn.
  assert (E : foldr (fun nv m => <[Js.toLowerCase nv.1 := RString nv.2]> m)
                (∅ : gmap string ResHeaderValue) (map_to_list (headers c))
              = recordedHeaders c).
  { unfold recordedHeaders, list_to_map. by rewrite foldr_fmap. }
  unfold replayOf. by rewrite E.
Qed.

(** The middleware on a request it has a key for, by cases on what a reader
    at [Date.now()] sees under that key. *)
Lemma middleware_cases options clk req res (cache : gmap string CachedResponse) key :
  requestKey req = Some key ->
  idempotencyMiddleware options clk req res cache =
  match unexpired expiresAt (Date_now clk) (cache !! key) with
  | Some cached =>
      (Responded,
       (emit ViaSend (body cached)
          (res_set (headers cached) (res_status (status cached) res)) cache).1,
       (emit ViaSend (body cached)
          (res_set (headers cached) (res_status (status cached) res)) cache).2)
  | None =>
      (Next, install key (Date_now clk) (ttlOf options) res,
       cleanIfExpired key (Date_now clk) cache)
  end.
Proof.
  unfold requestKey, idempotencyMiddleware. intros Hkey.
  destruct (String.eqb (method req) "POST"); [|done]. cbn [negb].
  rewrite Hkey. cbv zeta. unfold cleanIfExpired.
  destruct (cache !! key) as [cached|] eqn:E; cbn [unexpired].
  - destruct (expiresAt cached <=? Date_now clk) eqn:X.
    + by rewrite lookup_delete_eq.
    + rewrite E. by destruct (emit _ _ _ _).
  - by rewrite E.
Qed.

Lemma middleware_without_key options clk req res (cache : gmap string CachedResponse) :
  requestKey req = None ->
  idempotencyMiddleware options clk req res cache = (Next, res, cache).
Proof.
  unfold requestKey, idempotencyMiddleware. intros Hkey.
  destruct (String.eqb (method req) "POST"); [|done]. cbn [negb].
  by rewrite Hkey.
Qed.

(** A duplicate: the key has an unexpired record.  The handler is not run,
    the response is the record, the cache is the one it was. *)
Lemma serve_replays options clk req handler (cache : gmap string CachedResponse) key c :
  requestKey req = Some key ->
  cache !! key = Some c ->
  Date_now clk < expiresAt c ->
  serve options clk req handler cache
  = {| handlerRan := false;
       response := {| statusCode := status c; resHeaders := recordedHeaders c;
                      emitted := [replayOf c]; wrapper := None |};
       cacheAfter := cache |}.
Proof.
  intros Hkey Hc Hlive. unfold serve.
  rewrite (middleware_cases _ _ _ _ _ _ Hkey), Hc. cbn [unexpired].
  rewrite (proj2 (Z.leb_gt _ _)) by lia.
  unfold emit at 1 2.
  destruct (res_set_fold (map_to_list (headers c)) (res_status (status c) freshResponse))
    as (_ & _ & H3 & _).
  unfold res_set. cbv zeta in H3. rewrite H3. cbn [res_status wrapper freshResponse fst snd].
  fold (res_set (headers c) (res_status (status c) freshResponse)).
  by rewrite replay_on_fresh.
Qed.

(** A first request: no unexpired record under its key.  The handler runs
    on the wrapped response. *)
Lemma serve_first options clk req handler (cache : gmap string CachedResponse) key :
  requestKey req = Some key ->
  unexpired expiresAt (Date_now clk) (cache !! key) = None ->
  serve options clk req handler cache
  = let run := runActions (handler req)
                 (wrapped key (Date_now clk) (ttlOf options))
                 (cleanIfExpired key (Date_now clk) cache) in
    {| handlerRan := true; response := run.1; cacheAfter := run.2 |}.
Proof.
  intros Hkey Hnone. unfold serve.
  rewrite (middleware_cases _ _ _ _ _ _ Hkey), Hnone.
  fold (wrapped key (Date_now clk) (ttlOf options)).
  by destruct (runActions _ _ _).
Qed.

(** What a handler that emits leaves in the cache: the record of its first
    emission, whatever it does afterwards. *)
Lemma handler_captures_once pre a post body key now ttl
    (cache : gmap string CachedResponse) :
  silent pre -> emissionOf a = Some body ->
  (runActions (pre ++ a :: post) (wrapped key now ttl) cache).2
  = <[key := recordOf now ttl (runActions pre (wrapped key now ttl) cache).1 body]> cache.
Proof.
  intros Hpre Ha.
  rewrite runActions_app. cbn [runActions].
  destruct (runActions_silent pre (wrapped key now ttl) cache Hpre) as [Hw Hc].
  rewrite Hc.
  destruct (step_captures a body (runActions pre (wrapped key now ttl) cache).1
              cache _ Ha Hw eq_refl) as [Hsealed Hcache].
  destruct (step a _ cache) as [res' cache']. simpl in Hsealed, Hcache.
  destruct (runActions_sealed post res' cache' Hsealed) as [_ Hpost].
  by rewrite Hpost, Hcache.
Qed.

(** A handler only writes under the key of its own request. *)
Lemma runActions_other_keys acts k : forall res (cache : gmap string CachedResponse),
  (forall w, wrapper res = Some w -> w_key w <> k) ->
  (runActions acts res cache).2 !! k = cache !! k.
Proof.
  induction acts as [|a acts IH]; intros res cache Hk; [done|].
  cbn [runActions].
  assert (H : (forall w, wrapper (step a res cache).1 = Some w -> w_key w <> k)
              /\ (step a res cache).2 !! k = cache !! k).
  { destruct a as [code|name v|body|body]; cbn [step]; [done|done| |].
    all: unfold emit; destruct (wrapper res) as [w|] eqn:W.
    all: try destruct (stored w) eqn:S.
    all: cbn [fst snd original wrapper markStored]; rewrite ?W.
    all: try (split; [exact Hk|done]).
    all: split; [intros w' Hw'; injection Hw' as <-; cbn [w_key]; by apply Hk|].
    all: unfold captureAndStore; rewrite lookup_insert_ne; [done|by apply Hk]. }
  destruct H as [Hk' Hc]. destruct (step a res cache) as [res' cache'].
  simpl in Hk', Hc. rewrite <- Hc. by apply IH.
Qed.

(** Until it expires, a record is not changed by any request that is served
    from start to end, whatever its method, key and handler. *)
Lemma serve_preserves_live_record options clk req handler
    (cache : gmap string CachedResponse) key c :
  cache !! key = Some c ->
  Date_now clk < expiresAt c ->
  cacheAfter (serve options clk req handler cache) !! key = Some c.
Proof.
  intros Hc Hlive.
  destruct (requestKey req) as [key'|] eqn:Hkey.
  - destruct (unexpired expiresAt (Date_now clk) (cache !! key')) as [c'|] eqn:U.
    + destruct (cache !! key') as [c''|] eqn:Hc'; [|done]. cbn [unexpired] in U.
      destruct (Z.leb_spec (expiresAt c'') (Date_now clk)); [done|].
      by rewrite (serve_replays _ _ _ _ _ _ _ Hkey Hc').
    + rewrite (serve_first _ _ _ _ _ _ Hkey U). cbv zeta. cbn [cacheAfter].
      assert (key' <> key) as Hne.
      { intros ->. rewrite Hc in U. cbn [unexpired] in U.
        rewrite (proj2 (Z.leb_gt _ _)) in U by lia. done. }
      rewrite runActions_other_keys; [|by intros w [= <-]].
      rewrite cleanIfExpired_eq, dropIfExpired_lookup.
      by rewrite decide_False.
  - unfold serve. rewrite (middleware_without_key _ _ _ _ _ Hkey).
    destruct (runActions_sealed (handler req) freshResponse cache I) as [_ H].
    destruct (runActions _ _ _) as [res' cache']. simpl in H. by subst cache'.
Qed.

(** Every record a handler leaves under the key of its request carries the
    expiry fixed when the request arrived. *)
Lemma handler_stamps_epoch_expiry acts key now ttl
    (cache : gmap string CachedResponse) cached :
  cache !! key = None ->
  (runActions acts (wrapped key now ttl) cache).2 !! key = Some cached ->
  expiresAt cached = now + ttl.
Proof.
  intros Hnone.
  assert (G : forall acts res (cache : gmap string CachedResponse),
             (forall w, wrapper res = Some w ->
                        w_key w = key /\ w_now w = now /\ w_ttlMs w = ttl) ->
             (forall c, cache !! key = Some c -> expiresAt c = now + ttl) ->
             forall c, (runActions acts res cache).2 !! key = Some c ->
                       expiresAt c = now + ttl).
  { clear. induction acts as [|a acts IH]; intros res cache Hw Hc c; [by apply Hc|].
    cbn [runActions].
    assert (H : (forall w, wrapper (step a res cache).1 = Some w ->
                           w_key w = key /\ w_now w = now /\ w_ttlMs w = ttl)
                /\ (forall c, (step a res cache).2 !! key = Some c ->
                              expiresAt c = now + ttl)).
    { destruct a as [code|name v|body|body]; cbn [step]; [done|done| |].
      all: unfold emit; destruct (wrapper res) as [w|] eqn:W.
      all: try destruct (stored w) eqn:S.
      all: cbn [fst snd original wrapper markStored]; rewrite ?W.
      all: try (split; [exact Hw|exact Hc]).
      all: destruct (Hw w eq_refl) as (Hk & Hn & Ht).
      all: split; [intros w' Hw'; injection Hw' as <-; done|].
      all: intros c'; unfold captureAndStore; rewrite Hk, lookup_insert_eq.
      all: intros [= <-]; cbn; by rewrite Hn, Ht. }
    destruct H as [Hw' Hc']. destruct (step a res cache) as [res' cache'].
    by apply IH. }
  apply G; [|intros c; by rewrite Hnone].
  intros w [= <-]. done.
Qed.

Lemma requestKey_trimmed req h :
  method req = "POST" ->
  header req "Idempotency-Key" = Some h ->
  Js.trim h <> "" ->
  requestKey req = Some (Js.trim h).
Proof.
  intros Hm Hh Hne. unfold requestKey. rewrite Hm, Hh. cbn.
  by destruct (Js.trim h).
Qed.

(** What has been sent stays sent. *)
Lemma runActions_emitted acts : forall res (cache : gmap string CachedResponse),
  exists more, emitted (runActions acts res cache).1 = (emitted res ++ more)%list.
Proof.
  induction acts as [|a acts IH]; intros res cache.
  - exists []. cbn. by rewrite app_nil_r.
  - cbn [runActions].
    assert (H : exists more, emitted (step a res cache).1 = (emitted res ++ more)%list).
    { destruct a as [code|name v|body|body]; cbn [step];
        [exists []; cbn; by rewrite app_nil_r
        |exists []; cbn; by rewrite app_nil_r | |].
      all: unfold emit; destruct (wrapper res) as [w|]; [destruct (stored w)|].
      all: eexists; reflexivity. }
    destruct H as [m1 H1]. destruct (step a res cache) as [res' cache'].
    simpl in H1. destruct (IH res' cache') as [m2 H2].
    exists (m1 ++ m2)%list. by rewrite H2, H1, app_assoc.
Qed.

Lemma runActions_silent_state acts : forall res (cache : gmap string CachedResponse),
  silent acts -> emitted (runActions acts res cache).1 = emitted res.
Proof.
  induction acts as [|a acts IH]; intros res cache Hs; [done|].
  apply Forall_cons in Hs as [Ha Hs]. cbn [runActions].
  assert (H : emitted (step a res cache).1 = emitted res).
  { destruct a; simpl in Ha; try discriminate Ha; done. }
  destruct (step a res cache) as [res' cache']. simpl in H.
  by rewrite IH, H.
Qed.

(** The first thing a first request sends to its client has the status and
    the body of the record it leaves. *)
Lemma first_emission_is_recorded pre a post body key now ttl
    (cache : gmap string CachedResponse) :
  silent pre -> emissionOf a = Some body ->
  exists e rest,
    emitted (runActions (pre ++ a :: post) (wrapped key now ttl) cache).1 = e :: rest
    /\ em_status e = statusCode (runActions pre (wrapped key now ttl) cache).1
    /\ em_body e = body.
Proof.
  intros Hpre Ha. rewrite runActions_app. cbn [runActions].
  pose proof (runActions_silent_state pre (wrapped key now ttl) cache Hpre) as He.
  set (resPre := (runActions pre (wrapped key now ttl) cache).1) in *.
  set (cachePre := (runActions pre (wrapped key now ttl) cache).2).
  assert (H : exists kind, emitted (step a resPre cachePre).1
              = [ {| via := kind; em_status := statusCode resPre;
                     em_headers := resHeaders resPre; em_body := body |} ]).
  { destruct a as [code|name v|b|b]; simpl in Ha; try discriminate Ha;
      injection Ha as ->; cbn [step]; unfold emit.
    all: destruct (wrapper resPre) as [w|]; [destruct (stored w)|].
    all: cbn [fst original markStored emitted]; rewrite He; eexists; reflexivity. }
  destruct H as [kind H]. destruct (step a resPre cachePre) as [res' cache'].
  simpl in H. destruct (runActions_emitted post res' cache') as [more Hm].
  rewrite Hm, H. eexists _, more. done.
Qed.

(** C2.  Two POST requests whose [Idempotency-Key] headers are equal after
    trimming, and not empty.  The first finds no unexpired record under the
    key and its handler emits (after [pre], which does not emit, by the
    action [a] with body [body], then does [post]).  Then:
    - the cache holds, under the trimmed key, the record of the first
      emission: the status and content type of that moment, the body, and
      the expiry [Date.now() + ttlMs] of the first request; what the handler
      does after its first emission ([post]) does not capture again;
    - the first thing the first request sent has that status and body;
    - until that expiry no request served from start to end changes the
      record, whatever its method, key, handler or options;
    - the second request, arriving before that expiry, is answered with
      exactly the recorded status, headers and body, its handler is not run,
      and the cache stays as it was. *)
Theorem duplicate_is_replayed_from_immutable_record
    options clk1 clk2 req1 req2 h1 h2 handler1 handler2
    (cache : gmap string CachedResponse) pre a post body :
  method req1 = "POST" -> header req1 "Idempotency-Key" = Some h1 ->
  method req2 = "POST" -> header req2 "Idempotency-Key" = Some h2 ->
  Js.trim h1 = Js.trim h2 -> Js.trim h1 <> "" ->
  unexpired expiresAt (Date_now clk1) (cache !! Js.trim h1) = None ->
  handler1 req1 = (pre ++ a :: post)%list ->
  silent pre -> emissionOf a = Some body ->
  Date_now clk2 < Date_now clk1 + ttlOf options ->
  let key := Js.trim h1 in
  let first := serve options clk1 req1 handler1 cache in
  let atEmission :=
    (runActions pre (wrapped key (Date_now clk1) (ttlOf options))
       (cleanIfExpired key (Date_now clk1) cache)).1 in
  let record :=
    {| status := statusCode atEmission;
       headers := capturedHeaders atEmission;
       body := body;
       expiresAt := Date_now clk1 + ttlOf options |} in
  let second := serve options clk2 req2 handler2 (cacheAfter first) in
  handlerRan first = true
  /\ cacheAfter first !! key = Some record
  /\ (exists e rest, emitted (response first) = e :: rest
                     /\ em_status e = status record /\ em_body e = body)
  /\ (forall options' clk req handler,
        Date_now clk < expiresAt record ->
        cacheAfter (serve options' clk req handler (cacheAfter first)) !! key
        = Some record)
  /\ handlerRan second = false
  /\ emitted (response second)
     = [ {| via := ViaSend; em_status := status record;
            em_headers := recordedHeaders record; em_body := body |} ]
  /\ cacheAfter second = cacheAfter first.
Proof.
  intros Hm1 Hh1 Hm2 Hh2 Htrim Hne Hfresh Hhandler Hpre Ha Hlate.
  intros key first atEmission record second.
  assert (Hk1 : requestKey req1 = Some key) by by apply requestKey_trimmed.
  assert (Hk2 : requestKey req2 = Some key).
  { unfold key. rewrite Htrim. apply requestKey_trimmed; [done|done|by rewrite <- Htrim]. }
  assert (Hfirst : first
    = {| handlerRan := true;
         response := (runActions (pre ++ a :: post)
                        (wrapped key (Date_now clk1) (ttlOf options))
                        (cleanIfExpired key (Date_now clk1) cache)).1;
         cacheAfter := (runActions (pre ++ a :: post)
                          (wrapped key (Date_now clk1) (ttlOf options))
                          (cleanIfExpired key (Date_now clk1) cache)).2 |}).
  { unfold first. rewrite (serve_first _ _ _ _ _ _ Hk1 Hfresh). by rewrite Hhandler. }
  assert (Hrec : cacheAfter first !! key = Some record).
  { rewrite Hfirst. cbn [cacheAfter].
    rewrite (handler_captures_once _ _ _ _ _ _ _ _ Hpre Ha).
    by rewrite lookup_insert_eq. }
  split; [by rewrite Hfirst|]. split; [exact Hrec|]. split.
  { rewrite Hfirst. cbn [response].
    exact (first_emission_is_recorded _ _ _ _ _ _ _ _ Hpre Ha). }
  split.
  { intros options' clk req handler Hlive.
    by apply serve_preserves_live_record. }
  unfold second.
  rewrite (serve_replays _ _ _ _ _ _ _ Hk2 Hrec) by exact Hlate.
  done.
Qed.

Lemma duplicate_is_replayed_from_immutable_record_witness :
  let first := serve Samples.defaultGuard (Samples.at_ 1000)
                 (Samples.post "  abc  ") Samples.createHandler ∅ in
  let second := serve Samples.defaultGuard (Samples.at_ 2000)
                  (Samples.post "abc") Samples.otherHandler (cacheAfter first) in
  cacheAfter first !! "abc"
  = Some {| status := 201;
            headers := {[ "Content-Type" := "application/json" ]};
            body := Js.VObj [("id", Js.VNum 1)];
            expiresAt := 301000 |}
  /\ handlerRan second = false
  /\ cacheAfter second = cacheAfter first.
Proof.
  intros first second.
  assert (Hlate : Date_now (Samples.at_ 2000)
                  < Date_now (Samples.at_ 1000) + ttlOf Samples.defaultGuard)
    by (vm_compute; reflexivity).
  assert (Hne : Js.trim "  abc  " <> "") by (vm_compute; discriminate).
  assert (Hpre : silent [SetStatus 201;
                         SetHeader "Content-Type" (RString "application/json")])
    by (repeat constructor).
  assert (Hfresh : unexpired expiresAt (Date_now (Samples.at_ 1000))
                     ((∅ : gmap string CachedResponse) !! Js.trim "  abc  ") = None)
    by (vm_compute; reflexivity).
  assert (Htrim : Js.trim "  abc  " = Js.trim "abc") by (vm_compute; reflexivity).
  destruct (duplicate_is_replayed_from_immutable_record
              Samples.defaultGuard (Samples.at_ 1000) (Samples.at_ 2000)
              (Samples.post "  abc  ") (Samples.post "abc") "  abc  " "abc"
              Samples.createHandler Samples.otherHandler ∅
              [SetStatus 201; SetHeader "Content-Type" (RString "application/json")]
              (Json (Js.VObj [("id", Js.VNum 1)]))
              [SetStatus 500; Send (Js.VStr "again")]
              (Js.VObj [("id", Js.VNum 1)])
              eq_refl eq_refl eq_refl eq_refl Htrim Hne Hfresh eq_refl
              Hpre eq_refl Hlate)
    as (_ & Hrec & _ & _ & Hran & _ & Hcache).
  split; [exact Hrec|]. split; [exact Hran|exact Hcache].
Defined.

End IdempotencyFacts.

(* ===================================================================== *)
(** ** Facts about the sweeps                                             *)
(* ===================================================================== *)

Module CacheCleanupFacts.
Import Http CacheCleanup ExpiringStore ExpiringStoreFacts.

(** C9.  For every store and every [now], each of the two sweeps removes
    exactly the entries with [expiresAt <= now] and keeps every other entry
    as it is; a second sweep with the same [now] changes nothing more. *)
Theorem sweep_removes_exactly_expired_and_is_idempotent
    (now : Z) (store : gmap string RateLimit.Entry)
    (cache : gmap string Idempotency.CachedResponse) :
  (forall key,
     RateLimit._cleanupRateLimitCache now store !! key
     = match store !! key with
       | Some entry =>
           if RateLimit.expiresAt entry <=? now then None else Some entry
       | None => None
       end)
  /\ (forall key,
        Idempotency._cleanupIdempotencyCache now cache !! key
        = match cache !! key with
          | Some cached =>
              if Idempotency.expiresAt cached <=? now then None else Some cached
          | None => None
          end)
  /\ RateLimit._cleanupRateLimitCache now
       (RateLimit._cleanupRateLimitCache now store)
     = RateLimit._cleanupRateLimitCache now store
  /\ Idempotency._cleanupIdempotencyCache now
       (Idempotency._cleanupIdempotencyCache now cache)
     = Idempotency._cleanupIdempotencyCache now cache.
Proof.
  rewrite !RateLimitFacts.rateLimit_cleanup_eq_sweep, !IdempotencyFacts.idempotency_cleanup_eq_sweep.
  split; [|split; [|split]].
  - intros key. apply (sweep_lookup RateLimit.expiresAt).
  - intros key. apply (sweep_lookup Idempotency.expiresAt).
  - apply sweep_idem.
  - apply sweep_idem.
Qed.

(** The loop visits the keys in the order of the map; the outcome is the
    same for every order, and for keys visited more than once. *)
Lemma sweep_order_irrelevant now ks ks' (store : gmap string RateLimit.Entry) :
  (forall k, k ∈ ks <-> k ∈ ks') ->
  RateLimit.cleanupKeys now ks store = RateLimit.cleanupKeys now ks' store.
Proof.
  intros Hsame. apply map_eq. intros k.
  change (dropKeys RateLimit.expiresAt now ks store !! k
          = dropKeys RateLimit.expiresAt now ks' store !! k).
  rewrite !dropKeys_lookup.
  destruct (decide (k ∈ ks)) as [Hin|Hnin];
    destruct (decide (k ∈ ks')) as [Hin'|Hnin']; try done.
  - by apply Hsame in Hin.
  - by apply Hsame in Hin'.
Qed.

(** C7.  [cleanupExpiredEntries] sweeps both caches at the reading of the
    monotonic clock, in milliseconds, and at nothing else; the rate limiter
    and the idempotency guard stamp their entries with the epoch clock.  So
    when every entry expires after the monotonic reading, the call leaves
    both caches as they are, whatever the epoch clock reads: entries that
    have expired in epoch time stay. *)
Theorem periodic_sweep_compares_epoch_expiry_with_monotonic_clock
    (clk : Clock) (c : Caches) :
  (forall key entry, rateLimitStore c !! key = Some entry ->
                     Z.quot (hrtime_bigint clk) 1000000 < RateLimit.expiresAt entry) ->
  (forall key cached, idempotencyCache c !! key = Some cached ->
                      Z.quot (hrtime_bigint clk) 1000000 < Idempotency.expiresAt cached) ->
  cleanupExpiredEntries clk c = c
  /\ (forall options req store key,
        RateLimitSpec.generatedKey options req = Errors.Normal key ->
        store !! key = None ->
        (RateLimit.rateLimit options clk req store).2 !! key
        = Some {| RateLimit.count := 1;
                  RateLimit.expiresAt := Date_now clk + RateLimitSpec.windowOf options |})
  /\ (forall options req handler cache key cached,
        IdempotencySpec.requestKey req = Some key ->
        cache !! key = None ->
        Idempotency.cacheAfter (Idempotency.serve options clk req handler cache) !! key
        = Some cached ->
        Idempotency.expiresAt cached = Date_now clk + IdempotencySpec.ttlOf options).
Proof.
  intros Hrl Hidem. split; [|split].
  - unfold cleanupExpiredEntries, sweepTimestamp. destruct c as [rl idem].
    cbn [rateLimitStore idempotencyCache] in *.
    rewrite RateLimitFacts.rateLimit_cleanup_eq_sweep, IdempotencyFacts.idempotency_cleanup_eq_sweep.
    rewrite (sweep_unchanged RateLimit.expiresAt _ _ Hrl).
    by rewrite (sweep_unchanged Idempotency.expiresAt _ _ Hidem).
  - intros options req store key Hkey Hnone.
    rewrite (RateLimitFacts.rateLimit_cases _ _ _ _ _ Hkey), Hnone.
    cbn [unexpired snd]. by rewrite lookup_insert_eq.
  - intros options req handler cache key cached Hkey Hnone.
    rewrite (IdempotencyFacts.serve_first _ _ _ _ _ _ Hkey)
      by (by rewrite Hnone).
    cbv zeta. cbn [Idempotency.cacheAfter].
    apply IdempotencyFacts.handler_stamps_epoch_expiry.
    rewrite IdempotencyFacts.cleanIfExpired_eq, dropIfExpired_lookup.
    rewrite decide_True by done. by rewrite Hnone.
Qed.

Lemma periodic_sweep_compares_epoch_expiry_with_monotonic_clock_witness :
  RateLimit.expiresAt {| RateLimit.count := 3; RateLimit.expiresAt := 1600000000000 |}
  <= Date_now Samples.fiveSecondsUp
  /\ cleanupExpiredEntries Samples.fiveSecondsUp Samples.staleCaches
     = Samples.staleCaches.
Proof.
  split; [vm_compute; discriminate|].
  apply (periodic_sweep_compares_epoch_expiry_with_monotonic_clock
           Samples.fiveSecondsUp Samples.staleCaches).
  - intros key entry H. unfold Samples.staleCaches in H.
    cbn [rateLimitStore] in H. apply lookup_singleton_Some in H as [_ <-].
    vm_compute; reflexivity.
  - intros key cached H. unfold Samples.staleCaches in H.
    cbn [idempotencyCache] in H. apply lookup_singleton_Some in H as [_ <-].
    vm_compute; reflexivity.
Defined.

End CacheCleanupFacts.

(* ===================================================================== *)
(** ** Facts about the HTTP client                                        *)
(* ===================================================================== *)

Module HttpClientFacts.
Import Errors HttpClient HttpClientSpec.

Lemma isRetryableMethod_spec method :
  isRetryableMethod method = true
  <-> Js.toUpperCase method ∈ ["GET"; "HEAD"; "OPTIONS"].
Proof.
  unfold isRetryableMethod. rewrite existsb_exists. split.
  - intros (m & Hin & Heq). apply String.eqb_eq in Heq. subst m.
    by apply list_elem_of_In.
  - intros Hin. exists (Js.toUpperCase method). split.
    + by apply list_elem_of_In.
    + apply String.eqb_refl.
Qed.

Lemma invocations_backoff retryDelay again : forall attempt,
  invocations (backoff retryDelay attempt again) = Z.of_nat again + 1.
Proof.
  induction again as [|again IH]; intros attempt; [done|].
  cbn [backoff invocations]. rewrite IH. lia.
Qed.

Section Turn.
Variable net : Z -> FetchOutcome.
Variable url : string.
Variable shouldRetry : bool.
Variable maxAttempts : Z.
Variable retryDelay : Z.

(** A turn continues only on a retryable method, with attempts left, after a
    sleep of [retryDelay * attempt]. *)
Lemma catchBlock_continue attempt error e ms :
  catchBlock url shouldRetry maxAttempts retryDelay attempt error = Continue e ms ->
  shouldRetry = true /\ attempt < maxAttempts /\ ms = retryDelay * attempt.
Proof.
  unfold catchBlock. destruct error as [app|obj]; [done|].
  destruct shouldRetry; [|by repeat case_match].
  destruct (Z.ltb_spec attempt maxAttempts); [|by repeat case_match].
  cbn [andb]. repeat case_match; try done. by intros [= _ <-].
Qed.

Lemma tryBlock_continue attempt answer e ms :
  tryBlock url shouldRetry maxAttempts retryDelay attempt answer = Continue e ms ->
  shouldRetry = true /\ attempt < maxAttempts /\ ms = retryDelay * attempt.
Proof.
  unfold tryBlock. destruct answer as [thrown|response].
  - apply catchBlock_continue.
  - destruct (readBody response) as [data|thrown]; [|apply catchBlock_continue].
    destruct (ok response); cbn [negb]; [done|].
    destruct (shouldRetry && (attempt <? maxAttempts)
              && isRetryableError (ThrownObject (httpError response data))) eqn:R.
    + intros [= _ <-]. apply andb_prop in R as [R _].
      apply andb_prop in R as [R1 R2]. apply Z.ltb_lt in R2. done.
    + destruct (500 <=? r_status response); apply catchBlock_continue.
Qed.

(** The loop ends, and what it did is a backoff sequence within the
    attempts that remain. *)
Lemma attempts_backoff fuel : forall attempt lastError,
  attempt <= maxAttempts ->
  (Z.to_nat (maxAttempts - attempt + 1) <= fuel)%nat ->
  exists result again,
    attempts net url shouldRetry maxAttempts retryDelay fuel attempt lastError
    = Some (result, backoff retryDelay attempt again)
    /\ attempt + Z.of_nat again <= maxAttempts.
Proof.
  induction fuel as [|fuel IH]; intros attempt lastError Hle Hfuel; [lia|].
  cbn [attempts]. rewrite (proj2 (Z.leb_le _ _) Hle).
  destruct (tryBlock url shouldRetry maxAttempts retryDelay attempt (net attempt))
    as [r|e ms|e] eqn:T.
  - exists (Normal r), 0%nat. split; [done|lia].
  - apply tryBlock_continue in T as (_ & Hlt & ->).
    destruct (IH (attempt + 1) (Some e)) as (result & again & -> & Hb); [lia|lia|].
    exists result, (S again). split; [done|lia].
  - exists (Throw e), 0%nat. split; [done|lia].
Qed.

(** A turn that does not continue ends the loop there. *)
Lemma attempts_last fuel attempt lastError :
  attempt <= maxAttempts ->
  attempts net url shouldRetry maxAttempts retryDelay (S fuel) attempt lastError
  = match tryBlock url shouldRetry maxAttempts retryDelay attempt (net attempt) with
    | Return r => Some (Normal r, [Fetch attempt])
    | Raise e => Some (Throw e, [Fetch attempt])
    | Continue e ms =>
        match attempts net url shouldRetry maxAttempts retryDelay fuel
                (attempt + 1) (Some e) with
        | Some (result, events) => Some (result, Fetch attempt :: Sleep ms :: events)
        | None => None
        end
    end.
Proof. intros Hle. cbn [attempts]. by rewrite (proj2 (Z.leb_le _ _) Hle). Qed.

End Turn.

Lemma httpRequest_eq net method url options :
  httpRequest net method url options
  = attempts net url (isRetryableMethod method) (maxAttemptsOf method options)
      (retryDelayOf options) (Z.to_nat (maxAttemptsOf method options)) 1 None.
Proof. reflexivity. Qed.

(** Every call ends: with a result, or with a thrown value. *)
Lemma httpRequest_terminates net method url options :
  exists result events, httpRequest net method url options = Some (result, events).
Proof.
  rewrite httpRequest_eq.
  destruct (Z.le_gt_cases 1 (maxAttemptsOf method options)) as [Hle|Hgt].
  - destruct (attempts_backoff net url (isRetryableMethod method)
                (maxAttemptsOf method options) (retryDelayOf options)
                (Z.to_nat (maxAttemptsOf method options)) 1 None)
      as (result & again & -> & _); [lia|lia|]. by eexists _, _.
  - replace (Z.to_nat (maxAttemptsOf method options)) with 0%nat by lia.
    cbn [attempts]. rewrite (proj2 (Z.leb_gt _ _)) by lia. by eexists _, _.
Qed.

Lemma isRetryableError_httpError response data :
  isRetryableError (ThrownObject (httpError response data))
  = (500 <=? r_status response) && negb (r_status response =? 501).
Proof. reflexivity. Qed.

(** C5.  A method other than GET, HEAD and OPTIONS (in any letter case, as
    the client upper-cases the name) gets one call of the network layer
    whatever [retries] is.  A retryable method with [retries >= 0] gets at
    most [retries + 1] calls, and before each re-attempt the client sleeps
    [retryDelay] times the number of the attempt that failed.  A GET with
    [retries = 2] answered by two retryable 5xx responses and then a success
    returns the success after exactly three calls. *)
Theorem retry_policy_by_method net method url options :
  (Js.toUpperCase method ∉ ["GET"; "HEAD"; "OPTIONS"] ->
   exists result events,
     httpRequest net method url options = Some (result, events)
     /\ events = [Fetch 1] /\ invocations events = 1)
  /\ (Js.toUpperCase method ∈ ["GET"; "HEAD"; "OPTIONS"] ->
      0 <= retriesOf options ->
      exists result events again,
        httpRequest net method url options = Some (result, events)
        /\ events = backoff (retryDelayOf options) 1 again
        /\ invocations events = Z.of_nat again + 1
        /\ invocations events <= retriesOf options + 1)
  /\ (forall r1 r2 r3 d1 d2 d3,
        method = "GET" -> retries options = Some 2 ->
        net 1 = Resolved r1 -> ok r1 = false -> readBody r1 = Normal d1 ->
        500 <= r_status r1 -> r_status r1 <> 501 ->
        net 2 = Resolved r2 -> ok r2 = false -> readBody r2 = Normal d2 ->
        500 <= r_status r2 -> r_status r2 <> 501 ->
        net 3 = Resolved r3 -> ok r3 = true -> readBody r3 = Normal d3 ->
        httpRequest net method url options
        = Some (Normal {| data := d3; status := r_status r3;
                          headers := r_headers r3 |},
                [Fetch 1; Sleep (retryDelayOf options * 1);
                 Fetch 2; Sleep (retryDelayOf options * 2); Fetch 3])
        /\ invocations [Fetch 1; Sleep (retryDelayOf options * 1);
                        Fetch 2; Sleep (retryDelayOf options * 2); Fetch 3] = 3).
Proof.
  split; [|split].
  - intros Hnot. rewrite <- isRetryableMethod_spec in Hnot.
    apply not_true_is_false in Hnot.
    rewrite httpRequest_eq. unfold maxAttemptsOf. rewrite Hnot.
    change (Z.to_nat 1) with 1%nat. rewrite attempts_last by lia.
    destruct (tryBlock url false 1 (retryDelayOf options) 1 (net 1))
      as [r|e ms|e] eqn:T.
    + by exists (Normal r), [Fetch 1].
    + by apply tryBlock_continue in T as (? & _).
    + by exists (Throw e), [Fetch 1].
  - intros Hretry Hretries. rewrite <- isRetryableMethod_spec in Hretry.
    rewrite httpRequest_eq. unfold maxAttemptsOf. rewrite Hretry.
    destruct (attempts_backoff net url true (retriesOf options + 1)
                (retryDelayOf options) (Z.to_nat (retriesOf options + 1)) 1 None)
      as (result & again & -> & Hb); [lia|lia|].
    exists result, (backoff (retryDelayOf options) 1 again), again.
    rewrite invocations_backoff. repeat split; lia.
  - intros r1 r2 r3 d1 d2 d3 -> Hr N1 K1 B1 S1 S1' N2 K2 B2 S2 S2' N3 K3 B3.
    split; [|done].
    rewrite httpRequest_eq. unfold maxAttemptsOf, retriesOf.
    change (isRetryableMethod "GET") with true. rewrite Hr. cbn [Js.nullish].
    change (Z.to_nat (2 + 1)) with 3%nat. change (2 + 1) with 3.
    rewrite attempts_last by lia. unfold tryBlock at 1.
    rewrite N1, B1, K1. cbn [negb]. rewrite isRetryableError_httpError.
    rewrite (proj2 (Z.leb_le _ _) S1), (proj2 (Z.eqb_neq _ _) S1').
    cbn [andb negb Z.ltb Z.compare Pos.compare Pos.compare_cont].
    change (1 + 1) with 2.
    rewrite attempts_last by lia. unfold tryBlock at 1.
    rewrite N2, B2, K2. cbn [negb]. rewrite isRetryableError_httpError.
    rewrite (proj2 (Z.leb_le _ _) S2), (proj2 (Z.eqb_neq _ _) S2').
    cbn [andb negb Z.ltb Z.compare Pos.compare Pos.compare_cont].
    change (2 + 1) with 3.
    rewrite attempts_last by lia. unfold tryBlock at 1.
    rewrite N3, B3, K3. done.
Qed.

Lemma retry_policy_by_method_witness :
  httpRequest Samples.flaky "GET" "https://api.example.com/data"
    (Samples.twoRetries 10)
  = Some (Normal {| data := Js.VObj [("success", Js.VBool true)]; status := 200;
                    headers := {[ "content-type" := "application/json" ]} |},
          [Fetch 1; Sleep 10; Fetch 2; Sleep 20; Fetch 3])
  /\ exists result,
       httpRequest (Samples.always (Resolved Samples.unavailable)) "POST"
         "https://api.example.com/data" (Samples.twoRetries 10)
       = Some (result, [Fetch 1]).
Proof.
  destruct (retry_policy_by_method Samples.flaky "GET"
              "https://api.example.com/data" (Samples.twoRetries 10))
    as (_ & _ & Hget).
  destruct (Hget Samples.unavailable Samples.unavailable Samples.success
              (Js.VObj []) (Js.VObj []) (Js.VObj [("success", Js.VBool true)])
              eq_refl eq_refl eq_refl eq_refl eq_refl
              ltac:(vm_compute; discriminate) ltac:(vm_compute; discriminate)
              eq_refl eq_refl eq_refl
              ltac:(vm_compute; discriminate) ltac:(vm_compute; discriminate)
              eq_refl eq_refl eq_refl) as [Hresult _].
  split; [exact Hresult|].
  destruct (retry_policy_by_method (Samples.always (Resolved Samples.unavailable))
              "POST" "https://api.example.com/data" (Samples.twoRetries 10))
    as (Hpost & _ & _).
  destruct Hpost as (result & events & Hr & -> & _).
  - vm_compute. intros H. repeat (inversion H as [|? ? ? H']; clear H; rename H' into H).
  - by exists result.
Defined.

(** The body is read before the status is looked at: when reading it
    throws, the [try] block ends there and the thrown value goes through the
    [catch] block like an exception of the network layer, whatever the
    status of the response. *)
Lemma unreadable_body_takes_the_exception_path
    url shouldRetry maxAttempts retryDelay attempt response thrown :
  readBody response = Throw thrown ->
  tryBlock url shouldRetry maxAttempts retryDelay attempt (Resolved response)
  = catchBlock url shouldRetry maxAttempts retryDelay attempt thrown.
Proof. intros Hbody. unfold tryBlock. by rewrite Hbody. Qed.

(** C6, as the specification states it, fails: a GET answered with a 404
    that announces JSON and whose body is not JSON throws the error of the
    parser, which has neither the status nor the body of the response. *)
Lemma unreadable_client_error_loses_its_status :
  ok MoreSamples.garbledNotFound = false
  /\ r_status MoreSamples.garbledNotFound = 404
  /\ httpRequest (Samples.always (Resolved MoreSamples.garbledNotFound)) "GET"
       "https://api.example.com/data" (Samples.twoRetries 10)
     = Some (Throw (ThrownObject MoreSamples.syntaxError), [Fetch 1])
  /\ e_status MoreSamples.syntaxError = None
  /\ e_data MoreSamples.syntaxError = None.
Proof. repeat split; reflexivity. Qed.

(** C6, amended.  A response that is not [ok] with a status below 500 and a
    body that can be read (reading it as JSON or as text, as its content
    type says, does not throw), received on any attempt of any call: the
    loop ends at that attempt (no sleep, no further call of the network
    layer) and throws the raw error, which carries the status and the body
    of the response and is not the 503 dependency failure.  When it is the
    answer to the first attempt, the whole call made one call of the network
    layer. *)
Theorem client_error_is_raised_untouched
    net method url options response payload :
  ok response = false ->
  r_status response < 500 ->
  readBody response = Normal payload ->
  let raw :=
    {| e_name := Some "Error";
       e_message := Some ("HTTP " ++ Js.numberToString (r_status response) ++ ": "
                          ++ statusText response)%string;
       e_code := None;
       e_status := Some (r_status response);
       e_data := Some payload |} in
  (forall fuel attempt lastError,
     attempt <= maxAttemptsOf method options ->
     net attempt = Resolved response ->
     attempts net url (isRetryableMethod method) (maxAttemptsOf method options)
       (retryDelayOf options) (S fuel) attempt lastError
     = Some (Throw (ThrownObject raw), [Fetch attempt]))
  /\ (net 1 = Resolved response ->
      1 <= maxAttemptsOf method options ->
      httpRequest net method url options
      = Some (Throw (ThrownObject raw), [Fetch 1])).
Proof.
  intros Hok Hstatus Hbody raw.
  assert (Hturn : forall attempt,
            tryBlock url (isRetryableMethod method) (maxAttemptsOf method options)
              (retryDelayOf options) attempt (Resolved response)
            = Raise (ThrownObject raw)).
  { intros attempt. unfold tryBlock. rewrite Hbody, Hok. cbn [negb].
    rewrite isRetryableError_httpError.
    rewrite (proj2 (Z.leb_gt _ _)) by lia. rewrite andb_false_r. cbn [andb].
    unfold catchBlock. rewrite isRetryableError_httpError.
    rewrite (proj2 (Z.leb_gt _ _)) by lia. rewrite andb_false_r. done. }
  split.
  - intros fuel attempt lastError Hle Hnet.
    rewrite attempts_last by done. by rewrite Hnet, Hturn.
  - intros Hnet Hmax. rewrite httpRequest_eq.
    replace (Z.to_nat (maxAttemptsOf method options))
      with (S (Z.to_nat (maxAttemptsOf method options - 1))) by lia.
    rewrite attempts_last by done. by rewrite Hnet, Hturn.
Qed.

Lemma client_error_is_raised_untouched_witness :
  httpRequest (Samples.always (Resolved Samples.notFound)) "GET"
    "https://api.example.com/data" (Samples.twoRetries 10)
  = Some (Throw (ThrownObject
                   {| e_name := Some "Error";
                      e_message := Some "HTTP 404: Not Found";
                      e_code := None;
                      e_status := Some 404;
                      e_data := Some (Js.VObj [("error", Js.VStr "Not found")]) |}),
          [Fetch 1]).
Proof.
  apply (client_error_is_raised_untouched
           (Samples.always (Resolved Samples.notFound)) "GET"
           "https://api.example.com/data" (Samples.twoRetries 10)
           Samples.notFound (Js.VObj [("error", Js.VStr "Not found")])).
  - reflexivity.
  - vm_compute; reflexivity.
  - reflexivity.
  - reflexivity.
  - vm_compute; discriminate.
Defined.

(** C3, as the specification states it, fails: a POST whose network call
    fails with the timeout error [ETIMEDOUT] is not retried, and the client
    throws that error as it is, not the dependency failure of status 503. *)
Lemma socket_timeout_is_not_classified :
  httpRequest
    (Samples.always
       (Rejected (ThrownObject (Samples.systemError "Connection timeout" "ETIMEDOUT"))))
    "POST" "https://api.example.com/data" (Samples.twoRetries 10)
  = Some (Throw (ThrownObject (Samples.systemError "Connection timeout" "ETIMEDOUT")),
          [Fetch 1])
  /\ isRetryableError
       (ThrownObject (Samples.systemError "Connection timeout" "ETIMEDOUT")) = true
  /\ forall e : AppError,
       ThrownObject (Samples.systemError "Connection timeout" "ETIMEDOUT")
       <> ThrownAppError e.
Proof. split; [reflexivity|]. split; [reflexivity|]. intros e. discriminate. Qed.

(** C3, amended.  An exception of the network layer on an attempt that is
    not retried (the method is not retryable, or no attempt is left, or the
    exception is not of a retryable class) ends the loop at that attempt.
    If its [code] is [ECONNREFUSED] or [ENOTFOUND], or its [name] is
    [AbortError] (the abort fired by the timeout), the client throws the
    dependency failure: INTERNAL_ERROR, status 503, with the URL and the
    message of the exception (or "Unknown error" when it has no string
    message) in its details.  Every other exception, the socket timeout
    [ETIMEDOUT] included, is thrown as it is. *)
Theorem unretried_exception_is_classified_by_code_and_name
    net url shouldRetry maxAttempts retryDelay fuel attempt lastError error :
  attempt <= maxAttempts ->
  net attempt = Rejected error ->
  shouldRetry && (attempt <? maxAttempts) && isRetryableError error = false ->
  attempts net url shouldRetry maxAttempts retryDelay (S fuel) attempt lastError
  = Some
      (Throw
         match error with
         | ThrownAppError _ => error
         | ThrownObject e =>
             if strictEq (e_code e) "ECONNREFUSED"
                || strictEq (e_code e) "ENOTFOUND"
                || strictEq (e_name e) "AbortError"
             then
               ThrownAppError
                 (mkAppError INTERNAL_ERROR "Service unavailable or timed out" 503
                    (Some (Js.VObj
                             [("url", Js.VStr url);
                              ("originalError",
                               Js.VStr match e_message e with
                                       | Some msg => msg
                                       | None => "Unknown error"
                                       end)])))
             else error
         end,
       [Fetch attempt]).
Proof.
  intros Hle Hnet Hnot. rewrite attempts_last by done. rewrite Hnet.
  unfold tryBlock, catchBlock. destruct error as [app|e]; [done|].
  rewrite Hnot. cbn [codeOf nameOf messageOf].
  by destruct (strictEq (e_code e) "ECONNREFUSED" || strictEq (e_code e) "ENOTFOUND"
               || strictEq (e_name e) "AbortError").
Qed.

Lemma unretried_exception_is_classified_by_code_and_name_witness :
  attempts
    (Samples.always
       (Rejected (ThrownObject (Samples.systemError "Connection refused" "ECONNREFUSED"))))
    "https://api.example.com/data" true 3 10 1 3 None
  = Some (Throw (serviceUnavailable "https://api.example.com/data"
                   "Connection refused"),
          [Fetch 3]).
Proof.
  apply (unretried_exception_is_classified_by_code_and_name
           (Samples.always
              (Rejected (ThrownObject
                           (Samples.systemError "Connection refused" "ECONNREFUSED"))))
           "https://api.example.com/data" true 3 10 0 3 None
           (ThrownObject (Samples.systemError "Connection refused" "ECONNREFUSED"))).
  - vm_compute; discriminate.
  - reflexivity.
  - reflexivity.
Defined.

End HttpClientFacts.

(* ===================================================================== *)
(** ** More about the rate limiter                                        *)
(* ===================================================================== *)

Module RateLimitMore.
Import Errors Http RateLimit RateLimitSpec ExpiringStore ExpiringStoreFacts.
Import Timeline.

(** X1.  The limiter denies exactly when its key has an unexpired entry whose
    count has reached [max]; in every other case in which the key generator
    returns, it calls [next()]. *)
Theorem denies_exactly_on_full_live_entry
    options clk req (store : gmap string Entry) key :
  generatedKey options req = Normal key ->
  ((rateLimit options clk req store).1
     = NextError (mkAppError FORBIDDEN (messageOf options) 429 None)
   <-> exists entry, store !! key = Some entry
                     /\ Date_now clk < expiresAt entry
                     /\ maxOf options <= count entry)
  /\ ((rateLimit options clk req store).1 = Next
      \/ (rateLimit options clk req store).1
         = NextError (mkAppError FORBIDDEN (messageOf options) 429 None)).
Proof.
  intros Hkey. rewrite (RateLimitFacts.rateLimit_cases _ _ _ _ _ Hkey).
  destruct (store !! key) as [entry|] eqn:E; cbn [unexpired].
  - destruct (Z.leb_spec (expiresAt entry) (Date_now clk)) as [Hx|Hx].
    + split; [|by left]. cbn [fst]. split; [done|].
      intros (e & [= <-] & ? & _). lia.
    + destruct (Z.leb_spec (maxOf options) (count entry)) as [Hm|Hm]; cbn [fst].
      * split; [|by right]. split; [|done]. intros _. by exists entry.
      * split; [|by left]. split; [done|]. intros (e & [= <-] & _ & ?). lia.
  - split; [|by left]. cbn [fst]. split; [done|]. by intros (e & ? & _).
Qed.

Lemma denies_exactly_on_full_live_entry_witness :
  (rateLimit (Samples.limiter 1 60000) (Samples.at_ 2000) (Samples.client "10.0.0.1")
     {[ "10.0.0.1" := {| count := 1; expiresAt := 61000 |} ]}).1
  = NextError (mkAppError FORBIDDEN "Too many requests" 429 None).
Proof.
  destruct (denies_exactly_on_full_live_entry (Samples.limiter 1 60000)
              (Samples.at_ 2000) (Samples.client "10.0.0.1")
              {[ "10.0.0.1" := {| count := 1; expiresAt := 61000 |} ]}
              "10.0.0.1" eq_refl) as [[_ Hdeny] _].
  apply Hdeny. exists {| count := 1; expiresAt := 61000 |}.
  split; [reflexivity|]. split; [vm_compute; reflexivity|vm_compute; discriminate].
Defined.

(** Per-key isolation on a concrete store: a check for one address leaves
    the entry of another as it is. *)
Lemma check_frames_other_keys_witness :
  (rateLimit (Samples.limiter 3 60000) (Samples.at_ 2000) (Samples.client "10.0.0.2")
     {[ "10.0.0.1" := {| count := 3; expiresAt := 1500 |} ]}).2 !! "10.0.0.1"
  = ({[ "10.0.0.1" := {| count := 3; expiresAt := 1500 |} ]}
       : gmap string Entry) !! "10.0.0.1".
Proof.
  apply (RateLimitFacts.check_frames_other_keys (Samples.limiter 3 60000)
           (Samples.at_ 2000) (Samples.client "10.0.0.2")
           {[ "10.0.0.1" := {| count := 3; expiresAt := 1500 |} ]}
           "10.0.0.2" "10.0.0.1").
  - reflexivity.
  - discriminate.
Defined.

(** Fixed window: a check that finds an unexpired entry never moves its
    expiry, whether it is allowed or denied; an allowed one adds exactly one
    to the count, a denied one leaves it. *)
Theorem live_entry_keeps_its_expiry
    options clk req (store : gmap string Entry) key entry :
  generatedKey options req = Normal key ->
  store !! key = Some entry ->
  Date_now clk < expiresAt entry ->
  exists entry',
    (rateLimit options clk req store).2 !! key = Some entry'
    /\ expiresAt entry' = expiresAt entry
    /\ count entry'
       = if maxOf options <=? count entry then count entry else count entry + 1.
Proof.
  intros Hkey Hs Hlive. rewrite (RateLimitFacts.rateLimit_cases _ _ _ _ _ Hkey), Hs.
  cbn [unexpired]. rewrite (proj2 (Z.leb_gt _ _)) by lia.
  destruct (maxOf options <=? count entry); cbn [snd].
  - by exists entry.
  - eexists. by rewrite lookup_insert_eq.
Qed.

Lemma live_entry_keeps_its_expiry_witness :
  exists entry',
    (rateLimit (Samples.limiter 3 500) (Samples.at_ 60999) (Samples.client "10.0.0.1")
       {[ "10.0.0.1" := {| count := 1; expiresAt := 61000 |} ]}).2 !! "10.0.0.1"
    = Some entry'
    /\ expiresAt entry' = 61000 /\ count entry' = 2.
Proof.
  apply (live_entry_keeps_its_expiry (Samples.limiter 3 500) (Samples.at_ 60999)
           (Samples.client "10.0.0.1")
           {[ "10.0.0.1" := {| count := 1; expiresAt := 61000 |} ]}
           "10.0.0.1" {| count := 1; expiresAt := 61000 |}).
  - reflexivity.
  - reflexivity.
  - vm_compute; reflexivity.
Defined.

(** X3.  With [windowMs <= 0] every entry is born expired: calls for one key at
    instants that do not decrease are all allowed, from any store in which
    the key has no entry that outlives the first call. *)
Theorem nonpositive_window_never_denies options key : forall calls from
    (store : gmap string Entry),
  windowOf options <= 0 ->
  Forall (fun call => generatedKey options call.2 = Normal key) calls ->
  inOrder from calls ->
  (forall entry, store !! key = Some entry -> expiresAt entry <= from) ->
  (runChecks options calls store).1 = replicate (length calls) Next.
Proof.
  induction calls as [|[clk req] rest IH]; intros from store HW Hkeys Hord Hstale;
    [done|].
  apply Forall_cons in Hkeys as [Hkey Hkeys]. destruct Hord as [Hfrom Hord].
  cbn [fst snd] in Hkey, Hfrom, Hord. cbn [runChecks].
  rewrite (RateLimitFacts.rateLimit_cases _ _ _ _ _ Hkey).
  assert (Hnone : unexpired expiresAt (Date_now clk) (store !! key) = None).
  { destruct (store !! key) as [entry|] eqn:E; [|done]. cbn [unexpired].
    specialize (Hstale entry eq_refl). by rewrite (proj2 (Z.leb_le _ _)) by lia. }
  rewrite Hnone.
  specialize (IH (Date_now clk)
                (<[key := {| count := 1;
                             expiresAt := Date_now clk + windowOf options |}]>
                   (cleanupIfExpired key (Date_now clk) store)) HW Hkeys Hord).
  destruct (runChecks options rest _) as [ds store'] eqn:R. cbn [fst] in *.
  rewrite IH; [done|]. intros entry. rewrite lookup_insert_eq.
  intros [= <-]. cbn [expiresAt]. lia.
Qed.

Lemma nonpositive_window_never_denies_witness :
  (runChecks (Samples.limiter 1 0)
     [(Samples.at_ 1000, Samples.client "10.0.0.1");
      (Samples.at_ 1000, Samples.client "10.0.0.1");
      (Samples.at_ 1001, Samples.client "10.0.0.1")] ∅).1
  = [Next; Next; Next].
Proof.
  apply (nonpositive_window_never_denies (Samples.limiter 1 0) "10.0.0.1"
           [(Samples.at_ 1000, Samples.client "10.0.0.1");
            (Samples.at_ 1000, Samples.client "10.0.0.1");
            (Samples.at_ 1001, Samples.client "10.0.0.1")] 0 ∅).
  - vm_compute; discriminate.
  - repeat constructor.
  - vm_compute. repeat split; discriminate.
  - intros entry H. by rewrite lookup_empty in H.
Defined.

(** X4.  All limiters of the process count in one store, keyed by the generated
    key alone.  After a first limiter has opened a window for a key, a check
    of the same key by any other limiter, made before that window ends, is
    judged against the count the first one started (denied when its own
    [max] is at most 1) and keeps the expiry of the first: its own
    [windowMs] plays no part. *)
Theorem limiters_share_one_store
    optionsA optionsB clkA clkB reqA reqB (store : gmap string Entry) key :
  generatedKey optionsA reqA = Normal key ->
  generatedKey optionsB reqB = Normal key ->
  unexpired expiresAt (Date_now clkA) (store !! key) = None ->
  Date_now clkB < Date_now clkA + windowOf optionsA ->
  let storeA := (rateLimit optionsA clkA reqA store).2 in
  rateLimit optionsB clkB reqB storeA
  = if maxOf optionsB <=? 1
    then (NextError (mkAppError FORBIDDEN (messageOf optionsB) 429 None), storeA)
    else (Next,
          <[key := {| count := 2;
                      expiresAt := Date_now clkA + windowOf optionsA |}]> storeA).
Proof.
  intros HA HB Hfresh Hlive storeA. unfold storeA.
  rewrite (RateLimitFacts.rateLimit_cases _ _ _ _ _ HA), Hfresh. cbn [snd].
  rewrite (RateLimitFacts.rateLimit_cases _ _ _ _ _ HB), lookup_insert_eq.
  cbn [unexpired expiresAt count]. by rewrite (proj2 (Z.leb_gt _ _)) by lia.
Qed.

Lemma limiters_share_one_store_witness :
  rateLimit (Samples.limiter 1 1000) (Samples.at_ 5000) (Samples.client "10.0.0.1")
    (rateLimit (Samples.limiter 10 60000) (Samples.at_ 1000)
       (Samples.client "10.0.0.1") ∅).2
  = (NextError (mkAppError FORBIDDEN "Too many requests" 429 None),
     {[ "10.0.0.1" := {| count := 1; expiresAt := 61000 |} ]}).
Proof.
  assert (Hlive : Date_now (Samples.at_ 5000)
                  < Date_now (Samples.at_ 1000) + windowOf (Samples.limiter 10 60000))
    by (vm_compute; reflexivity).
  exact (limiters_share_one_store (Samples.limiter 10 60000) (Samples.limiter 1 1000)
           (Samples.at_ 1000) (Samples.at_ 5000)
           (Samples.client "10.0.0.1") (Samples.client "10.0.0.1") ∅ "10.0.0.1"
           eq_refl eq_refl eq_refl Hlive).
Defined.

(** X5.  The default key generator never throws and never yields the empty
    string: it takes a non-empty [req.ip]; failing that, a non-empty
    [x-forwarded-for] header as a whole (an array joined by commas); failing
    that, the literal ["unknown"], so that all requests without an address
    share one counter. *)
Theorem default_key_precedence req :
  exists key,
    defaultKeyGenerator req = Normal key
    /\ key <> ""
    /\ (forall address, ip req = Some address -> address <> "" -> key = address)
    /\ (ip req = None \/ ip req = Some "" ->
        forall v, headers req !! "x-forwarded-for" = Some v ->
                  headerToString v <> "" -> key = headerToString v)
    /\ (ip req = None \/ ip req = Some "" ->
        (headers req !! "x-forwarded-for" = None
         \/ exists v, headers req !! "x-forwarded-for" = Some v
                      /\ headerToString v = "") ->
        key = "unknown").
Proof.
  unfold defaultKeyGenerator, Js.orElse.
  destruct (ip req) as [[|c address]|] eqn:I; cbn [Js.truthy].
  2:{ eexists. split; [done|]. split; [done|]. split; [by intros ? [= <-]|].
      split; intros [?|?]; done. }
  all: destruct (headers req !! "x-forwarded-for") as [v|] eqn:X;
         cbn [fmap option_fmap option_map Js.truthy].
  all: try destruct (headerToString v) as [|c s'] eqn:T.
  all: eexists; split; [reflexivity|]; split; [done|].
  all: split; [intros ? [= <-]; done|].
  all: split; [intros _ v' [= <-]; by rewrite ?T
              |intros _ [?|(v' & [= <-] & ?)]; by rewrite ?T in *].
Qed.

Lemma default_key_precedence_witness :
  defaultKeyGenerator
    {| method := "GET"; ip := Some "";
       headers := {[ "x-forwarded-for" := HArr ["10.0.0.1"; "172.16.0.1"] ]};
       header := fun _ => None |}
  = Normal "10.0.0.1,172.16.0.1".
Proof.
  destruct (default_key_precedence
              {| method := "GET"; ip := Some "";
                 headers := {[ "x-forwarded-for" := HArr ["10.0.0.1"; "172.16.0.1"] ]};
                 header := fun _ => None |})
    as (key & Hgen & _ & _ & Hxff & _).
  rewrite Hgen.
  rewrite (Hxff (or_intror eq_refl) (HArr ["10.0.0.1"; "172.16.0.1"]) eq_refl);
    [reflexivity | vm_compute; discriminate].
Defined.

Lemma unexpired_later (now later : Z) (o : option Entry) :
  now <= later ->
  unexpired expiresAt later (unexpired expiresAt now o) = unexpired expiresAt later o.
Proof.
  intros Hle. destruct o as [entry|]; [|done]. cbn [unexpired].
  destruct (Z.leb_spec (expiresAt entry) now) as [H|H]; [|done].
  cbn [unexpired]. by rewrite (proj2 (Z.leb_le _ _)) by lia.
Qed.

(** X6.  A sweep never changes what the limiter decides afterwards: a check made
    at or after the instant of the sweep gets the same decision, and leaves
    the same entry under its key, as if the sweep had not run. *)
Theorem sweep_is_invisible_to_checks
    options clk req (store : gmap string Entry) sweptAt :
  sweptAt <= Date_now clk ->
  (rateLimit options clk req (_cleanupRateLimitCache sweptAt store)).1
  = (rateLimit options clk req store).1
  /\ forall key, generatedKey options req = Normal key ->
       (rateLimit options clk req (_cleanupRateLimitCache sweptAt store)).2 !! key
       = (rateLimit options clk req store).2 !! key.
Proof.
  intros Hle. destruct (generatedKey options req) as [key|thrown] eqn:Hkey.
  - rewrite !(RateLimitFacts.rateLimit_cases _ _ _ _ _ Hkey).
    rewrite RateLimitFacts.rateLimit_cleanup_eq_sweep, sweep_lookup.
    rewrite (unexpired_later _ _ _ Hle).
    destruct (unexpired expiresAt (Date_now clk) (store !! key)) as [entry|] eqn:U.
    + assert (Hs : store !! key = Some entry).
      { destruct (store !! key) as [e|]; [|done]. cbn [unexpired] in U.
        by destruct (expiresAt e <=? Date_now clk). }
      assert (Hs' : sweep expiresAt sweptAt store !! key = Some entry).
      { rewrite sweep_lookup, Hs. cbn [unexpired].
        rewrite Hs in U. cbn [unexpired] in U.
        destruct (Z.leb_spec (expiresAt entry) (Date_now clk)); [done|].
        by rewrite (proj2 (Z.leb_gt _ _)) by lia. }
      destruct (maxOf options <=? count entry); cbn [fst snd].
      * split; [done|]. intros k [= <-]. by rewrite Hs, Hs'.
      * split; [done|]. intros k [= <-]. by rewrite !lookup_insert_eq.
    + cbn [fst snd]. split; [done|]. intros k [= <-]. by rewrite !lookup_insert_eq.
  - unfold rateLimit. unfold generatedKey in Hkey. rewrite Hkey. cbn [fst].
    split; [done|]. intros k H. discriminate H.
Qed.

Lemma sweep_is_invisible_to_checks_witness :
  (rateLimit (Samples.limiter 1 60000) (Samples.at_ 2000) (Samples.client "10.0.0.1")
     (_cleanupRateLimitCache 1500
        {[ "10.0.0.1" := {| count := 1; expiresAt := 61000 |} ]})).1
  = (rateLimit (Samples.limiter 1 60000) (Samples.at_ 2000) (Samples.client "10.0.0.1")
       {[ "10.0.0.1" := {| count := 1; expiresAt := 61000 |} ]}).1.
Proof.
  apply (sweep_is_invisible_to_checks (Samples.limiter 1 60000) (Samples.at_ 2000)
           (Samples.client "10.0.0.1")
           {[ "10.0.0.1" := {| count := 1; expiresAt := 61000 |} ]} 1500).
  vm_compute; discriminate.
Defined.

End RateLimitMore.

(* ===================================================================== *)
(** ** More about the idempotency guard                                   *)
(* ===================================================================== *)

Module IdempotencyMore.
Import Errors Http Idempotency IdempotencySpec ExpiringStore ExpiringStoreFacts.
Import IdempotencyFacts.

Lemma requestKey_none req :
  method req <> "POST"
  \/ header req "Idempotency-Key" = None
  \/ (exists h, header req "Idempotency-Key" = Some h /\ Js.trim h = "") ->
  requestKey req = None.
Proof.
  unfold requestKey. intros [Hm|[Hh|(h & Hh & Ht)]].
  - by rewrite (proj2 (String.eqb_neq _ _) Hm).
  - rewrite Hh. by destruct (String.eqb _ _).
  - rewrite Hh. cbn. rewrite Ht. by destruct (String.eqb _ _).
Qed.

Lemma serve_without_key options clk req handler (cache : gmap string CachedResponse) :
  requestKey req = None ->
  serve options clk req handler cache
  = {| handlerRan := true;
       response := (runActions (handler req) freshResponse cache).1;
       cacheAfter := cache |}.
Proof.
  intros H. unfold serve. rewrite (middleware_without_key _ _ _ _ _ H).
  destruct (runActions_sealed (handler req) freshResponse cache I) as [_ Hc].
  destruct (runActions _ _ _) as [res' cache']. simpl in Hc. by subst cache'.
Qed.

(** X7.  A request that is not a POST, or has no [Idempotency-Key] header, or
    one that is blank after trimming, always reaches its handler, on the
    response as it is, and the cache is neither read nor written: sent
    twice, it executes twice. *)
Theorem unguarded_request_always_executes
    options clk req handler (cache : gmap string CachedResponse) :
  method req <> "POST"
  \/ header req "Idempotency-Key" = None
  \/ (exists h, header req "Idempotency-Key" = Some h /\ Js.trim h = "") ->
  serve options clk req handler cache
  = {| handlerRan := true;
       response := (runActions (handler req) freshResponse cache).1;
       cacheAfter := cache |}.
Proof. intros H. by apply serve_without_key, requestKey_none. Qed.

Lemma unguarded_request_always_executes_witness :
  serve Samples.defaultGuard (Samples.at_ 1000) (Samples.client "10.0.0.1")
    Samples.otherHandler {[ "abc" := {| status := 201; headers := ∅;
                                        body := Js.VNull; expiresAt := 301000 |} ]}
  = {| handlerRan := true;
       response := (runActions (Samples.otherHandler (Samples.client "10.0.0.1"))
                      freshResponse
                      {[ "abc" := {| status := 201; headers := ∅;
                                     body := Js.VNull; expiresAt := 301000 |} ]}).1;
       cacheAfter := {[ "abc" := {| status := 201; headers := ∅;
                                    body := Js.VNull; expiresAt := 301000 |} ]} |}.
Proof.
  apply (unguarded_request_always_executes Samples.defaultGuard (Samples.at_ 1000)
           (Samples.client "10.0.0.1") Samples.otherHandler).
  left. vm_compute. discriminate.
Defined.

(** X8.  [requireIdempotencyKey] does not trim: a header made of white space
    only satisfies it, while the guard treats the request as one without a
    key and lets it execute every time. *)
Theorem blank_key_is_accepted_but_not_guarded req h :
  header req "Idempotency-Key" = Some h ->
  h <> "" -> Js.trim h = "" ->
  requireIdempotencyKey req = Next
  /\ forall options clk handler (cache : gmap string CachedResponse),
       handlerRan (serve options clk req handler cache) = true
       /\ cacheAfter (serve options clk req handler cache) = cache.
Proof.
  intros Hh Hne Ht. split.
  - unfold requireIdempotencyKey. rewrite Hh. by destruct h.
  - intros options clk handler cache.
    rewrite serve_without_key; [done|].
    apply requestKey_none. right; right. by exists h.
Qed.

Lemma blank_key_is_accepted_but_not_guarded_witness :
  requireIdempotencyKey (Samples.post "   ") = Next
  /\ handlerRan (serve Samples.defaultGuard (Samples.at_ 1000) (Samples.post "   ")
                   Samples.createHandler ∅) = true.
Proof.
  destruct (blank_key_is_accepted_but_not_guarded (Samples.post "   ") "   "
              eq_refl ltac:(discriminate) eq_refl) as [Hreq Hserve].
  split; [exact Hreq|].
  exact (proj1 (Hserve Samples.defaultGuard (Samples.at_ 1000)
                  Samples.createHandler ∅)).
Defined.

(** What the client of a response sees of it. *)
Lemma step_visible a res res' (cache cache' : gmap string CachedResponse) :
  statusCode res = statusCode res' ->
  resHeaders res = resHeaders res' ->
  emitted res = emitted res' ->
  statusCode (step a res cache).1 = statusCode (step a res' cache').1
  /\ resHeaders (step a res cache).1 = resHeaders (step a res' cache').1
  /\ emitted (step a res cache).1 = emitted (step a res' cache').1.
Proof.
  intros Hs Hh He.
  destruct a as [code|name v|body|body]; cbn [step].
  - cbn. by rewrite Hh, He.
  - cbn. by rewrite Hs, Hh, He.
  - unfold emit. destruct (wrapper res) as [w|]; [destruct (stored w)|];
      (destruct (wrapper res') as [w'|]; [destruct (stored w')|]);
      cbn; by rewrite Hs, Hh, He.
  - unfold emit. destruct (wrapper res) as [w|]; [destruct (stored w)|];
      (destruct (wrapper res') as [w'|]; [destruct (stored w')|]);
      cbn; by rewrite Hs, Hh, He.
Qed.

Lemma runActions_visible acts : forall res res' (cache cache' : gmap string CachedResponse),
  statusCode res = statusCode res' ->
  resHeaders res = resHeaders res' ->
  emitted res = emitted res' ->
  statusCode (runActions acts res cache).1 = statusCode (runActions acts res' cache').1
  /\ resHeaders (runActions acts res cache).1 = resHeaders (runActions acts res' cache').1
  /\ emitted (runActions acts res cache).1 = emitted (runActions acts res' cache').1.
Proof.
  induction acts as [|a acts IH]; intros res res' cache cache' Hs Hh He; [done|].
  cbn [runActions].
  destruct (step_visible a res res' cache cache' Hs Hh He) as (Hs' & Hh' & He').
  destruct (step a res cache) as [r c]. destruct (step a res' cache') as [r' c'].
  by apply IH.
Qed.

(** X9.  The guard captures without altering: the status, the headers and
    everything sent on the response of a first request are what the handler
    would have produced with no guard in front of it. *)
Theorem guard_does_not_alter_the_response
    options clk req handler (cache : gmap string CachedResponse) key :
  method req = "POST" ->
  Js.truthy (Js.trim <$> header req "Idempotency-Key") = Some key ->
  unexpired expiresAt (Date_now clk) (cache !! key) = None ->
  let guarded := response (serve options clk req handler cache) in
  let bare := (runActions (handler req) freshResponse cache).1 in
  statusCode guarded = statusCode bare
  /\ resHeaders guarded = resHeaders bare
  /\ emitted guarded = emitted bare.
Proof.
  intros Hm Hh Hfresh guarded bare. unfold guarded, bare.
  assert (Hkey : requestKey req = Some key).
  { unfold requestKey. by rewrite Hm. }
  rewrite (serve_first _ _ _ _ _ _ Hkey Hfresh). cbv zeta. cbn [response].
  by apply runActions_visible.
Qed.

Lemma guard_does_not_alter_the_response_witness :
  emitted (response (serve Samples.defaultGuard (Samples.at_ 1000)
                       (Samples.post "abc") Samples.createHandler ∅))
  = emitted (runActions (Samples.createHandler (Samples.post "abc"))
               freshResponse ∅).1.
Proof.
  apply (guard_does_not_alter_the_response Samples.defaultGuard (Samples.at_ 1000)
           (Samples.post "abc") Samples.createHandler ∅ "abc").
  - reflexivity.
  - reflexivity.
  - reflexivity.
Defined.

Lemma requestKey_some req key :
  method req = "POST" ->
  Js.truthy (Js.trim <$> header req "Idempotency-Key") = Some key ->
  requestKey req = Some key.
Proof. intros Hm Hh. unfold requestKey. by rewrite Hm. Qed.

(** X10.  Lazy eviction on the request path: a request whose key has a record
    that has expired ([expiresAt <= Date.now()], the boundary included) is
    executed again, and the first thing it sends replaces the old record,
    with a new expiry. *)
Theorem expired_record_is_replaced
    options clk req handler (cache : gmap string CachedResponse)
    key old pre a post sent :
  method req = "POST" ->
  Js.truthy (Js.trim <$> header req "Idempotency-Key") = Some key ->
  cache !! key = Some old ->
  expiresAt old <= Date_now clk ->
  handler req = (pre ++ a :: post)%list ->
  silent pre -> emissionOf a = Some sent ->
  handlerRan (serve options clk req handler cache) = true
  /\ exists fresh,
       cacheAfter (serve options clk req handler cache) !! key = Some fresh
       /\ body fresh = sent
       /\ expiresAt fresh = Date_now clk + ttlOf options.
Proof.
  intros Hm Hh Hold Hexp Hhandler Hpre Ha.
  assert (Hkey := requestKey_some _ _ Hm Hh).
  assert (Hnone : unexpired expiresAt (Date_now clk) (cache !! key) = None).
  { rewrite Hold. cbn [unexpired]. by rewrite (proj2 (Z.leb_le _ _) Hexp). }
  rewrite (serve_first _ _ _ _ _ _ Hkey Hnone). cbv zeta.
  cbn [handlerRan cacheAfter]. split; [done|].
  rewrite Hhandler, (handler_captures_once _ _ _ _ _ _ _ _ Hpre Ha).
  eexists. by rewrite lookup_insert_eq.
Qed.

Lemma expired_record_is_replaced_witness :
  handlerRan (serve Samples.defaultGuard (Samples.at_ 301000) (Samples.post "abc")
                Samples.otherHandler
                {[ "abc" := {| status := 201; headers := ∅;
                               body := Js.VNull; expiresAt := 301000 |} ]}) = true.
Proof.
  apply (expired_record_is_replaced Samples.defaultGuard (Samples.at_ 301000)
           (Samples.post "abc") Samples.otherHandler
           {[ "abc" := {| status := 201; headers := ∅;
                          body := Js.VNull; expiresAt := 301000 |} ]}
           "abc" {| status := 201; headers := ∅; body := Js.VNull;
                    expiresAt := 301000 |}
           [] (Send (Js.VStr "executed twice")) [] (Js.VStr "executed twice")).
  - reflexivity.
  - reflexivity.
  - reflexivity.
  - vm_compute; discriminate.
  - reflexivity.
  - constructor.
  - reflexivity.
Defined.

(** X11.  Only a response makes a record: when the handler of a first request
    neither sends nor answers in JSON, nothing is left under the key, and
    the next request with that key is executed, whenever it comes. *)
Theorem handler_without_response_leaves_no_record
    options clk req handler (cache : gmap string CachedResponse) key :
  method req = "POST" ->
  Js.truthy (Js.trim <$> header req "Idempotency-Key") = Some key ->
  unexpired expiresAt (Date_now clk) (cache !! key) = None ->
  silent (handler req) ->
  cacheAfter (serve options clk req handler cache) !! key = None
  /\ forall options' clk' req' handler',
       method req' = "POST" ->
       Js.truthy (Js.trim <$> header req' "Idempotency-Key") = Some key ->
       handlerRan (serve options' clk' req' handler'
                     (cacheAfter (serve options clk req handler cache))) = true.
Proof.
  intros Hm Hh Hfresh Hsilent.
  assert (Hkey := requestKey_some _ _ Hm Hh).
  assert (Hnone : cacheAfter (serve options clk req handler cache) !! key = None).
  { rewrite (serve_first _ _ _ _ _ _ Hkey Hfresh). cbv zeta. cbn [cacheAfter].
    destruct (runActions_silent (handler req)
                (wrapped key (Date_now clk) (ttlOf options))
                (cleanIfExpired key (Date_now clk) cache) Hsilent) as [_ ->].
    rewrite cleanIfExpired_eq, dropIfExpired_lookup. by rewrite decide_True. }
  split; [exact Hnone|].
  intros options' clk' req' handler' Hm' Hh'.
  rewrite (serve_first _ _ _ _ _ _ (requestKey_some _ _ Hm' Hh')); [done|].
  by rewrite Hnone.
Qed.

Lemma handler_without_response_leaves_no_record_witness :
  cacheAfter (serve Samples.defaultGuard (Samples.at_ 1000) (Samples.post "abc")
                (fun _ => [SetStatus 202]) ∅) !! "abc" = None.
Proof.
  apply (handler_without_response_leaves_no_record Samples.defaultGuard
           (Samples.at_ 1000) (Samples.post "abc") (fun _ => [SetStatus 202]) ∅ "abc").
  - reflexivity.
  - reflexivity.
  - reflexivity.
  - repeat constructor.
Defined.

(** X12.  A replay carries the recorded status and body, and of the headers of
    the first response the content type only, and only when it was a string
    at the moment of the capture; every other header the first response had
    is absent from the replay. *)
Theorem replay_carries_only_the_content_type
    options clk req handler (cache : gmap string CachedResponse) w sent first :
  method req = "POST" ->
  Js.truthy (Js.trim <$> header req "Idempotency-Key") = Some (w_key w) ->
  Date_now clk < w_now w + w_ttlMs w ->
  emitted (response (serve options clk req handler
                       (captureAndStore w sent first cache)))
  = [ {| via := ViaSend;
         em_status := statusCode first;
         em_headers :=
           match resHeaders first !! "content-type" with
           | Some (RString contentType) => {[ "content-type" := RString contentType ]}
           | _ => ∅
           end;
         em_body := sent |} ].
Proof.
  intros Hm Hh Hlive.
  assert (Hkey := requestKey_some _ _ Hm Hh).
  assert (Hrec : captureAndStore w sent first cache !! w_key w
                 = Some (recordOf (w_now w) (w_ttlMs w) first sent)).
  { unfold captureAndStore. by rewrite lookup_insert_eq. }
  rewrite (serve_replays _ _ _ _ _ _ _ Hkey Hrec) by exact Hlive.
  cbn [response emitted]. unfold replayOf, recordedHeaders.
  cbn [recordOf status body headers]. unfold capturedHeaders, getHeader.
  change (Js.toLowerCase "Content-Type") with "content-type".
  destruct (resHeaders first !! "content-type") as [[ct|n|items]|].
  - by rewrite map_to_list_singleton.
  - by rewrite map_to_list_empty.
  - by rewrite map_to_list_empty.
  - by rewrite map_to_list_empty.
Qed.

Lemma replay_carries_only_the_content_type_witness :
  emitted (response
    (serve Samples.defaultGuard (Samples.at_ 2000) (Samples.post "abc")
       Samples.otherHandler
       (captureAndStore
          {| w_key := "abc"; w_now := 1000; w_ttlMs := 300000; stored := false |}
          (Js.VStr "done")
          {| statusCode := 201;
             resHeaders := {[ "x-request-id" := RString "r-1" ]};
             emitted := []; wrapper := None |} ∅)))
  = [ {| via := ViaSend; em_status := 201; em_headers := ∅;
         em_body := Js.VStr "done" |} ].
Proof.
  assert (Hlive : Date_now (Samples.at_ 2000) < 1000 + 300000)
    by (vm_compute; reflexivity).
  exact (replay_carries_only_the_content_type Samples.defaultGuard (Samples.at_ 2000)
           (Samples.post "abc") Samples.otherHandler ∅
           {| w_key := "abc"; w_now := 1000; w_ttlMs := 300000; stored := false |}
           (Js.VStr "done")
           {| statusCode := 201;
              resHeaders := {[ "x-request-id" := RString "r-1" ]};
              emitted := []; wrapper := None |}
           eq_refl eq_refl Hlive).
Defined.

(** X13.  With [ttlMs <= 0] a record is expired as soon as it is written: a
    request with the same key that comes at or after the instant of the
    first is never answered from the cache. *)
Theorem nonpositive_ttl_never_replays
    options clk1 clk2 req1 req2 handler1 handler2
    (cache : gmap string CachedResponse) key :
  ttlOf options <= 0 ->
  method req1 = "POST" ->
  Js.truthy (Js.trim <$> header req1 "Idempotency-Key") = Some key ->
  method req2 = "POST" ->
  Js.truthy (Js.trim <$> header req2 "Idempotency-Key") = Some key ->
  unexpired expiresAt (Date_now clk1) (cache !! key) = None ->
  Date_now clk1 <= Date_now clk2 ->
  handlerRan (serve options clk2 req2 handler2
                (cacheAfter (serve options clk1 req1 handler1 cache))) = true.
Proof.
  intros Httl Hm1 Hh1 Hm2 Hh2 Hfresh Hle.
  assert (Hk1 := requestKey_some _ _ Hm1 Hh1).
  assert (Hk2 := requestKey_some _ _ Hm2 Hh2).
  rewrite (serve_first _ _ _ _ _ _ Hk2); [done|].
  rewrite (serve_first _ _ _ _ _ _ Hk1 Hfresh). cbv zeta. cbn [cacheAfter].
  destruct ((runActions (handler1 req1) (wrapped key (Date_now clk1) (ttlOf options))
               (cleanIfExpired key (Date_now clk1) cache)).2 !! key)
    as [c|] eqn:E; [|done].
  apply handler_stamps_epoch_expiry in E.
  - cbn [unexpired]. by rewrite (proj2 (Z.leb_le _ _)) by lia.
  - rewrite cleanIfExpired_eq, dropIfExpired_lookup. by rewrite decide_True.
Qed.

Lemma nonpositive_ttl_never_replays_witness :
  handlerRan
    (serve {| ttlMs := Some 0 |} (Samples.at_ 1000) (Samples.post "abc")
       Samples.otherHandler
       (cacheAfter (serve {| ttlMs := Some 0 |} (Samples.at_ 1000)
                      (Samples.post "abc") Samples.createHandler ∅))) = true.
Proof.
  apply (nonpositive_ttl_never_replays {| ttlMs := Some 0 |}
           (Samples.at_ 1000) (Samples.at_ 1000)
           (Samples.post "abc") (Samples.post "abc")
           Samples.createHandler Samples.otherHandler ∅ "abc").
  - vm_compute; discriminate.
  - reflexivity.
  - reflexivity.
  - reflexivity.
  - reflexivity.
  - reflexivity.
  - vm_compute; discriminate.
Defined.

End IdempotencyMore.

(* ===================================================================== *)
(** ** Facts about the permission checks                                  *)
(* ===================================================================== *)

Module PermissionFacts.
Import Errors Express Permission.

Lemma includes_spec perms permission :
  includes perms permission = true <-> permission ∈ perms.
Proof.
  unfold includes. rewrite existsb_exists. split.
  - intros (x & Hin & Heq). apply String.eqb_eq in Heq. subst x.
    by apply list_elem_of_In.
  - intros Hin. exists permission. split; [by apply list_elem_of_In|].
    apply String.eqb_refl.
Qed.

(** X14.  [requirePermission] lets a request through exactly when it has a user
    whose permissions contain the required one.  Without a user it passes
    the 401 UNAUTHORIZED error to [next]; with a user who lacks the
    permission (or has no permission list at all) it passes the 403
    FORBIDDEN error.  It never throws. *)
Theorem requirePermission_outcomes permission req :
  (requirePermission permission req = CallNext
   <-> exists u, user req = Some u
                 /\ permission ∈ Js.nullish (Types.permissions u) [])
  /\ (user req = None ->
      requirePermission permission req
      = CallNextWith (ThrownAppError (mkAppError UNAUTHORIZED "Unauthorized" 401 None)))
  /\ (forall u, user req = Some u ->
                permission ∉ Js.nullish (Types.permissions u) [] ->
                requirePermission permission req
                = CallNextWith (ThrownAppError (mkAppError FORBIDDEN "Forbidden" 403 None))).
Proof.
  unfold requirePermission, ensureUser.
  destruct (user req) as [u|] eqn:U.
  - destruct (includes (Js.nullish (Types.permissions u) []) permission) eqn:I;
      cbn [negb].
    + apply includes_spec in I. split; [|split].
      * split; [intros _; by exists u|done].
      * done.
      * intros u' [= <-] Hnot. contradiction.
    + assert (Hnot : permission ∉ Js.nullish (Types.permissions u) []).
      { intros Hin. apply includes_spec in Hin. congruence. }
      split; [|split].
      * split; [done|]. intros (u' & [= <-] & Hin). contradiction.
      * done.
      * done.
  - split; [|split].
    + split; [done|]. intros (u & Hu & _). done.
    + done.
    + intros u Hu. done.
Qed.

Lemma requirePermission_outcomes_witness :
  requirePermission "posts:write" MoreSamples.editor = CallNext
  /\ requirePermission "posts:write" MoreSamples.anonymous
     = CallNextWith (ThrownAppError (mkAppError UNAUTHORIZED "Unauthorized" 401 None)).
Proof.
  destruct (requirePermission_outcomes "posts:write" MoreSamples.editor) as [[_ Hpass] _].
  destruct (requirePermission_outcomes "posts:write" MoreSamples.anonymous) as (_ & Hanon & _).
  split.
  - apply Hpass. eexists. split; [reflexivity|].
    apply list_elem_of_In. vm_compute. right. by left.
  - by apply Hanon.
Defined.

Lemma has_spec (owned : list string) perm :
  bool_decide (perm ∈ (list_to_set owned : gset string)) = true <-> perm ∈ owned.
Proof. rewrite bool_decide_eq_true. apply elem_of_list_to_set. Qed.

Lemma some_has_spec (owned permissions : list string) :
  existsb (fun perm => bool_decide (perm ∈ (list_to_set owned : gset string)))
    permissions = true
  <-> exists perm, perm ∈ permissions /\ perm ∈ owned.
Proof.
  rewrite existsb_exists. split.
  - intros (x & Hin & Hx). exists x. split; [by apply list_elem_of_In|].
    by apply has_spec.
  - intros (x & Hin & Hx). exists x. split; [by apply list_elem_of_In|].
    by apply has_spec.
Qed.

(** X15.  [requireAnyPermission] lets a request through exactly when it has a
    user who holds at least one of the listed permissions.  The empty list
    is checked first: with it every request gets 403 FORBIDDEN, a request
    without a user included; with a non-empty list a request without a user
    gets 401 UNAUTHORIZED. *)
Theorem requireAnyPermission_outcomes permissions req :
  (requireAnyPermission permissions req = CallNext
   <-> exists u, user req = Some u
                 /\ exists perm, perm ∈ permissions
                                 /\ perm ∈ Js.nullish (Types.permissions u) [])
  /\ (permissions = [] ->
      requireAnyPermission permissions req
      = CallNextWith (ThrownAppError (mkAppError FORBIDDEN "Forbidden" 403 None)))
  /\ (permissions <> [] -> user req = None ->
      requireAnyPermission permissions req
      = CallNextWith (ThrownAppError (mkAppError UNAUTHORIZED "Unauthorized" 401 None))).
Proof.
  unfold requireAnyPermission, ensureUser.
  destruct permissions as [|p ps].
  - cbn. split; [|split]; [|done|done].
    split; [done|]. intros (u & _ & perm & Hin & _). by apply elem_of_nil in Hin.
  - cbn [length Nat.eqb].
    destruct (user req) as [u|] eqn:U.
    + destruct (existsb _ (p :: ps)) eqn:S; cbn [negb].
      * apply some_has_spec in S. split; [|split]; [|done|done].
        split; [intros _; by exists u|done].
      * split; [|split]; [|done|done].
        split; [done|]. intros (u' & [= <-] & Hex).
        apply some_has_spec in Hex. congruence.
    + split; [|split]; [|done|done].
      split; [done|]. intros (u & Hu & _). done.
Qed.

Lemma requireAnyPermission_outcomes_witness :
  requireAnyPermission [] MoreSamples.anonymous
  = CallNextWith (ThrownAppError (mkAppError FORBIDDEN "Forbidden" 403 None))
  /\ requireAnyPermission ["admin"] MoreSamples.anonymous
     = CallNextWith (ThrownAppError (mkAppError UNAUTHORIZED "Unauthorized" 401 None)).
Proof.
  destruct (requireAnyPermission_outcomes [] MoreSamples.anonymous) as (_ & Hempty & _).
  destruct (requireAnyPermission_outcomes ["admin"] MoreSamples.anonymous) as (_ & _ & Hanon).
  split; [by apply Hempty|]. apply Hanon; [discriminate|reflexivity].
Defined.

(** X16.  The two checks agree: asking for any of a one-element list is asking
    for that permission; and only the set of listed permissions matters,
    not their order or repetitions. *)
Theorem requireAnyPermission_agrees_with_requirePermission req :
  (forall permission,
     requireAnyPermission [permission] req = requirePermission permission req)
  /\ (forall ps qs, (forall perm, perm ∈ ps <-> perm ∈ qs) ->
                    requireAnyPermission ps req = requireAnyPermission qs req).
Proof.
  split.
  - intros permission. unfold requireAnyPermission, requirePermission. cbn [length Nat.eqb].
    destruct (ensureUser req) as [u|err]; [|done].
    assert (E : existsb (fun perm => bool_decide
                 (perm ∈ (list_to_set (Js.nullish (Types.permissions u) []) : gset string)))
                 [permission]
               = includes (Js.nullish (Types.permissions u) []) permission).
    { apply eq_true_iff_eq. rewrite some_has_spec, includes_spec. split.
      - intros (perm & Hin & Hown). apply list_elem_of_singleton in Hin. by subst.
      - intros Hown. exists permission. split; [|done]. by apply list_elem_of_singleton. }
    by rewrite E.
  - intros ps qs Hsame. unfold requireAnyPermission.
    destruct ps as [|p ps]; destruct qs as [|q qs]; cbn [length Nat.eqb]; try done.
    + exfalso. eapply elem_of_nil, Hsame, elem_of_cons. by left.
    + exfalso. eapply elem_of_nil, Hsame, elem_of_cons. by left.
    + destruct (ensureUser req) as [u|err]; [|done].
      assert (E : existsb (fun perm => bool_decide
                   (perm ∈ (list_to_set (Js.nullish (Types.permissions u) []) : gset string)))
                   (p :: ps)
                 = existsb (fun perm => bool_decide
                   (perm ∈ (list_to_set (Js.nullish (Types.permissions u) []) : gset string)))
                   (q :: qs)).
      { apply eq_true_iff_eq. rewrite !some_has_spec. split.
        - intros (perm & Hin & Hown). exists perm. split; [by apply Hsame|done].
        - intros (perm & Hin & Hown). exists perm. split; [by apply Hsame|done]. }
      by rewrite E.
Qed.

Lemma requireAnyPermission_agrees_with_requirePermission_witness :
  requireAnyPermission ["posts:write"; "admin"] MoreSamples.editor
  = requireAnyPermission ["admin"; "posts:write"; "admin"] MoreSamples.editor.
Proof.
  apply (requireAnyPermission_agrees_with_requirePermission MoreSamples.editor).
  intros perm. rewrite !elem_of_cons. rewrite !elem_of_nil. tauto.
Defined.

End PermissionFacts.

(* ===================================================================== *)
(** ** Facts about the error handler                                      *)
(* ===================================================================== *)

Module ErrorHandlerFacts.
Import Errors Express ErrorHandler.
Import Idempotency IdempotencySpec IdempotencyFacts ExpiringStore.

(** One more thing is sent on the response, in JSON, and nothing that was
    sent before changes. *)
Lemma emit_appends kind sent res (cache : gmap string CachedResponse) :
  emitted (emit kind sent res cache).1
  = (emitted res ++ [ {| via := kind; em_status := statusCode res;
                         em_headers := resHeaders res; em_body := sent |} ])%list.
Proof.
  unfold emit. destruct (wrapper res) as [w|]; [destruct (stored w)|]; done.
Qed.

(** X17.  An error that is not an [AppError] and has no status, or a status of
    500 or more, is answered with that status (500 when it has none), the
    code INTERNAL_ERROR and the fixed message "Internal Server Error":
    neither its own message nor any detail of it reaches the client. *)
Theorem unclassified_failure_is_answered_without_its_message
    e req res (cache : gmap string CachedResponse) :
  500 <= Js.nullish (e_status e) 500 ->
  emitted (errorHandler (ThrownObject e) req res cache).1
  = (emitted res ++
     [ {| via := ViaJson;
          em_status := Js.nullish (e_status e) 500;
          em_headers := resHeaders res;
          em_body :=
            Js.VObj [("success", Js.VBool false);
                     ("code", Js.VStr "INTERNAL_ERROR");
                     ("message", Js.VStr "Internal Server Error");
                     ("traceId", match correlationId req with
                                 | Some id => Js.VStr id
                                 | None => Js.VUndefined
                                 end);
                     ("details", Js.VUndefined)] |} ])%list.
Proof.
  intros Hs. unfold errorHandler. cbv zeta. rewrite emit_appends.
  rewrite (proj2 (Z.leb_le _ _) Hs). cbn [res_status statusCode resHeaders emitted].
  by destruct (correlationId req).
Qed.

Lemma unclassified_failure_is_answered_without_its_message_witness :
  emitted (errorHandler
             (ThrownObject (Samples.systemError "connect ECONNREFUSED 10.1.2.3:5432"
                              "ECONNREFUSED"))
             MoreSamples.anonymous freshResponse ∅).1
  = [ {| via := ViaJson; em_status := 500; em_headers := ∅;
         em_body :=
           Js.VObj [("success", Js.VBool false);
                    ("code", Js.VStr "INTERNAL_ERROR");
                    ("message", Js.VStr "Internal Server Error");
                    ("traceId", Js.VStr "trace-1");
                    ("details", Js.VUndefined)] |} ].
Proof.
  apply (unclassified_failure_is_answered_without_its_message
           (Samples.systemError "connect ECONNREFUSED 10.1.2.3:5432" "ECONNREFUSED")
           MoreSamples.anonymous freshResponse ∅).
  vm_compute; discriminate.
Defined.

(** An [AppError] with a message is answered with its own status, code,
    message and details, and the correlation identifier of the request as
    [traceId]. *)
Theorem appError_is_answered_as_it_is
    e req res (cache : gmap string CachedResponse) :
  Errors.message e <> "" ->
  emitted (errorHandler (ThrownAppError e) req res cache).1
  = (emitted res ++
     [ {| via := ViaJson;
          em_status := Errors.status e;
          em_headers := resHeaders res;
          em_body :=
            Js.VObj [("success", Js.VBool false);
                     ("code", Js.VStr (HttpClient.errorCodeName (Errors.code e)));
                     ("message", Js.VStr (Errors.message e));
                     ("traceId", match correlationId req with
                                 | Some id => Js.VStr id
                                 | None => Js.VUndefined
                                 end);
                     ("details", match Errors.details e with
                                 | Some d => d
                                 | None => Js.VUndefined
                                 end)] |} ])%list.
Proof.
  intros Hm. unfold errorHandler. cbv zeta. rewrite emit_appends.
  cbn [res_status statusCode resHeaders emitted].
  destruct (Errors.message e) as [|c m] eqn:M; [done|]. cbn [Js.truthy].
  by destruct (correlationId req), (Errors.details e).
Qed.

Lemma appError_is_answered_as_it_is_witness :
  emitted (errorHandler
             (ThrownAppError (mkAppError NOT_FOUND "User not found" 404
                                (Some (Js.VObj [("userId", Js.VStr "123")]))))
             MoreSamples.anonymous freshResponse ∅).1
  = [ {| via := ViaJson; em_status := 404; em_headers := ∅;
         em_body :=
           Js.VObj [("success", Js.VBool false);
                    ("code", Js.VStr "NOT_FOUND");
                    ("message", Js.VStr "User not found");
                    ("traceId", Js.VStr "trace-1");
                    ("details", Js.VObj [("userId", Js.VStr "123")])] |} ].
Proof.
  apply (appError_is_answered_as_it_is
           (mkAppError NOT_FOUND "User not found" 404
              (Some (Js.VObj [("userId", Js.VStr "123")])))
           MoreSamples.anonymous freshResponse ∅).
  discriminate.
Defined.

(** X18.  A denial of the rate limiter, handed to the error handler, reaches the
    client as status 429 with the code FORBIDDEN and the message of the
    limiter; a limiter configured with the empty message is answered with
    "Bad Request". *)
Theorem denial_is_answered_with_429
    options clk req (store : gmap string RateLimit.Entry) e
    res (cache : gmap string CachedResponse) :
  (RateLimit.rateLimit options clk (base req) store).1 = Http.NextError e ->
  emitted (errorHandler (ThrownAppError e) req res cache).1
  = (emitted res ++
     [ {| via := ViaJson;
          em_status := 429;
          em_headers := resHeaders res;
          em_body :=
            Js.VObj [("success", Js.VBool false);
                     ("code", Js.VStr "FORBIDDEN");
                     ("message",
                      Js.VStr (if String.eqb (RateLimitSpec.messageOf options) ""
                               then "Bad Request"
                               else RateLimitSpec.messageOf options));
                     ("traceId", match correlationId req with
                                 | Some id => Js.VStr id
                                 | None => Js.VUndefined
                                 end);
                     ("details", Js.VUndefined)] |} ])%list.
Proof.
  intros Hdeny.
  assert (He : e = mkAppError FORBIDDEN (RateLimitSpec.messageOf options) 429 None).
  { destruct (RateLimitSpec.generatedKey options (base req)) as [key|thrown] eqn:Hkey.
    - rewrite (RateLimitFacts.rateLimit_cases _ _ _ _ _ Hkey) in Hdeny.
      destruct (unexpired _ _ _) as [entry|]; [|done].
      destruct (_ <=? _); cbn [fst] in Hdeny; [|done].
      unfold RateLimitSpec.denial in Hdeny. by injection Hdeny as <-.
    - unfold RateLimit.rateLimit in Hdeny. unfold RateLimitSpec.generatedKey in Hkey.
      by rewrite Hkey in Hdeny. }
  subst e. unfold errorHandler. cbv zeta. rewrite emit_appends.
  cbn [res_status statusCode resHeaders emitted Errors.status Errors.code
         Errors.message Errors.details HttpClient.errorCodeName orUndefined].
  destruct (RateLimitSpec.messageOf options) as [|c m]; cbn;
    by destruct (correlationId req).
Qed.

Lemma denial_is_answered_with_429_witness :
  emitted (errorHandler
             (ThrownAppError (mkAppError FORBIDDEN "Too many requests" 429 None))
             MoreSamples.anonymous freshResponse ∅).1
  = [ {| via := ViaJson; em_status := 429; em_headers := ∅;
         em_body :=
           Js.VObj [("success", Js.VBool false);
                    ("code", Js.VStr "FORBIDDEN");
                    ("message", Js.VStr "Too many requests");
                    ("traceId", Js.VStr "trace-1");
                    ("details", Js.VUndefined)] |} ].
Proof.
  exact (denial_is_answered_with_429 (Samples.limiter 1 60000) (Samples.at_ 2000)
           MoreSamples.anonymous
           {[ "10.0.0.1" := {| RateLimit.count := 1; RateLimit.expiresAt := 61000 |} ]}
           (mkAppError FORBIDDEN "Too many requests" 429 None)
           freshResponse ∅ eq_refl).
Defined.

(** X19.  Failures are recorded like any other response.  When the route of a
    first request fails and the error handler answers on its response, the
    guard records that answer; a request with the same key that comes before
    the record expires gets the status and the body of the failure again,
    and is not executed. *)
Theorem failure_is_recorded_and_replayed
    options clk1 clk2 req1 req2 err handler2
    (cache : gmap string CachedResponse) key :
  Http.method (base req1) = "POST" ->
  Js.truthy (Js.trim <$> Http.header (base req1) "Idempotency-Key") = Some key ->
  Http.method req2 = "POST" ->
  Js.truthy (Js.trim <$> Http.header req2 "Idempotency-Key") = Some key ->
  unexpired expiresAt (Http.Date_now clk1) (cache !! key) = None ->
  Http.Date_now clk2 < Http.Date_now clk1 + ttlOf options ->
  let entered := idempotencyMiddleware options clk1 (base req1) freshResponse cache in
  let failed := errorHandler err req1 entered.1.2 entered.2 in
  let second := serve options clk2 req2 handler2 failed.2 in
  entered.1.1 = Http.Next
  /\ exists answer,
       emitted failed.1 = [answer]
       /\ handlerRan second = false
       /\ emitted (response second)
          = [ {| via := ViaSend; em_status := em_status answer;
                 em_headers := ∅; em_body := em_body answer |} ].
Proof.
  intros Hm1 Hh1 Hm2 Hh2 Hfresh Hlive entered failed second.
  assert (Hk1 : requestKey (base req1) = Some key) by (unfold requestKey; by rewrite Hm1).
  assert (Hk2 : requestKey req2 = Some key) by (unfold requestKey; by rewrite Hm2).
  subst second failed entered.
  rewrite (middleware_cases _ _ _ _ _ _ Hk1), Hfresh.
  cbn [fst snd]. split; [done|].
  unfold errorHandler. cbv zeta.
  set (status := match err with
                 | ThrownAppError e => Errors.status e
                 | ThrownObject e => Js.nullish (e_status e) 500
                 end).
  match goal with
  | |- context [emit ViaJson ?b _ _] => set (sent := b)
  end.
  unfold emit. cbn [install res_status wrapper stored fst snd original markStored
                      emitted freshResponse statusCode resHeaders app].
  eexists. split; [reflexivity|].
  rewrite (serve_replays _ _ _ _ _ _
             (recordOf (Http.Date_now clk1) (ttlOf options)
                (res_status status
                   (install key (Http.Date_now clk1) (ttlOf options) freshResponse))
                sent) Hk2).
  - cbn [handlerRan response emitted]. split; [done|].
    unfold replayOf, recordedHeaders, recordOf, capturedHeaders, getHeader.
    cbn [headers Idempotency.status body res_status install freshResponse
           resHeaders statusCode em_status em_body].
    by rewrite lookup_empty, map_to_list_empty.
  - unfold captureAndStore. cbn [w_key]. apply lookup_insert_eq.
  - cbn. exact Hlive.
Qed.

Lemma failure_is_recorded_and_replayed_witness :
  handlerRan
    (serve Samples.defaultGuard (Samples.at_ 2000) (Samples.post "abc")
       Samples.otherHandler
       (errorHandler
          (ThrownAppError (mkAppError CONFLICT "Already exists" 409 None))
          {| base := Samples.post "abc"; user := None; tenantId := None;
             correlationId := None |}
          (idempotencyMiddleware Samples.defaultGuard (Samples.at_ 1000)
             (Samples.post "abc") freshResponse ∅).1.2
          (idempotencyMiddleware Samples.defaultGuard (Samples.at_ 1000)
             (Samples.post "abc") freshResponse ∅).2).2)
  = false.
Proof.
  assert (Hlive : Http.Date_now (Samples.at_ 2000)
                  < Http.Date_now (Samples.at_ 1000) + ttlOf Samples.defaultGuard)
    by (vm_compute; reflexivity).
  assert (Hfresh : unexpired expiresAt (Http.Date_now (Samples.at_ 1000))
                     ((∅ : gmap string CachedResponse) !! "abc") = None)
    by reflexivity.
  destruct (failure_is_recorded_and_replayed Samples.defaultGuard
              (Samples.at_ 1000) (Samples.at_ 2000)
              {| base := Samples.post "abc"; user := None; tenantId := None;
                 correlationId := None |}
              (Samples.post "abc")
              (ThrownAppError (mkAppError CONFLICT "Already exists" 409 None))
              Samples.otherHandler ∅ "abc"
              eq_refl eq_refl eq_refl eq_refl Hfresh Hlive)
    as (_ & answer & _ & Hran & _).
  exact Hran.
Defined.

End ErrorHandlerFacts.

(* ===================================================================== *)
(** ** Facts about the sweep timer                                        *)
(* ===================================================================== *)

Module CleanupTimerFacts.
Import CleanupTimer.

Lemma idle_coherent h : idle h -> coherent h h.
Proof.
  intros (Hnone & Hno & Hfresh). split; [exact Hfresh|]. split; [|done].
  intros handle. rewrite Hnone. split; [intros H; by apply Hno in H|done].
Qed.

Lemma run_coherent c h0 h : coherent h0 h -> coherent h0 (run c h).
Proof.
  intros (Hfresh & Hsweep & Hforeign).
  destruct c as [intervalMs|]; cbn [run].
  - unfold startCacheCleanup. destruct (cleanupIntervalHandle h) as [id|] eqn:Hh.
    + split; [exact Hfresh|]. split; [|exact Hforeign].
      intros handle. unfold sweeps. cbn. rewrite <- Hsweep. done.
    + assert (Hnew : intervals h !! nextHandle h = None).
      { destruct (intervals h !! nextHandle h) eqn:E; [|done].
        assert (nextHandle h < nextHandle h) by (apply Hfresh; by rewrite E). lia. }
      split; [|split].
      * intros handle. cbn. rewrite lookup_insert. case_decide as Hd.
        -- intros _. lia.
        -- intros H. apply Hfresh in H. lia.
      * intros handle. unfold sweeps. cbn. rewrite lookup_insert.
        case_decide as Hd.
        -- subst handle. split; [done|]. intros _. by eexists.
        -- split.
           ++ intros H. apply Hsweep in H. congruence.
           ++ intros [= ?]. congruence.
      * intros handle interval Hf. cbn. rewrite lookup_insert. case_decide as Hd.
        -- subst handle. split.
           ++ intros [= <-]. done.
           ++ intros H. apply Hforeign in H; [|done]. congruence.
        -- by apply Hforeign.
  - unfold stopCacheCleanup. destruct (cleanupIntervalHandle h) as [id|] eqn:Hh.
    + split; [|split].
      * intros handle. cbn. rewrite lookup_delete. case_decide; [by intros []|].
        apply Hfresh.
      * intros handle. unfold sweeps. cbn. rewrite lookup_delete. case_decide as Hd.
        -- split; [by intros (? & ? & _)|done].
        -- split; [|done]. intros H. apply Hsweep in H. congruence.
      * intros handle interval Hf. cbn. rewrite lookup_delete. case_decide as Hd.
        -- subst handle. split; [done|]. intros H. apply Hforeign in H; [|done].
           assert (Hs : sweeps h id) by by apply Hsweep.
           destruct Hs as (iv & Hiv & Hc). congruence.
        -- by apply Hforeign.
    + split; [exact Hfresh|]. split; [|exact Hforeign].
      intros handle. rewrite Hh. apply Hsweep.
Qed.

Lemma runAll_coherent cs : forall h0 h, coherent h0 h -> coherent h0 (runAll cs h).
Proof.
  induction cs as [|c cs IH]; intros h0 h Hc; [done|].
  cbn. apply IH. by apply run_coherent.
Qed.

(** X20.  Whatever the hosting code does with [startCacheCleanup] and
    [stopCacheCleanup], in any order and any number of times, at most one
    interval of the process calls the sweep: it exists exactly while the
    module holds its handle, and the other intervals of the process are
    never touched. *)
Theorem at_most_one_sweep_timer h0 cs :
  idle h0 ->
  let h := runAll cs h0 in
  (forall a b, sweeps h a -> sweeps h b -> a = b)
  /\ (forall a, sweeps h a <-> cleanupIntervalHandle h = Some a)
  /\ (forall handle interval,
        callsCleanup interval = false ->
        (intervals h !! handle = Some interval
         <-> intervals h0 !! handle = Some interval)).
Proof.
  intros Hidle h.
  destruct (runAll_coherent cs h0 h0 (idle_coherent h0 Hidle))
    as (_ & Hsweep & Hforeign).
  split; [|split; [exact Hsweep|exact Hforeign]].
  intros a b Ha Hb. apply Hsweep in Ha, Hb. fold h in Ha, Hb. congruence.
Qed.

Lemma busyHost_idle : idle MoreSamples.busyHost.
Proof.
  split; [reflexivity|]. split.
  - intros handle (interval & Hi & Hc). unfold MoreSamples.busyHost in Hi. cbn in Hi.
    apply lookup_insert_Some in Hi as [[_ <-]|[_ Hi]]; [discriminate Hc|].
    apply lookup_singleton_Some in Hi as [_ <-]. discriminate Hc.
  - intros handle [interval Hi]. unfold MoreSamples.busyHost in Hi. cbn in *.
    apply lookup_insert_Some in Hi as [[<- _]|[_ Hi]]; [lia|].
    apply lookup_singleton_Some in Hi as [<- _]. lia.
Qed.

Lemma at_most_one_sweep_timer_witness :
  sweeps (runAll [Start None; Start (Some 1000); Stop; Start (Some 50)]
            MoreSamples.busyHost) 4
  <-> cleanupIntervalHandle
        (runAll [Start None; Start (Some 1000); Stop; Start (Some 50)]
           MoreSamples.busyHost) = Some 4.
Proof.
  apply (at_most_one_sweep_timer MoreSamples.busyHost
           [Start None; Start (Some 1000); Stop; Start (Some 50)] busyHost_idle).
Defined.

(** X21.  Starting and then stopping gives back the table of intervals as it
    was, with no handle held; and a stop with no timer running changes
    nothing at all. *)
Theorem stop_undoes_start intervalMs h :
  idle h ->
  intervals (stopCacheCleanup (startCacheCleanup intervalMs h)) = intervals h
  /\ cleanupIntervalHandle (stopCacheCleanup (startCacheCleanup intervalMs h)) = None
  /\ stopCacheCleanup h = h.
Proof.
  intros (Hnone & _ & Hfresh).
  unfold stopCacheCleanup, startCacheCleanup. rewrite Hnone. cbn.
  split; [|done]. rewrite delete_insert_eq. apply delete_id.
  destruct (intervals h !! nextHandle h) eqn:E; [|done].
  assert (nextHandle h < nextHandle h) by (apply Hfresh; by rewrite E). lia.
Qed.

Lemma stop_undoes_start_witness :
  intervals (stopCacheCleanup (startCacheCleanup (Some 1000) MoreSamples.busyHost))
  = intervals MoreSamples.busyHost.
Proof.
  apply (stop_undoes_start (Some 1000) MoreSamples.busyHost busyHost_idle).
Defined.

End CleanupTimerFacts.

(* ===================================================================== *)
(** ** More about the HTTP client                                         *)
(* ===================================================================== *)

Module HttpClientMore.
Import Errors HttpClient HttpClientSpec HttpClientFacts HttpClientApi.

Lemma tryBlock_server_error url shouldRetry maxAttempts retryDelay attempt
    response payload :
  ok response = false ->
  readBody response = Normal payload ->
  500 <= r_status response ->
  tryBlock url shouldRetry maxAttempts retryDelay attempt (Resolved response)
  = if shouldRetry && (attempt <? maxAttempts) && negb (r_status response =? 501)
    then Continue (ThrownObject (httpError response payload)) (retryDelay * attempt)
    else Raise (dependencyFailed url response).
Proof.
  intros Hok Hbody Hs. unfold tryBlock. rewrite Hbody, Hok. cbn [negb].
  rewrite isRetryableError_httpError, (proj2 (Z.leb_le _ _) Hs). cbn [andb].
  by destruct (shouldRetry && (attempt <? maxAttempts)
               && negb (r_status response =? 501)).
Qed.

(** X22.  A response that is not [ok], of status 500 or more, and whose body
    can be read (reading it as JSON or as text, as its content type says,
    does not throw), received on an attempt of the loop that is not retried
    (the method is not retryable, or no attempt is left, or the status is
    501), ends the loop there with the dependency failure: INTERNAL_ERROR,
    status 503, the status text in the message, the URL and the original
    status in the details.  The body of the response is not kept.  (When
    reading the body throws, the thrown value takes the exception path
    instead, see [unreadable_body_takes_the_exception_path].) *)
Theorem unretried_server_error_is_a_dependency_failure
    net url shouldRetry maxAttempts retryDelay fuel attempt lastError
    response payload :
  attempt <= maxAttempts ->
  net attempt = Resolved response ->
  ok response = false ->
  readBody response = Normal payload ->
  500 <= r_status response ->
  shouldRetry && (attempt <? maxAttempts) && negb (r_status response =? 501) = false ->
  attempts net url shouldRetry maxAttempts retryDelay (S fuel) attempt lastError
  = Some (Throw (ThrownAppError
                   (mkAppError INTERNAL_ERROR
                      ("Dependency service failed: " ++ statusText response)%string
                      503
                      (Some (Js.VObj [("url", Js.VStr url);
                                      ("status", Js.VNum (r_status response))])))),
          [Fetch attempt]).
Proof.
  intros Hle Hnet Hok Hbody Hs Hnot.
  rewrite attempts_last by done.
  by rewrite Hnet, (tryBlock_server_error _ _ _ _ _ _ _ Hok Hbody Hs), Hnot.
Qed.

Lemma unretried_server_error_is_a_dependency_failure_witness :
  attempts (Samples.always (Resolved Samples.unavailable))
    "https://api.example.com/data" false 1 1000 1 1 None
  = Some (Throw (ThrownAppError
                   (mkAppError INTERNAL_ERROR
                      "Dependency service failed: Service Unavailable" 503
                      (Some (Js.VObj [("url", Js.VStr "https://api.example.com/data");
                                      ("status", Js.VNum 503)])))),
          [Fetch 1]).
Proof.
  apply (unretried_server_error_is_a_dependency_failure
           (Samples.always (Resolved Samples.unavailable))
           "https://api.example.com/data" false 1 1000 0 1 None
           Samples.unavailable (Js.VObj [])).
  - vm_compute; discriminate.
  - reflexivity.
  - reflexivity.
  - reflexivity.
  - vm_compute; discriminate.
  - reflexivity.
Defined.

(** X23.  Status 501 is never retried: whatever the method and the retries
    (as long as the call makes an attempt at all), a call whose first answer
    is a response that is not [ok], of status 501, and whose body can be
    read (reading it as JSON or as text does not throw) makes one call of
    the network layer and throws the dependency failure. *)
Theorem not_implemented_is_never_retried
    net method url options response payload :
  1 <= maxAttemptsOf method options ->
  net 1 = Resolved response ->
  ok response = false ->
  readBody response = Normal payload ->
  r_status response = 501 ->
  httpRequest net method url options
  = Some (Throw (dependencyFailed url response), [Fetch 1]).
Proof.
  intros Hmax Hnet Hok Hbody Hs. rewrite httpRequest_eq.
  replace (Z.to_nat (maxAttemptsOf method options))
    with (S (Z.to_nat (maxAttemptsOf method options - 1))) by lia.
  rewrite attempts_last by done.
  rewrite Hnet, (tryBlock_server_error _ _ _ _ _ _ _ Hok Hbody) by lia.
  rewrite Hs. cbn [Z.eqb Pos.eqb negb]. by rewrite andb_false_r.
Qed.

Lemma not_implemented_is_never_retried_witness :
  httpRequest
    (Samples.always (Resolved (Samples.jsonResponse false 501 "Not Implemented"
                                 (Js.VObj []))))
    "GET" "https://api.example.com/data" (Samples.twoRetries 10)
  = Some (Throw (dependencyFailed "https://api.example.com/data"
                   (Samples.jsonResponse false 501 "Not Implemented" (Js.VObj []))),
          [Fetch 1]).
Proof.
  apply (not_implemented_is_never_retried
           (Samples.always (Resolved (Samples.jsonResponse false 501 "Not Implemented"
                                        (Js.VObj []))))
           "GET" "https://api.example.com/data" (Samples.twoRetries 10)
           (Samples.jsonResponse false 501 "Not Implemented" (Js.VObj []))
           (Js.VObj [])).
  - vm_compute; discriminate.
  - reflexivity.
  - reflexivity.
  - reflexivity.
  - reflexivity.
Defined.

Lemma persistent_failure_from net url maxAttempts retryDelay again :
  forall attempt lastError,
  attempt + Z.of_nat again = maxAttempts ->
  (forall a, attempt <= a <= maxAttempts ->
             exists response, net a = Resolved response /\ retryableFailure response) ->
  exists response,
    net maxAttempts = Resolved response
    /\ attempts net url true maxAttempts retryDelay (S again) attempt lastError
       = Some (Throw (dependencyFailed url response),
               backoff retryDelay attempt again).
Proof.
  induction again as [|again IH]; intros attempt lastError Hsum Hfail.
  - assert (attempt = maxAttempts) by lia. subst attempt.
    destruct (Hfail maxAttempts) as (response & Hnet & Hok & (payload & Hbody) & Hs & _);
      [lia|].
    exists response. split; [done|]. rewrite attempts_last by lia.
    rewrite Hnet, (tryBlock_server_error _ _ _ _ _ _ _ Hok Hbody Hs).
    rewrite Z.ltb_irrefl. by rewrite andb_false_r.
  - destruct (Hfail attempt) as (response & Hnet & Hok & (payload & Hbody) & Hs & Hs');
      [lia|].
    rewrite attempts_last by lia.
    rewrite Hnet, (tryBlock_server_error _ _ _ _ _ _ _ Hok Hbody Hs).
    rewrite (proj2 (Z.ltb_lt _ _)) by lia.
    rewrite (proj2 (Z.eqb_neq _ _) Hs'). cbn [andb negb].
    destruct (IH (attempt + 1) (Some (ThrownObject (httpError response payload))))
      as (final & Hfinal & ->); [lia| |].
    + intros a Ha. apply Hfail. lia.
    + by exists final.
Qed.

(** X24.  A dependency that keeps failing: when every attempt of a call with a
    retryable method and retries that are not negative is answered by a
    response that is not [ok], has a
    status of 500 or more other than 501, and a body that can be read
    (reading it as JSON or as text does not throw), the client makes exactly
    [retries + 1] calls of the network layer, sleeps [retryDelay * n] after
    the n-th, and throws the dependency failure built from the last
    response. *)
Theorem persistent_server_error_uses_every_attempt net method url options :
  isRetryableMethod method = true ->
  0 <= retriesOf options ->
  (forall a, 1 <= a <= retriesOf options + 1 ->
             exists response payload,
               net a = Resolved response
               /\ ok response = false
               /\ readBody response = Normal payload
               /\ 500 <= r_status response
               /\ r_status response <> 501) ->
  exists response,
    net (retriesOf options + 1) = Resolved response
    /\ httpRequest net method url options
       = Some (Throw (ThrownAppError
                        (mkAppError INTERNAL_ERROR
                           ("Dependency service failed: " ++ statusText response)%string
                           503
                           (Some (Js.VObj [("url", Js.VStr url);
                                           ("status", Js.VNum (r_status response))])))),
               backoff (retryDelayOf options) 1 (Z.to_nat (retriesOf options)))
    /\ invocations (backoff (retryDelayOf options) 1 (Z.to_nat (retriesOf options)))
       = retriesOf options + 1.
Proof.
  intros Hretry Hretries Hfail. rewrite httpRequest_eq.
  unfold maxAttemptsOf. rewrite Hretry.
  replace (Z.to_nat (retriesOf options + 1))
    with (S (Z.to_nat (retriesOf options))) by lia.
  destruct (persistent_failure_from net url (retriesOf options + 1)
              (retryDelayOf options) (Z.to_nat (retriesOf options)) 1 None)
    as (response & Hnet & Hrun); [lia| |].
  - intros a Ha.
    destruct (Hfail a Ha) as (response & payload & Hnet & Hok & Hbody & Hs & Hs').
    exists response. split; [done|]. split; [done|]. split; [by exists payload|done].
  - exists response. split; [done|]. split; [exact Hrun|].
    rewrite invocations_backoff. lia.
Qed.

Lemma persistent_server_error_uses_every_attempt_witness :
  exists response,
    Samples.always (Resolved Samples.unavailable) (retriesOf (Samples.twoRetries 10) + 1)
    = Resolved response
    /\ httpRequest (Samples.always (Resolved Samples.unavailable)) "GET"
         "https://api.example.com/data" (Samples.twoRetries 10)
       = Some (Throw (ThrownAppError
                        (mkAppError INTERNAL_ERROR
                           ("Dependency service failed: " ++ statusText response)%string
                           503
                           (Some (Js.VObj
                                    [("url", Js.VStr "https://api.example.com/data");
                                     ("status", Js.VNum (r_status response))])))),
               backoff (retryDelayOf (Samples.twoRetries 10)) 1
                 (Z.to_nat (retriesOf (Samples.twoRetries 10))))
    /\ invocations (backoff (retryDelayOf (Samples.twoRetries 10)) 1
                      (Z.to_nat (retriesOf (Samples.twoRetries 10))))
       = retriesOf (Samples.twoRetries 10) + 1.
Proof.
  apply (persistent_server_error_uses_every_attempt
           (Samples.always (Resolved Samples.unavailable)) "GET"
           "https://api.example.com/data" (Samples.twoRetries 10)).
  - reflexivity.
  - vm_compute; discriminate.
  - intros a _. exists Samples.unavailable, (Js.VObj []).
    split; [reflexivity|]. split; [reflexivity|]. split; [reflexivity|].
    split; [vm_compute; discriminate|vm_compute; discriminate].
Defined.

Lemma catchBlock_object url shouldRetry maxAttempts retryDelay attempt e :
  catchBlock url shouldRetry maxAttempts retryDelay attempt (ThrownObject e)
  = if shouldRetry && (attempt <? maxAttempts) && isRetryableError (ThrownObject e)
    then Continue (ThrownObject e) (retryDelay * attempt)
    else Raise (classified url e).
Proof.
  unfold catchBlock, classified, serviceUnavailable. cbn [codeOf nameOf messageOf].
  destruct (shouldRetry && (attempt <? maxAttempts)
            && isRetryableError (ThrownObject e)); [done|].
  by destruct (strictEq (e_code e) "ECONNREFUSED" || strictEq (e_code e) "ENOTFOUND"
               || strictEq (e_name e) "AbortError").
Qed.

Lemma persistent_exception_from net url maxAttempts retryDelay again :
  forall attempt lastError,
  attempt + Z.of_nat again = maxAttempts ->
  (forall a, attempt <= a <= maxAttempts ->
             exists e, net a = Rejected (ThrownObject e)
                       /\ isRetryableError (ThrownObject e) = true) ->
  exists e,
    net maxAttempts = Rejected (ThrownObject e)
    /\ attempts net url true maxAttempts retryDelay (S again) attempt lastError
       = Some (Throw (classified url e), backoff retryDelay attempt again).
Proof.
  induction again as [|again IH]; intros attempt lastError Hsum Hfail.
  - assert (attempt = maxAttempts) by lia. subst attempt.
    destruct (Hfail maxAttempts) as (e & Hnet & _); [lia|].
    exists e. split; [done|]. rewrite attempts_last by lia.
    rewrite Hnet. cbn [tryBlock]. rewrite catchBlock_object.
    by rewrite Z.ltb_irrefl.
  - destruct (Hfail attempt) as (e & Hnet & He); [lia|].
    rewrite attempts_last by lia.
    rewrite Hnet. cbn [tryBlock]. rewrite catchBlock_object.
    rewrite (proj2 (Z.ltb_lt _ _)) by lia. rewrite He. cbn [andb].
    destruct (IH (attempt + 1) (Some (ThrownObject e))) as (final & Hfinal & ->); [lia| |].
    + intros a Ha. apply Hfail. lia.
    + by exists final.
Qed.

(** X25.  A network that keeps failing: when every attempt of a call with a
    retryable method ends in an exception of a retryable class, the client
    makes exactly [retries + 1] calls of the network layer with the full
    backoff between them, and then treats the last exception as one it does
    not retry: the dependency failure for [ECONNREFUSED], [ENOTFOUND] and
    [AbortError], the exception itself for the others. *)
Theorem persistent_exception_uses_every_attempt net method url options :
  isRetryableMethod method = true ->
  0 <= retriesOf options ->
  (forall a, 1 <= a <= retriesOf options + 1 ->
             exists e, net a = Rejected (ThrownObject e)
                       /\ isRetryableError (ThrownObject e) = true) ->
  exists e,
    net (retriesOf options + 1) = Rejected (ThrownObject e)
    /\ httpRequest net method url options
       = Some (Throw (if strictEq (e_code e) "ECONNREFUSED"
                         || strictEq (e_code e) "ENOTFOUND"
                         || strictEq (e_name e) "AbortError"
                      then serviceUnavailable url
                             (Js.nullish (e_message e) "Unknown error")
                      else ThrownObject e),
               backoff (retryDelayOf options) 1 (Z.to_nat (retriesOf options))).
Proof.
  intros Hretry Hretries Hfail. rewrite httpRequest_eq.
  unfold maxAttemptsOf. rewrite Hretry.
  replace (Z.to_nat (retriesOf options + 1))
    with (S (Z.to_nat (retriesOf options))) by lia.
  destruct (persistent_exception_from net url (retriesOf options + 1)
              (retryDelayOf options) (Z.to_nat (retriesOf options)) 1 None)
    as (e & Hnet & Hrun); [lia|exact Hfail|].
  by exists e.
Qed.

Lemma persistent_exception_uses_every_attempt_witness :
  exists e,
    Samples.always
      (Rejected (ThrownObject (Samples.systemError "Connection timeout" "ETIMEDOUT")))
      (retriesOf (Samples.twoRetries 10) + 1)
    = Rejected (ThrownObject e)
    /\ httpRequest
         (Samples.always
            (Rejected (ThrownObject (Samples.systemError "Connection timeout" "ETIMEDOUT"))))
         "GET" "https://api.example.com/data" (Samples.twoRetries 10)
       = Some (Throw (if strictEq (e_code e) "ECONNREFUSED"
                         || strictEq (e_code e) "ENOTFOUND"
                         || strictEq (e_name e) "AbortError"
                      then serviceUnavailable "https://api.example.com/data"
                             (Js.nullish (e_message e) "Unknown error")
                      else ThrownObject e),
               backoff (retryDelayOf (Samples.twoRetries 10)) 1
                 (Z.to_nat (retriesOf (Samples.twoRetries 10)))).
Proof.
  apply (persistent_exception_uses_every_attempt
           (Samples.always
              (Rejected (ThrownObject (Samples.systemError "Connection timeout" "ETIMEDOUT"))))
           "GET" "https://api.example.com/data" (Samples.twoRetries 10)).
  - reflexivity.
  - vm_compute; discriminate.
  - intros a _. eexists. split; reflexivity.
Defined.

(** X26.  With a negative [retries] a call with a retryable method has no attempt
    at all: the network layer is never called, and the client throws the
    503 error "Request failed after N attempts", N being [retries + 1],
    with "Unknown error" as the original error. *)
Theorem negative_retries_never_reach_the_network net method url options :
  isRetryableMethod method = true ->
  retriesOf options < 0 ->
  httpRequest net method url options
  = Some (Throw (ThrownAppError
                   (mkAppError INTERNAL_ERROR
                      ("Request failed after "
                       ++ Js.numberToString (retriesOf options + 1)
                       ++ " attempts")%string
                      503
                      (Some (Js.VObj [("url", Js.VStr url);
                                      ("originalError", Js.VStr "Unknown error")])))),
          []).
Proof.
  intros Hretry Hneg. rewrite httpRequest_eq. unfold maxAttemptsOf. rewrite Hretry.
  replace (Z.to_nat (retriesOf options + 1)) with 0%nat by lia.
  cbn [attempts]. by rewrite (proj2 (Z.leb_gt _ _)) by lia.
Qed.

Lemma negative_retries_never_reach_the_network_witness :
  httpRequest Samples.flaky "GET" "https://api.example.com/data"
    {| timeout := None; retries := Some (-1); retryDelay := None; body := None |}
  = Some (Throw (ThrownAppError
                   (mkAppError INTERNAL_ERROR "Request failed after 0 attempts" 503
                      (Some (Js.VObj [("url", Js.VStr "https://api.example.com/data");
                                      ("originalError", Js.VStr "Unknown error")])))),
          []).
Proof.
  apply (negative_retries_never_reach_the_network Samples.flaky "GET"
           "https://api.example.com/data"
           {| timeout := None; retries := Some (-1); retryDelay := None;
              body := None |}).
  - reflexivity.
  - vm_compute; reflexivity.
Defined.

Lemma totalSleep_backoff retryDelay again : forall attempt,
  2 * totalSleep (backoff retryDelay attempt again)
  = retryDelay * Z.of_nat again * (2 * attempt + Z.of_nat again - 1).
Proof.
  induction again as [|again IH]; intros attempt.
  - cbn. lia.
  - cbn [backoff totalSleep]. specialize (IH (attempt + 1)). nia.
Qed.

(** X27.  The waiting of a call is bounded by its configuration, whatever the
    network answers: a call with a method that is not retryable never
    sleeps, and any call with [retries >= 0] and [retryDelay >= 0] sleeps at
    most [retryDelay * retries * (retries + 1) / 2] in all (the delays grow
    linearly with the attempt number). *)
Theorem waiting_time_is_bounded net method url options result events :
  httpRequest net method url options = Some (result, events) ->
  0 <= retriesOf options ->
  0 <= retryDelayOf options ->
  2 * totalSleep events
  <= retryDelayOf options * retriesOf options * (retriesOf options + 1)
  /\ (isRetryableMethod method = false -> totalSleep events = 0).
Proof.
  intros Hrun Hretries Hdelay. rewrite httpRequest_eq in Hrun.
  unfold maxAttemptsOf in Hrun.
  destruct (isRetryableMethod method) eqn:M.
  - split; [|done].
    destruct (attempts_backoff net url true (retriesOf options + 1)
                (retryDelayOf options) (Z.to_nat (retriesOf options + 1)) 1 None)
      as (r & again & Hr & Hb); [lia|lia|].
    rewrite Hr in Hrun. injection Hrun as _ <-.
    rewrite totalSleep_backoff. nia.
  - change (Z.to_nat 1) with 1%nat in Hrun. rewrite attempts_last in Hrun by lia.
    destruct (tryBlock url false 1 (retryDelayOf options) 1 (net 1))
      as [r|e ms|e] eqn:T.
    + injection Hrun as _ <-. cbn. split; [nia|done].
    + by apply tryBlock_continue in T as (? & _).
    + injection Hrun as _ <-. cbn. split; [nia|done].
Qed.

Lemma waiting_time_is_bounded_witness :
  2 * totalSleep [Fetch 1; Sleep 10; Fetch 2; Sleep 20; Fetch 3]
  <= retryDelayOf (Samples.twoRetries 10) * retriesOf (Samples.twoRetries 10)
     * (retriesOf (Samples.twoRetries 10) + 1).
Proof.
  apply (waiting_time_is_bounded Samples.flaky "GET" "https://api.example.com/data"
           (Samples.twoRetries 10)
           (Normal {| data := Js.VObj [("success", Js.VBool true)]; status := 200;
                      headers := {[ "content-type" := "application/json" ]} |})
           [Fetch 1; Sleep 10; Fetch 2; Sleep 20; Fetch 3]).
  - reflexivity.
  - vm_compute; discriminate.
  - vm_compute; discriminate.
Defined.

Lemma single_attempt net method url options :
  isRetryableMethod method = false ->
  exists result, httpRequest net method url options = Some (result, [Fetch 1]).
Proof.
  intros Hnot. rewrite httpRequest_eq. unfold maxAttemptsOf. rewrite Hnot.
  change (Z.to_nat 1) with 1%nat. rewrite attempts_last by lia.
  destruct (tryBlock url false 1 (retryDelayOf options) 1 (net 1)) as [r|e ms|e] eqn:T.
  - by eexists.
  - by apply tryBlock_continue in T as (? & _).
  - by eexists.
Qed.

(** X28.  The writing verbs and [delete], of [httpClient] and of every client
    built by [createHttpClient], make exactly one call of the network layer,
    whatever retries the client or the call configure. *)
Theorem writes_and_deletes_are_sent_once net defaults url sent options :
  (exists result, post net url sent options = Some (result, [Fetch 1]))
  /\ (exists result, put net url sent options = Some (result, [Fetch 1]))
  /\ (exists result, patch net url sent options = Some (result, [Fetch 1]))
  /\ (exists result, delete net url options = Some (result, [Fetch 1]))
  /\ (exists result, client_post net defaults url sent options = Some (result, [Fetch 1]))
  /\ (exists result, client_put net defaults url sent options = Some (result, [Fetch 1]))
  /\ (exists result, client_patch net defaults url sent options = Some (result, [Fetch 1]))
  /\ (exists result, client_delete net defaults url options = Some (result, [Fetch 1])).
Proof.
  repeat split; by apply single_attempt.
Qed.

(** The retries of a read through a built client: a [retries] property of
    the call replaces the one of the client, also when it is there with the
    value [undefined], in which case the library default 2 applies and not
    the default of the client; the default of the client is used only when
    the call has no such property.  The calls of the network layer are at
    most that number plus one. *)
Theorem call_options_replace_client_defaults net defaults path options :
  let retries :=
    match options with
    | Some o =>
        match o_retries o with
        | Given v => Js.nullish v 2
        | Absent => Js.nullish (read (o_retries (defaultOptions defaults))) 2
        end
    | None => Js.nullish (read (o_retries (defaultOptions defaults))) 2
    end in
  0 <= retries ->
  exists result events,
    client_get net defaults path options = Some (result, events)
    /\ invocations events <= retries + 1.
Proof.
  intros retries Hretries. unfold client_get.
  set (opts := withBody (spread (defaultOptions defaults) options) None).
  assert (Hr : retriesOf opts = retries).
  { unfold retriesOf, opts, retries, spread, withBody. cbn [HttpClient.retries].
    destruct options as [o|]; [|done]. cbn [o_retries].
    by destruct (o_retries o). }
  rewrite httpRequest_eq. unfold maxAttemptsOf. change (isRetryableMethod "GET") with true.
  destruct (attempts_backoff net (urlOf defaults path) true (retriesOf opts + 1)
              (retryDelayOf opts) (Z.to_nat (retriesOf opts + 1)) 1 None)
    as (result & again & -> & Hb); [lia|lia|].
  eexists _, _. split; [done|]. rewrite invocations_backoff. lia.
Qed.

Lemma call_options_replace_client_defaults_witness :
  exists result events,
    client_get (Samples.always (Resolved Samples.unavailable))
      {| baseUrl := Some "https://api.example.com";
         defaultOptions := {| o_timeout := Absent; o_retries := Given (Some 5);
                              o_retryDelay := Absent |} |}
      "/data"
      (Some {| o_timeout := Absent; o_retries := Given None; o_retryDelay := Absent |})
    = Some (result, events)
    /\ invocations events <= 2 + 1.
Proof.
  apply (call_options_replace_client_defaults
           (Samples.always (Resolved Samples.unavailable))
           {| baseUrl := Some "https://api.example.com";
              defaultOptions := {| o_timeout := Absent; o_retries := Given (Some 5);
                                   o_retryDelay := Absent |} |}
           "/data"
           (Some {| o_timeout := Absent; o_retries := Given None;
                    o_retryDelay := Absent |})).
  vm_compute; discriminate.
Defined.

End HttpClientMore.

(* ===================================================================== *)
(** ** Facts about the outbound headers                                   *)
(* ===================================================================== *)

Module OutboundHeadersFacts.
Import Http OutboundHeaders.

Lemma finalHeaders_steps headers req propagateAuth propagateCorrelationId :
  finalHeaders headers req propagateAuth propagateCorrelationId
  = withCorrelation req (Js.nullish propagateCorrelationId true)
      (withCredential req (Js.nullish propagateAuth true)
         ((SlotStr <$> Js.nullish headers ∅)
            ∪ {[ "Content-Type" := SlotStr "application/json" ]})).
Proof. reflexivity. Qed.

Lemma withCorrelation_other req on (start : gmap string Slot) name :
  name <> "X-Correlation-Id" ->
  withCorrelation req on start !! name = start !! name.
Proof.
  intros Hne. unfold withCorrelation. destruct req as [r|]; [|done].
  destruct on; [|done].
  destruct (truthyHeader _) as [[id|items]|]; [| |done]; by rewrite lookup_insert_ne.
Qed.

Lemma withCredential_other req on (start : gmap string Slot) name :
  name <> "Authorization" ->
  withCredential req on start !! name = start !! name.
Proof.
  intros Hne. unfold withCredential. destruct req as [r|]; [|done].
  destruct on; [|done].
  destruct (truthyHeader _) as [v|]; [|done]. by rewrite lookup_insert_ne.
Qed.

Lemma literal_lookup (headers : gmap string string) name :
  ((SlotStr <$> headers) ∪ {[ "Content-Type" := SlotStr "application/json" ]}
     : gmap string Slot) !! name
  = match headers !! name with
    | Some own => Some (SlotStr own)
    | None => if decide (name = "Content-Type")
              then Some (SlotStr "application/json") else None
    end.
Proof.
  rewrite lookup_union, lookup_fmap.
  destruct (headers !! name) as [own|]; cbn.
  - by destruct ({[ "Content-Type" := SlotStr "application/json" ]} !! name).
  - case_decide as Hd.
    + subst name. by rewrite lookup_singleton_eq.
    + by rewrite lookup_singleton_ne.
Qed.

(** X29.  The credential of the inbound request: with [propagateAuth: false], or
    with no inbound request, the [Authorization] header of the outbound
    request is the one the caller gave, if any, and never the inbound one;
    otherwise a non-empty inbound [authorization] header is sent as it is,
    in place of whatever the caller gave.  [Content-Type] is always there:
    the one of the caller, or [application/json]. *)
Theorem credential_is_forwarded_unless_disabled
    headers req propagateAuth propagateCorrelationId :
  (propagateAuth = Some false \/ req = None ->
   finalHeaders headers req propagateAuth propagateCorrelationId !! "Authorization"
   = SlotStr <$> (Js.nullish headers ∅ !! "Authorization"))
  /\ (forall inbound credential,
        req = Some inbound ->
        propagateAuth <> Some false ->
        Http.headers (Express.base inbound) !! "authorization" = Some (HStr credential) ->
        credential <> "" ->
        finalHeaders headers req propagateAuth propagateCorrelationId !! "Authorization"
        = Some (SlotStr credential))
  /\ finalHeaders headers req propagateAuth propagateCorrelationId !! "Content-Type"
     = Some (SlotStr (match Js.nullish headers ∅ !! "Content-Type" with
                      | Some own => own
                      | None => "application/json"
                      end)).
Proof.
  rewrite finalHeaders_steps. split; [|split].
  - intros Hoff. rewrite withCorrelation_other by done.
    assert (E : withCredential req (Js.nullish propagateAuth true)
                  ((SlotStr <$> Js.nullish headers ∅)
                     ∪ {[ "Content-Type" := SlotStr "application/json" ]})
                = (SlotStr <$> Js.nullish headers ∅)
                    ∪ {[ "Content-Type" := SlotStr "application/json" ]}).
    { destruct Hoff as [->| ->]; [|done]. by destruct req. }
    rewrite E, literal_lookup. by destruct (_ !! _).
  - intros inbound credential -> Hon Hin Hne.
    rewrite withCorrelation_other by done. unfold withCredential.
    assert (Hp : Js.nullish propagateAuth true = true).
    { destruct propagateAuth as [[|]|]; done. }
    rewrite Hp, Hin.
    assert (Ht : truthyHeader (Some (HStr credential)) = Some (HStr credential))
      by (by destruct credential).
    rewrite Ht. cbn [slotOf]. by rewrite lookup_insert_eq.
  - rewrite withCorrelation_other, withCredential_other by done.
    rewrite literal_lookup. by destruct (_ !! _).
Qed.

Lemma credential_is_forwarded_unless_disabled_witness :
  finalHeaders (Some {[ "Authorization" := "Bearer own" ]})
    (Some MoreSamples.inbound) (Some false) None !! "Authorization"
  = Some (SlotStr "Bearer own")
  /\ finalHeaders (Some {[ "Authorization" := "Bearer own" ]})
       (Some MoreSamples.inbound) None None !! "Authorization"
     = Some (SlotStr "Bearer inbound").
Proof.
  destruct (credential_is_forwarded_unless_disabled
              (Some {[ "Authorization" := "Bearer own" ]})
              (Some MoreSamples.inbound) (Some false) None) as (Hoff & _ & _).
  destruct (credential_is_forwarded_unless_disabled
              (Some {[ "Authorization" := "Bearer own" ]})
              (Some MoreSamples.inbound) None None) as (_ & Hon & _).
  split.
  - rewrite Hoff by (by left). reflexivity.
  - apply (Hon MoreSamples.inbound "Bearer inbound");
      [reflexivity | discriminate | reflexivity | discriminate].
Defined.

(** X30.  The correlation identifier: when it is propagated (the default), the
    one the request context attached to the inbound request, if not empty,
    is sent as [X-Correlation-Id], whatever the inbound header says; without
    one, a non-empty inbound [x-correlation-id] header is sent as it is.
    With [propagateCorrelationId: false], or with no inbound request, the
    header is the one the caller gave, if any. *)
Theorem correlation_id_prefers_the_request_context
    headers req propagateAuth propagateCorrelationId :
  (forall inbound id,
     req = Some inbound -> propagateCorrelationId <> Some false ->
     Express.correlationId inbound = Some id -> id <> "" ->
     finalHeaders headers req propagateAuth propagateCorrelationId !! "X-Correlation-Id"
     = Some (SlotStr id))
  /\ (forall inbound id,
        req = Some inbound -> propagateCorrelationId <> Some false ->
        Js.truthy (Express.correlationId inbound) = None ->
        Http.headers (Express.base inbound) !! "x-correlation-id" = Some (HStr id) ->
        id <> "" ->
        finalHeaders headers req propagateAuth propagateCorrelationId !! "X-Correlation-Id"
        = Some (SlotStr id))
  /\ (propagateCorrelationId = Some false \/ req = None ->
      finalHeaders headers req propagateAuth propagateCorrelationId !! "X-Correlation-Id"
      = SlotStr <$> (Js.nullish headers ∅ !! "X-Correlation-Id")).
Proof.
  rewrite finalHeaders_steps.
  assert (Hon : propagateCorrelationId <> Some false ->
                Js.nullish propagateCorrelationId true = true).
  { destruct propagateCorrelationId as [[|]|]; done. }
  split; [|split].
  - intros inbound id -> Hp Hid Hne. unfold withCorrelation.
    rewrite (Hon Hp), Hid.
    destruct id as [|c id]; [done|]. cbn [Js.truthy truthyHeader].
    by rewrite lookup_insert_eq.
  - intros inbound id -> Hp Hnone Hh Hne. unfold withCorrelation.
    rewrite (Hon Hp), Hnone, Hh.
    destruct id as [|c id]; [done|]. cbn [truthyHeader].
    by rewrite lookup_insert_eq.
  - intros Hoff.
    assert (E : forall start : gmap string Slot,
              withCorrelation req (Js.nullish propagateCorrelationId true) start = start).
    { intros start. destruct Hoff as [->| ->]; [|done]. by destruct req. }
    rewrite E, withCredential_other by done.
    rewrite literal_lookup. by destruct (_ !! _).
Qed.

Lemma correlation_id_prefers_the_request_context_witness :
  finalHeaders None (Some MoreSamples.inbound) None None !! "X-Correlation-Id"
  = Some (SlotStr "from-context").
Proof.
  destruct (correlation_id_prefers_the_request_context None (Some MoreSamples.inbound)
              None None) as (Hcontext & _ & _).
  apply (Hcontext MoreSamples.inbound "from-context");
    [reflexivity | discriminate | reflexivity | discriminate].
Defined.

End OutboundHeadersFacts.
